(** * Local aggregation pipeline of the topic-tree query interface

    A shallow embedding of [processTreeLocally], [generateInsights], the
    custom-query analyzers and [generateDeltaAnalysis] from [src/script.js]
    (class [TopicTreeInterface]), followed by the properties proved about
    them.

    Conventions of the embedding.
    - A JavaScript [Map] is an association list in insertion order:
      [set] on a present key replaces the value in place, on an absent key
      appends the entry.  A [Set] is a duplicate-free list in insertion order.
    - An absent ([undefined]) property is [None].
    - Identifiers and counts are integers ([Z]); on an integer [n] the call
      [parseInt(n)] is [n] itself.
    - Results of a floating point division followed by [Math.round] are
      computed on IEEE binary64 ([SpecFloat]), so that [Infinity] and [NaN]
      are values of the model.
    - Strings are byte strings; [toLowerCase] acts on ASCII letters.
    - [this.topicNames], the session cache, is threaded explicitly, and the
      host (clock, locale) is a record passed to the functions reading it.
    - [queryData.users] is an array of strings, as [buildQueryData] and the
      test suite build it; every value of [treeData.messages] is an object.
    - Console output and the rendering to HTML are left out. *)

From Stdlib Require Import ZArith List String Ascii Bool Lia.
From Stdlib Require Import Permutation Sorted.
From Stdlib Require Import DecimalString Decimal DecimalPos.
From Stdlib Require Import SpecFloat.
Import ListNotations.
Open Scope string_scope.
Open Scope list_scope.
Open Scope Z_scope.

(* ================================================================= *)
(** ** Numbers *)

(** The values a template literal can print for the numbers of this
    program: an integer, or one of the three non-finite values. *)
Inductive JSNum : Type :=
| Fin (z : Z)
| PosInf
| NegInf
| NaN.

Definition prec : Z := 53.
Definition emax : Z := 1024.

(** An integer as a binary64 number (exact below 2^53). *)
Definition toNumber (z : Z) : spec_float := binary_normalize prec emax z 0 false.

Definition num_div : spec_float -> spec_float -> spec_float := SFdiv prec emax.
Definition num_mul : spec_float -> spec_float -> spec_float := SFmul prec emax.

(** [Math.round]: the closest integer, ties towards +Infinity. *)
Definition Math_round (x : spec_float) : JSNum :=
  match x with
  | S754_zero _ => Fin 0
  | S754_infinity false => PosInf
  | S754_infinity true => NegInf
  | S754_nan => NaN
  | S754_finite s m e =>
      let v := if s then Z.neg m else Z.pos m in
      if 0 <=? e then Fin (v * 2 ^ e)
      else let d := 2 ^ (- e) in Fin ((2 * v + d) / (2 * d))
  end.

(** [Math.round(a / b)] on two integers. *)
Definition round_div (a b : Z) : JSNum :=
  Math_round (num_div (toNumber a) (toNumber b)).

(** [Math.round((a / b) * 100)] on two integers. *)
Definition round_percent (a b : Z) : JSNum :=
  Math_round (num_mul (num_div (toNumber a) (toNumber b)) (toNumber 100)).

(* ================================================================= *)
(** ** Strings *)

Definition dq : string := String (ascii_of_nat 34) EmptyString.

(** A template literal: its pieces, concatenated. *)
Definition str (parts : list string) : string := String.concat EmptyString parts.

(** [String(n)] for an integer, all digits written out (as JavaScript does
    below 10^21 in magnitude). *)
Definition show_Z (z : Z) : string := NilZero.string_of_int (Z.to_int z).

Definition show_nat (n : nat) : string := show_Z (Z.of_nat n).

Definition show_num (n : JSNum) : string :=
  match n with
  | Fin z => show_Z z
  | PosInf => "Infinity"
  | NegInf => "-Infinity"
  | NaN => "NaN"
  end.

Definition lower_ascii (c : ascii) : ascii :=
  let n := nat_of_ascii c in
  if (Nat.leb 65 n && Nat.leb n 90)%bool then ascii_of_nat (n + 32) else c.

Fixpoint toLowerCase (s : string) : string :=
  match s with
  | EmptyString => EmptyString
  | String c s' => String (lower_ascii c) (toLowerCase s')
  end.

(** [s.includes(sub)] *)
Fixpoint includes (s sub : string) : bool :=
  if String.prefix sub s then true
  else match s with
       | EmptyString => false
       | String _ s' => includes s' sub
       end.

Definition truthy_str (s : string) : bool :=
  match s with EmptyString => false | _ => true end.

Definition truthy_num (z : Z) : bool := negb (z =? 0).

(** [parseInt(s)] on a string, radix left out: leading blanks, a sign, an
    optional hexadecimal prefix, then the longest run of digits.  [None] is
    [NaN]. *)
Definition is_blank (c : ascii) : bool :=
  let n := nat_of_ascii c in
  (Nat.eqb n 32 || (Nat.leb 9 n && Nat.leb n 13))%bool.

Fixpoint trimStart (s : string) : string :=
  match s with
  | String c s' => if is_blank c then trimStart s' else s
  | EmptyString => EmptyString
  end.

Definition digit_val (c : ascii) : option Z :=
  let n := nat_of_ascii c in
  if (Nat.leb 48 n && Nat.leb n 57)%bool then Some (Z.of_nat (n - 48))
  else if (Nat.leb 97 n && Nat.leb n 122)%bool then Some (Z.of_nat (n - 87))
  else if (Nat.leb 65 n && Nat.leb n 90)%bool then Some (Z.of_nat (n - 55))
  else None.

Fixpoint parse_digits (radix : Z) (s : string) (acc : option Z) : option Z :=
  match s with
  | EmptyString => acc
  | String c s' =>
      match digit_val c with
      | Some d =>
          if d <? radix
          then parse_digits radix s'
                 (Some (match acc with Some a => a | None => 0 end * radix + d))
          else acc
      | None => acc
      end
  end.

Definition parseInt (s : string) : option Z :=
  let s1 := trimStart s in
  let '(sign, s2) :=
    match s1 with
    | String "-"%char r => (-1, r)
    | String "+"%char r => (1, r)
    | _ => (1, s1)
    end in
  let '(radix, s3) :=
    match s2 with
    | String "0"%char (String x r) =>
        if (Ascii.eqb x "x" || Ascii.eqb x "X")%bool then (16, r) else (10, s2)
    | _ => (10, s2)
    end in
  option_map (Z.mul sign) (parse_digits radix s3 None).

(* ================================================================= *)
(** ** Maps, sets and arrays *)

Section JSMap.
Context {K V : Type}.
Variable eqb : K -> K -> bool.

Fixpoint Map_get (m : list (K * V)) (k : K) : option V :=
  match m with
  | [] => None
  | (k', v) :: m' => if eqb k' k then Some v else Map_get m' k
  end.

Definition Map_has (m : list (K * V)) (k : K) : bool :=
  match Map_get m k with Some _ => true | None => false end.

Fixpoint Map_set (m : list (K * V)) (k : K) (v : V) : list (K * V) :=
  match m with
  | [] => [(k, v)]
  | (k', v') :: m' =>
      if eqb k' k then (k', v) :: m' else (k', v') :: Map_set m' k v
  end.

(** [new Map(entries)] *)
Definition Map_of (entries : list (K * V)) : list (K * V) :=
  fold_left (fun m e => Map_set m (fst e) (snd e)) entries [].

Definition Set_has (s : list K) (k : K) : bool := existsb (eqb k) s.

Definition Set_add (s : list K) (k : K) : list K :=
  if Set_has s k then s else s ++ [k].
End JSMap.

Definition Map_keys {K V : Type} (m : list (K * V)) : list K := map fst m.
Definition Map_values {K V : Type} (m : list (K * V)) : list V := map snd m.
Definition Map_size {K V : Type} (m : list (K * V)) : Z := Z.of_nat (List.length m).

(** [(m.get(k) || 0)] on a map of counts *)
Definition count_or_0 (c : option Z) : Z :=
  match c with Some n => n | None => 0 end.

Section Sort.
Context {A : Type}.
(** The comparator: a negative result puts the first argument first. *)
Variable cmp : A -> A -> Z.

Fixpoint sort_insert (x : A) (l : list A) : list A :=
  match l with
  | [] => [x]
  | y :: l' => if cmp x y <=? 0 then x :: y :: l' else y :: sort_insert x l'
  end.

(** [Array.prototype.sort(cmp)], which is stable (ECMAScript 2019): an
    element is moved behind the elements that compare strictly before it,
    and behind no other.  For a comparator that orders by a key, as all
    comparators of this program do, the outcome of a stable sort does not
    depend on the algorithm. *)
Fixpoint sort (l : list A) : list A :=
  match l with
  | [] => []
  | x :: l' => sort_insert x (sort l')
  end.
End Sort.

(** [a.slice(0, n)] for [0 <= n] *)
Definition slice_to {A : Type} (n : nat) (l : list A) : list A := firstn n l.

(** [a.slice(-n)] for [0 < n] *)
Definition slice_last {A : Type} (n : nat) (l : list A) : list A :=
  skipn (List.length l - n) l.

(* ================================================================= *)
(** ** Data model *)

Module Message.
Record t : Type := mk {
  fromUserId : option Z;
  fromUserName : option string;
  topicId : option Z;
  timestamp : option Z
}.
End Message.

Module TopicDef.
Record t : Type := mk {
  name : option string;
  title : option string
}.
End TopicDef.

(** [messages] holds [Object.values(treeData.messages)], [topics] holds
    [Object.entries(treeData.topics)] with the keys already read by
    [parseInt]; an absent mapping is [None]. *)
Module RawTree.
Record t : Type := mk {
  messages : option (list Message.t);
  topics : option (list (Z * option TopicDef.t))
}.
End RawTree.

Module QueryData.
Record t : Type := mk {
  type : string;
  users : list string;
  customQuestion : option string
}.
End QueryData.

Module Contributor.
Record t : Type := mk {
  userId : Z;
  username : string;
  messageCount : Z
}.
End Contributor.

Module Topic.
Record t : Type := mk {
  id : Z;
  name : string;
  messageCount : Z;
  contributorCount : Z;
  contributors : list Contributor.t
}.
End Topic.

Module Engagement.
Record t : Type := mk {
  averageMessagesPerUser : JSNum;
  averageTopicsPerUser : JSNum
}.
End Engagement.

Module Data.
Record t : Type := mk {
  messageCount : Z;
  topicCount : Z;
  activeUsers : Z;
  topics : list Topic.t;
  topicsByPopularity : list Topic.t;
  mostDiscussedTopic : option Topic.t;
  userEngagement : Engagement.t
}.
End Data.

Module Metadata.
Record t : Type := mk {
  version : Z;
  timestamp : string;
  queryType : string;
  processingMethod : string;
  enhanced : bool
}.
End Metadata.

(** The [data] property of a result: the object literal [{}] of the
    no-message path, or the aggregated statistics. *)
Inductive ResultData : Type :=
| EmptyData
| FullData (d : Data.t).

Module Result.
Record t : Type := mk {
  summary : string;
  data : ResultData;
  insights : list string;
  metadata : Metadata.t
}.
End Result.

(** What the functions read from the browser: the clock behind
    [new Date().toISOString()] and the locale behind
    [new Date(ms).toLocaleDateString()]. *)
Module Host.
Record t : Type := mk {
  nowISO : string;
  toLocaleDateString : Z -> string
}.
End Host.

(** [this.topicNames] *)
Definition TopicNames : Type := list (Z * string).

(* ================================================================= *)
(** ** Topic names *)

Definition set_topic_name (names : TopicNames) (entry : Z * option TopicDef.t)
  : TopicNames :=
  let '(topicId, topicData) := entry in
  match topicData with
  | None => names
  | Some td =>
      match TopicDef.name td with
      | Some n =>
          if truthy_str n then Map_set Z.eqb names topicId n
          else match TopicDef.title td with
               | Some ti => if truthy_str ti then Map_set Z.eqb names topicId ti
                            else names
               | None => names
               end
      | None =>
          match TopicDef.title td with
          | Some ti => if truthy_str ti then Map_set Z.eqb names topicId ti
                       else names
          | None => names
          end
      end
  end.

Definition extractTopicNames (names : TopicNames) (treeData : RawTree.t)
  : TopicNames :=
  match RawTree.topics treeData with
  | Some entries => fold_left set_topic_name entries names
  | None => names
  end.

Definition fallbackNames : list (Z * string) :=
  [ (0, "General Discussion");
    (1, "Technical Implementation");
    (2, "Community Governance");
    (3, "Market Analysis");
    (4, "Product Features");
    (5, "DeFi Protocols");
    (6, "Security & Audits");
    (7, "Token Economics");
    (8, "Development Updates");
    (9, "User Support") ].

Definition getTopicName (names : TopicNames) (topicId : Z) : string :=
  match Map_get Z.eqb names topicId with
  | Some n => n
  | None =>
      match Map_get Z.eqb fallbackNames topicId with
      | Some n => n
      | None => str ["Topic "; show_Z topicId]
      end
  end.

(* ================================================================= *)
(** ** Aggregation *)

(** [userIds.includes(message.fromUserId)]: an absent id equals no entry,
    and neither does a [NaN] entry equal an integer. *)
Definition includes_id (userIds : list (option Z)) (uid : option Z) : bool :=
  match uid with
  | Some u =>
      existsb (fun x => match x with Some v => v =? u | None => false end) userIds
  | None => false
  end.

Definition filterMessages (selectedUsers : list string) (messages : list Message.t)
  : list Message.t :=
  match selectedUsers with
  | [] => messages
  | _ :: _ =>
      let userIds := map parseInt selectedUsers in
      filter (fun message => includes_id userIds (Message.fromUserId message))
             messages
  end.

(** [message.topicId !== undefined && message.topicId !== -1] *)
Definition realTopic (message : Message.t) : option Z :=
  match Message.topicId message with
  | Some t => if t =? -1 then None else Some t
  | None => None
  end.

(** [message.fromUserId && message.fromUserName] *)
Definition namedUser (message : Message.t) : option (Z * string) :=
  match Message.fromUserId message, Message.fromUserName message with
  | Some uid, Some uname =>
      if (truthy_num uid && truthy_str uname)%bool then Some (uid, uname) else None
  | _, _ => None
  end.

(** [message.fromUserId], when truthy *)
Definition anyUser (message : Message.t) : option Z :=
  match Message.fromUserId message with
  | Some uid => if truthy_num uid then Some uid else None
  | None => None
  end.

Module UserAcc.
Record t : Type := mk {
  users : list (Z * string);
  userMessageCounts : list (Z * Z);
  userTopics : list (Z * list Z)
}.
Definition empty : t := mk [] [] [].
End UserAcc.

(** Body of the first [messages.forEach]. *)
Definition collectUser (acc : UserAcc.t) (message : Message.t) : UserAcc.t :=
  match namedUser message with
  | Some (uid, uname) =>
      let users := Map_set Z.eqb (UserAcc.users acc) uid uname in
      let counts :=
        Map_set Z.eqb (UserAcc.userMessageCounts acc) uid
          (count_or_0 (Map_get Z.eqb (UserAcc.userMessageCounts acc) uid) + 1) in
      let userTopics :=
        match realTopic message with
        | Some t =>
            let ut :=
              if Map_has Z.eqb (UserAcc.userTopics acc) uid
              then UserAcc.userTopics acc
              else Map_set Z.eqb (UserAcc.userTopics acc) uid [] in
            match Map_get Z.eqb ut uid with
            | Some s => Map_set Z.eqb ut uid (Set_add Z.eqb s t)
            | None => ut
            end
        | None => UserAcc.userTopics acc
        end in
      UserAcc.mk users counts userTopics
  | None => acc
  end.

Module TopicAcc.
Record t : Type := mk {
  topicMessageCounts : list (Z * Z);
  topicUsers : list (Z * list (Z * Z))
}.
Definition empty : t := mk [] [].
End TopicAcc.

(** Body of the second [messages.forEach]. *)
Definition collectTopic (acc : TopicAcc.t) (message : Message.t) : TopicAcc.t :=
  match realTopic message with
  | Some topicId =>
      let counts :=
        Map_set Z.eqb (TopicAcc.topicMessageCounts acc) topicId
          (count_or_0 (Map_get Z.eqb (TopicAcc.topicMessageCounts acc) topicId) + 1) in
      let tu :=
        if Map_has Z.eqb (TopicAcc.topicUsers acc) topicId
        then TopicAcc.topicUsers acc
        else Map_set Z.eqb (TopicAcc.topicUsers acc) topicId [] in
      let tu' :=
        match anyUser message with
        | Some userId =>
            match Map_get Z.eqb tu topicId with
            | Some userMap =>
                Map_set Z.eqb tu topicId
                  (Map_set Z.eqb userMap userId
                     (count_or_0 (Map_get Z.eqb userMap userId) + 1))
            | None => tu
            end
        | None => tu
        end in
      TopicAcc.mk counts tu'
  | None => acc
  end.

Definition byContributorCount (a b : Contributor.t) : Z :=
  Contributor.messageCount b - Contributor.messageCount a.

Definition byMessageCount (a b : Topic.t) : Z :=
  Topic.messageCount b - Topic.messageCount a.

Definition mkContributor (users : list (Z * string)) (entry : Z * Z)
  : Contributor.t :=
  let '(userId, userMessageCount) := entry in
  let username :=
    match Map_get Z.eqb users userId with
    | Some n => if truthy_str n then n else str ["User "; show_Z userId]
    | None => str ["User "; show_Z userId]
    end in
  Contributor.mk userId (str ["@"; username]) userMessageCount.

Definition buildContributors (users : list (Z * string))
  (topicUserMap : list (Z * Z)) : list Contributor.t :=
  sort byContributorCount (map (mkContributor users) topicUserMap).

Definition mkTopic (names : TopicNames) (users : list (Z * string))
  (topicUsers : list (Z * list (Z * Z))) (entry : Z * Z) : Topic.t :=
  let '(topicId, messageCount) := entry in
  let topicUserMap :=
    match Map_get Z.eqb topicUsers topicId with
    | Some m => m
    | None => []
    end in
  let contributors := buildContributors users topicUserMap in
  Topic.mk topicId (getTopicName names topicId) messageCount
           (Z.of_nat (List.length contributors)) contributors.

Definition buildTopics (names : TopicNames) (users : list (Z * string))
  (acc : TopicAcc.t) : list Topic.t :=
  sort byMessageCount
       (map (mkTopic names users (TopicAcc.topicUsers acc))
            (TopicAcc.topicMessageCounts acc)).

(* ================================================================= *)
(** ** Custom-query analyzers *)

Module CommonTopic.
Record t : Type := mk {
  topicId : Z;
  name : string;
  user1Messages : Z;
  user2Messages : Z;
  difference : Z
}.
End CommonTopic.

Definition isMentioned (question username : string) : bool :=
  let lowerUsername := toLowerCase username in
  (includes question lowerUsername
   || includes question (str ["@"; lowerUsername])
   || includes question (str ["@@"; lowerUsername]))%bool.

(** Body of the [messages.forEach] that fills [userTopicMap]. *)
Definition collectUserTopic (m : list (string * list (Z * Z)))
  (message : Message.t) : list (string * list (Z * Z)) :=
  match Message.fromUserName message, realTopic message with
  | Some uname, Some t =>
      if truthy_str uname then
        let m1 := if Map_has String.eqb m uname then m
                  else Map_set String.eqb m uname [] in
        match Map_get String.eqb m1 uname with
        | Some userTopics =>
            Map_set String.eqb m1 uname
              (Map_set Z.eqb userTopics t
                 (count_or_0 (Map_get Z.eqb userTopics t) + 1))
        | None => m1
        end
      else m
  | _, _ => m
  end.

Definition byEntryCount {K : Type} (a b : K * Z) : Z := snd b - snd a.

Definition findCommonTopics (names : TopicNames)
  (user1Topics user2Topics : list (Z * Z)) : list CommonTopic.t :=
  flat_map
    (fun '(topicId, count1) =>
       match Map_get Z.eqb user2Topics topicId with
       | Some count2 =>
           [CommonTopic.mk topicId (getTopicName names topicId) count1 count2
                           (Z.abs (count1 - count2))]
       | None => []
       end)
    user1Topics.

Definition analyzeUserDisagreements (names : TopicNames)
  (messages : list Message.t) (topicsData : list Topic.t)
  (users : list (Z * string)) (question : string) : list string :=
  let usernames := Map_values users in
  let mentionedUsers := filter (isMentioned question) usernames in
  match mentionedUsers with
  | user1 :: user2 :: _ =>
      let userTopicMap := fold_left collectUserTopic messages [] in
      let user1Topics :=
        match Map_get String.eqb userTopicMap user1 with
        | Some m => m | None => [] end in
      let user2Topics :=
        match Map_get String.eqb userTopicMap user2 with
        | Some m => m | None => [] end in
      let commonTopics := findCommonTopics names user1Topics user2Topics in
      match commonTopics with
      | _ :: _ =>
          [str ["Users "; user1; " and "; user2; " both discussed ";
                show_nat (List.length commonTopics); " common topics"]]
          ++ match filter (fun topic => CommonTopic.difference topic >? 2)
                          commonTopics with
             | topDifference :: _ =>
                 [str ["Biggest engagement difference in "; dq;
                       CommonTopic.name topDifference; dq; ": "; user1; " (";
                       show_Z (CommonTopic.user1Messages topDifference);
                       " msgs) vs "; user2; " (";
                       show_Z (CommonTopic.user2Messages topDifference);
                       " msgs)"]]
             | [] => []
             end
          ++ match sort byEntryCount user1Topics, sort byEntryCount user2Topics with
             | user1Focus :: _, user2Focus :: _ =>
                 if negb (fst user1Focus =? fst user2Focus) then
                   [str ["Different focus areas: "; user1;
                         " primarily discusses "; dq;
                         getTopicName names (fst user1Focus); dq; ", "; user2;
                         " focuses on "; dq;
                         getTopicName names (fst user2Focus); dq]]
                 else []
             | _, _ => []
             end
      | [] =>
          [str ["Users "; user1; " and "; user2;
                " have not participated in the same topic discussions"]]
      end
  | _ =>
      [str ["To analyze user disagreements, please specify user names in your question (e.g., ";
            dq; "How do @James_T81 and @joybaruarobin differ?"; dq; ")"]]
  end.

Definition analyzeTrendingTopics (messages : list Message.t)
  (topicsData : list Topic.t) (question : string) : list string :=
  match topicsData with
  | topTopic :: rest =>
      [str ["Most trending topic: "; dq; Topic.name topTopic; dq; " with ";
            show_Z (Topic.messageCount topTopic); " recent messages"];
       str ["Trending engagement: "; show_Z (Topic.contributorCount topTopic);
            " active contributors in this topic"]]
      ++ match rest with
         | secondTopic :: _ =>
             let trendGap :=
               Topic.messageCount topTopic - Topic.messageCount secondTopic in
             [str ["Trend strength: "; dq; Topic.name topTopic; dq;
                   " leads by "; show_Z trendGap; " messages over "; dq;
                   Topic.name secondTopic; dq]]
         | [] => []
         end
  | [] => []
  end.

(** Body of the [messages.forEach] of [analyzeUserEngagement]. *)
Definition collectNameCount (m : list (string * Z)) (message : Message.t)
  : list (string * Z) :=
  match namedUser message with
  | Some (_, uname) =>
      Map_set String.eqb m uname (count_or_0 (Map_get String.eqb m uname) + 1)
  | None => m
  end.

Definition analyzeUserEngagement (messages : list Message.t)
  (topicsData : list Topic.t) (users : list (Z * string)) (question : string)
  : list string :=
  let totalMessages := Z.of_nat (List.length messages) in
  let avgMessagesPerUser :=
    if Map_size users >? 0 then round_div totalMessages (Map_size users)
    else Fin 0 in
  let userMessageCounts := fold_left collectNameCount messages [] in
  let sortedUsers := sort byEntryCount userMessageCounts in
  [str ["Overall engagement: "; show_num avgMessagesPerUser;
        " average messages per user"]]
  ++ match sortedUsers with
     | first :: rest =>
         [str ["Most engaged user: @"; fst first; " with "; show_Z (snd first);
               " messages"]]
         ++ match rest with
            | second :: _ =>
                [str ["Second most engaged: @"; fst second; " with ";
                      show_Z (snd second); " messages"]]
            | [] => []
            end
     | [] => []
     end.

(** [n > k] for a rounded number [n] and an integer [k] *)
Definition num_gtb (n : JSNum) (k : Z) : bool :=
  match n with
  | Fin z => z >? k
  | PosInf => true
  | NegInf => false
  | NaN => false
  end.

Definition analyzeSentimentPatterns (messages : list Message.t)
  (topicsData : list Topic.t) (question : string) : list string :=
  let topicDiversity := Z.of_nat (List.length topicsData) in
  let totalMessages := Z.of_nat (List.length messages) in
  let avgMessagesPerTopic := round_div totalMessages topicDiversity in
  (if topicDiversity >? 5 then
     [str ["High topic diversity ("; show_Z topicDiversity;
           " topics) suggests active, varied discussions"];
      "Community sentiment: Engaged and diverse conversation patterns"]
   else
     [str ["Focused discussions around "; show_Z topicDiversity; " main topics"];
      "Community sentiment: Concentrated engagement on key issues"])
  ++ (if num_gtb avgMessagesPerTopic 10 then
        [str ["High engagement intensity: "; show_num avgMessagesPerTopic;
              " average messages per topic"]]
      else
        [str ["Moderate engagement: "; show_num avgMessagesPerTopic;
              " average messages per topic"]]).

Definition topicLine (label : string) (topic : Topic.t) : string :=
  str [label; dq; Topic.name topic; dq; " - ";
       show_Z (Topic.messageCount topic); " messages from ";
       show_Z (Topic.contributorCount topic); " contributors"].

Definition analyzeConcerns (messages : list Message.t)
  (topicsData : list Topic.t) (question : string) : list string :=
  let concernTopics :=
    filter (fun topic =>
              (includes (Topic.name topic) "Governance"
               || includes (Topic.name topic) "Technical"
               || includes (Topic.name topic) "Security"
               || includes (Topic.name topic) "Audit")%bool)
           topicsData in
  match concernTopics with
  | _ :: _ => map (topicLine "Concern area: ") concernTopics
  | [] => ["No major concern topics identified in current discussions"]
  end.

Definition analyzeProtocolDiscussions (messages : list Message.t)
  (topicsData : list Topic.t) (question : string) : list string :=
  let protocolTopics :=
    filter (fun topic =>
              (includes (Topic.name topic) "DeFi"
               || includes (Topic.name topic) "Protocol"
               || includes (Topic.name topic) "Token")%bool)
           topicsData in
  match protocolTopics with
  | _ :: _ => map (topicLine "Protocol discussion: ") protocolTopics
  | [] => ["Limited protocol-specific discussions in current dataset"]
  end.

(** [m.timestamp], when truthy *)
Definition stamp (message : Message.t) : option Z :=
  match Message.timestamp message with
  | Some ts => if truthy_num ts then Some ts else None
  | None => None
  end.

Definition byTimestamp (a b : Message.t) : Z :=
  count_or_0 (Message.timestamp a) - count_or_0 (Message.timestamp b).

Definition option_Z_eqb (a b : option Z) : bool :=
  match a, b with
  | Some x, Some y => x =? y
  | None, None => true
  | _, _ => false
  end.

Definition analyzeTemporalPatterns (host : Host.t) (messages : list Message.t)
  (topicsData : list Topic.t) (question : string) : list string :=
  let messagesWithTimestamps :=
    sort byTimestamp
         (filter (fun m => match stamp m with Some _ => true | None => false end)
                 messages) in
  match messagesWithTimestamps with
  | earliest :: _ =>
      let latest := last messagesWithTimestamps earliest in
      let date (m : Message.t) :=
        Host.toLocaleDateString host (count_or_0 (Message.timestamp m) * 1000) in
      let n := List.length messagesWithTimestamps in
      let recentMessages := slice_last ((n + 3) / 4)%nat messagesWithTimestamps in
      let recentTopics :=
        fold_left (Set_add option_Z_eqb)
          (filter (fun id => negb (option_Z_eqb id (Some (-1))))
                  (map Message.topicId recentMessages))
          [] in
      [str ["Time range: "; date earliest; " to "; date latest];
       str ["Recent activity: "; show_nat (List.length recentMessages);
            " messages across "; show_nat (List.length recentTopics); " topics"]]
  | [] =>
      [str ["Temporal analysis: "; show_nat (List.length messages);
            " messages available for time-based analysis"]]
  end.

Definition analyzeGeneralQuestion (messages : list Message.t)
  (topicsData : list Topic.t) (users : list (Z * string)) (question : string)
  : list string :=
  [str ["Custom analysis for: "; dq; question; dq];
   str ["Analyzing "; show_nat (List.length messages); " messages across ";
        show_nat (List.length topicsData); " topics from ";
        show_Z (Map_size users); " users"]]
  ++ match topicsData with
     | topTopic :: _ =>
         [str ["Primary topic: "; dq; Topic.name topTopic; dq; " with ";
               show_Z (Topic.messageCount topTopic); " messages from ";
               show_Z (Topic.contributorCount topTopic); " contributors"]]
     | [] => []
     end.

Definition generateCustomQueryInsights (host : Host.t) (names : TopicNames)
  (messages : list Message.t) (topicsData : list Topic.t)
  (users : list (Z * string)) (customQuestion : string) : list string :=
  let question := toLowerCase customQuestion in
  if (includes question "differ"
      && (includes question "opinion" || includes question "disagree"
          || includes question "preferences"))%bool
  then analyzeUserDisagreements names messages topicsData users question
  else if (includes question "trending" || includes question "popular")%bool
  then analyzeTrendingTopics messages topicsData question
  else if (includes question "engaged" || includes question "active")%bool
  then analyzeUserEngagement messages topicsData users question
  else if (includes question "sentiment" || includes question "mood")%bool
  then analyzeSentimentPatterns messages topicsData question
  else if (includes question "concern" || includes question "issue"
           || includes question "problem")%bool
  then analyzeConcerns messages topicsData question
  else if (includes question "defi" || includes question "protocol")%bool
  then analyzeProtocolDiscussions messages topicsData question
  else if (includes question "when" || includes question "time"
           || includes question "recent")%bool
  then analyzeTemporalPatterns host messages topicsData question
  else analyzeGeneralQuestion messages topicsData users question.

(* ================================================================= *)
(** ** Insights *)

(** [topic.contributors.find(c => c.userId === userId)] *)
Definition findContributor (userId : Z) (topic : Topic.t) : option Contributor.t :=
  find (fun c => Contributor.userId c =? userId) (Topic.contributors topic).

(** The messages of one user summed over the topics. *)
Definition userTotalMessages (topicsData : list Topic.t) (userId : Z) : Z :=
  fold_left
    (fun sum topic =>
       sum + match findContributor userId topic with
             | Some contributor => Contributor.messageCount contributor
             | None => 0
             end)
    topicsData 0.

(** The number of topics one user contributed to. *)
Definition userTopicCount (topicsData : list Topic.t) (userId : Z) : nat :=
  List.length
    (filter (fun topic =>
               existsb (fun c => Contributor.userId c =? userId)
                       (Topic.contributors topic))
            topicsData).

Definition mostActiveInsight (topicsData : list Topic.t)
  (topContributor : Contributor.t) : string :=
  str ["Most active contributor: "; Contributor.username topContributor; " (";
       show_Z (userTotalMessages topicsData (Contributor.userId topContributor));
       " messages across ";
       show_nat (userTopicCount topicsData (Contributor.userId topContributor));
       " topics)"].

Definition querySpecificInsights (host : Host.t) (names : TopicNames)
  (messages : list Message.t) (topicsData : list Topic.t)
  (users : list (Z * string)) (queryData : QueryData.t) : list string :=
  let type := QueryData.type queryData in
  let selected := List.length (QueryData.users queryData) in
  if String.eqb type "user_analysis" then
    if Nat.eqb selected 1
    then ["Analysis focused on single user behavior and topic preferences"]
    else []
  else if String.eqb type "users_analysis" then
    if Nat.ltb 1 selected
    then [str ["Comparative analysis across "; show_nat selected;
               " selected users"]]
    else []
  else if String.eqb type "time_window" then
    ["Time-based analysis showing topic trends and activity patterns"]
  else if String.eqb type "version_evolution" then
    ["Evolution analysis tracking topic changes over time"]
  else if String.eqb type "custom_query" then
    match QueryData.customQuestion queryData with
    | Some q =>
        if truthy_str q then
          str ["Custom analysis for question: "; dq; q; dq]
          :: generateCustomQueryInsights host names messages topicsData users q
        else ["Custom query selected but no question provided"]
    | None => ["Custom query selected but no question provided"]
    end
  else [].

Definition generateInsights (host : Host.t) (names : TopicNames)
  (messages : list Message.t) (topicsData : list Topic.t)
  (users : list (Z * string)) (queryData : QueryData.t) : list string :=
  match topicsData with
  | [] => ["No topics identified in the conversation data"]
  | topTopic :: _ =>
      let messageCount := Z.of_nat (List.length messages) in
      let topicCount := Z.of_nat (List.length topicsData) in
      [str ["Most discussed: "; dq; Topic.name topTopic; dq; " with ";
            show_Z (Topic.messageCount topTopic); " messages from ";
            show_Z (Topic.contributorCount topTopic); " contributors"];
       str [show_Z topicCount;
            " distinct topics identified across all conversations"];
       str [show_Z (Map_size users);
            " users actively participating with an average of ";
            show_num (round_div messageCount (Map_size users));
            " messages each"];
       str ["Topic engagement: Average ";
            show_num (round_div messageCount topicCount);
            " messages per topic"]]
      ++ match Topic.contributors topTopic with
         | topContributor :: _ => [mostActiveInsight topicsData topContributor]
         | [] => []
         end
      ++ querySpecificInsights host names messages topicsData users queryData
  end.

(* ================================================================= *)
(** ** processTreeLocally *)

Definition sum_sizes (userTopics : list (Z * list Z)) : Z :=
  fold_left (fun sum topics => sum + Z.of_nat (List.length topics))
            (Map_values userTopics) 0.

Definition mkMetadata (host : Host.t) (queryData : QueryData.t) (version : Z)
  : Metadata.t :=
  Metadata.mk version (Host.nowISO host) (QueryData.type queryData) "local" false.

(** The [data] object of the result. *)
Definition buildData (messages : list Message.t) (uacc : UserAcc.t)
  (topicsData : list Topic.t) : Data.t :=
  let users := UserAcc.users uacc in
  let messageCount := Z.of_nat (List.length messages) in
  Data.mk messageCount
          (Z.of_nat (List.length topicsData))
          (Map_size users)
          topicsData
          (slice_to 5 topicsData)
          (hd_error topicsData)
          (Engagement.mk
             (if Map_size users >? 0
              then round_div messageCount (Map_size users) else Fin 0)
             (if Map_size users >? 0
              then round_div (sum_sizes (UserAcc.userTopics uacc)) (Map_size users)
              else Fin 0)).

(** The part of [processTreeLocally] behind the user filter: the two
    passes over the messages, the topic list, the insights, the result. *)
Definition processMessages (host : Host.t) (names : TopicNames)
  (messages : list Message.t) (queryData : QueryData.t) (version : Z)
  : Result.t :=
  let uacc := fold_left collectUser messages UserAcc.empty in
  let tacc := fold_left collectTopic messages TopicAcc.empty in
  let users := UserAcc.users uacc in
  let topicsData := buildTopics names users tacc in
  let insights := generateInsights host names messages topicsData users queryData in
  Result.mk
    (str ["Users discussing "; show_nat (List.length topicsData);
          " topics with "; show_nat (List.length messages); " total messages"])
    (FullData (buildData messages uacc topicsData))
    insights
    (mkMetadata host queryData version).

Definition noData (host : Host.t) (queryData : QueryData.t) (version : Z)
  : Result.t :=
  Result.mk "No data available for processing" EmptyData
            ["No messages found in the tree data"]
            (mkMetadata host queryData version).

(** The function returns the result; the second component is
    [this.topicNames] as the call leaves it. *)
Definition processTreeLocally (host : Host.t) (names : TopicNames)
  (treeData : option RawTree.t) (queryData : QueryData.t) (version : Z)
  : Result.t * TopicNames :=
  match treeData with
  | None => (noData host queryData version, names)
  | Some tree =>
      match RawTree.messages tree with
      | None => (noData host queryData version, names)
      | Some all =>
          let names' := extractTopicNames names tree in
          let messages := filterMessages (QueryData.users queryData) all in
          (processMessages host names' messages queryData version, names')
      end
  end.

(* ================================================================= *)
(** ** Version delta *)

Module ChangedTopic.
Record t : Type := mk {
  topic : Topic.t;
  change : Z;
  changePercent : JSNum;
  previousCount : Z
}.
End ChangedTopic.

Module Delta.
Record t : Type := mk {
  newTopics : list Topic.t;
  removedTopics : list Topic.t;
  changedTopics : list ChangedTopic.t
}.
End Delta.

Definition topicMap (topics : list Topic.t) : list (Z * Topic.t) :=
  Map_of Z.eqb (map (fun t => (Topic.id t, t)) topics).

Definition deltaOfTopics (first second : list Topic.t) : Delta.t :=
  let firstTopics := topicMap first in
  let secondTopics := topicMap second in
  let newTopics :=
    flat_map (fun '(id, topic) =>
                if negb (Map_has Z.eqb firstTopics id) then [topic] else [])
             secondTopics in
  let removedTopics :=
    flat_map (fun '(id, topic) =>
                if negb (Map_has Z.eqb secondTopics id) then [topic] else [])
             firstTopics in
  let changedTopics :=
    flat_map
      (fun '(id, firstTopic) =>
         match Map_get Z.eqb secondTopics id with
         | Some secondTopic =>
             if negb (Topic.messageCount firstTopic
                      =? Topic.messageCount secondTopic)
             then
               let change :=
                 Topic.messageCount secondTopic - Topic.messageCount firstTopic in
               [ChangedTopic.mk secondTopic change
                  (round_percent change (Topic.messageCount firstTopic))
                  (Topic.messageCount firstTopic)]
             else []
         | None => []
         end)
      firstTopics in
  Delta.mk newTopics removedTopics changedTopics.

(** The three lists [generateDeltaAnalysis] computes before it renders
    them.  Reading [data.topics] of a result whose [data] is [{}] yields
    [undefined], and the call of [map] on it throws: [None]. *)
Definition generateDeltaAnalysis (firstResults secondResults : Result.t)
  : option Delta.t :=
  match Result.data firstResults, Result.data secondResults with
  | FullData d1, FullData d2 =>
      Some (deltaOfTopics (Data.topics d1) (Data.topics d2))
  | _, _ => None
  end.

(* ================================================================= *)
(** ** Notions used to state the properties *)

(** The defined values of [f] over a list, in order. *)
Definition keep {A B : Type} (f : A -> option B) (l : list A) : list B :=
  flat_map (fun a => match f a with Some b => [b] | None => [] end) l.

(** The distinct values of a list in the order of their first occurrence. *)
Fixpoint first_seen (l : list Z) : list Z :=
  match l with
  | [] => []
  | x :: l' => x :: filter (fun y => negb (y =? x)) (first_seen l')
  end.

(** The number of distinct values of a list. *)
Definition distinct (l : list Z) : Z := Z.of_nat (List.length (nodup Z.eq_dec l)).

Definition occurrences (x : Z) (l : list Z) : Z := Z.of_nat (count_occ Z.eq_dec l x).

(** An occurrence of [x] lies before an occurrence of [y]. *)
Inductive before {A : Type} (x y : A) : list A -> Prop :=
| before_here (l : list A) : In y l -> before x y (x :: l)
| before_skip (a : A) (l : list A) : before x y l -> before x y (a :: l).

(** [x] is met in [l] before [y] is met for the first time. *)
Definition met_before (x y : Z) (l : list Z) : Prop :=
  exists l1 l2, l = l1 ++ x :: l2 /\ ~ In x l1 /\ ~ In y l1 /\ x <> y /\ In y l2.

(** The map that holds [f k] under each key of [ks]. *)
Definition tab {V : Type} (f : Z -> V) (ks : list Z) : list (Z * V) :=
  map (fun k => (k, f k)) ks.

(** Topic ids of the messages that carry a real one, in message order. *)
Definition topicIds (messages : list Message.t) : list Z := keep realTopic messages.

Definition inTopic (t : Z) (message : Message.t) : bool :=
  match realTopic message with Some t' => t' =? t | None => false end.

(** User ids (truthy) of the messages of topic [t], in message order. *)
Definition topicUserIds (t : Z) (messages : list Message.t) : list Z :=
  keep anyUser (filter (inTopic t) messages).

(** User ids of the messages that carry both a truthy id and a truthy
    name, in message order. *)
Definition namedUserIds (messages : list Message.t) : list Z :=
  map fst (keep namedUser messages).

(** All [fromUserId] values that are present. *)
Definition fromUserIds (messages : list Message.t) : list Z :=
  keep Message.fromUserId messages.

(** What the second pass over the messages has to compute: per topic the
    number of its messages, and per topic and user the number of the
    user's messages in the topic, both in the order of first appearance. *)
Definition countsOf (messages : list Message.t) : list (Z * Z) :=
  tab (fun t => occurrences t (topicIds messages)) (first_seen (topicIds messages)).

Definition userCountsOf (t : Z) (messages : list Message.t) : list (Z * Z) :=
  tab (fun u => occurrences u (topicUserIds t messages))
      (first_seen (topicUserIds t messages)).

Definition topicUsersOf (messages : list Message.t) : list (Z * list (Z * Z)) :=
  tab (fun t => userCountsOf t messages) (first_seen (topicIds messages)).

(** The topic entry that is due to topic [t]. *)
Definition topicOf (names : TopicNames) (users : list (Z * string))
  (messages : list Message.t) (t : Z) : Topic.t :=
  let contributors := buildContributors users (userCountsOf t messages) in
  Topic.mk t (getTopicName names t) (occurrences t (topicIds messages))
           (Z.of_nat (List.length contributors)) contributors.

(** The user map the first pass leaves behind. *)
Definition usersOf (messages : list Message.t) : list (Z * string) :=
  UserAcc.users (fold_left collectUser messages UserAcc.empty).

(** The filtered messages and the name cache [processTreeLocally] works
    with. *)
Definition selected (queryData : QueryData.t) (all : list Message.t)
  : list Message.t :=
  filterMessages (QueryData.users queryData) all.

Definition descending {A : Type} (key : A -> Z) (l : list A) : Prop :=
  StronglySorted (fun a b => key b <= key a) l.

(* ================================================================= *)
(** ** Sample inputs *)

Definition sampleHost : Host.t :=
  Host.mk "2025-09-12T10:00:00.000Z" (fun ms => str ["date("; show_Z ms; ")"]).

Definition channelQuery : QueryData.t := QueryData.mk "channel_query" [] None.

Definition message (uid : option Z) (uname : option string) (topic : option Z)
  : Message.t :=
  Message.mk uid uname topic None.

Definition treeOf (messages : list Message.t) : RawTree.t :=
  RawTree.mk (Some messages) None.

(** One message of user 7 in topic 1 that carries no user name. *)
Definition namelessTree : RawTree.t := treeOf [message (Some 7) None (Some 1)].

(** Alice and Bob in topic 0, then one message each in topics 1 and 2. *)
Definition tiedMessages : list Message.t :=
  [ message (Some 1) (Some "alice") (Some 0);
    message (Some 2) (Some "bob") (Some 0);
    message (Some 1) (Some "alice") (Some 1);
    message (Some 2) (Some "bob") (Some 2) ].

(** User 7 writes twice in topic 1, the second time without a name. *)
Definition halfNamedMessages : list Message.t :=
  [ message (Some 7) (Some "alice") (Some 1);
    message (Some 7) None (Some 1) ].

(** Alice writes 4 messages in topic 1 and 10 in topic 2, Bob one in each. *)
Definition unevenMessages : list Message.t :=
  repeat (message (Some 1) (Some "alice") (Some 1)) 4
  ++ repeat (message (Some 1) (Some "alice") (Some 2)) 10
  ++ [ message (Some 2) (Some "bob") (Some 1);
       message (Some 2) (Some "bob") (Some 2) ].

Definition differQuery : QueryData.t :=
  QueryData.mk "custom_query" []
               (Some "How do alice and bob differ in topic preferences?").

(** Alice leads topic 0; Bob writes more than her over all topics. *)
Definition spreadMessages : list Message.t :=
  [ message (Some 1) (Some "alice") (Some 0);
    message (Some 1) (Some "alice") (Some 0);
    message (Some 2) (Some "bob") (Some 0);
    message (Some 2) (Some "bob") (Some 1);
    message (Some 2) (Some "bob") (Some 1);
    message (Some 2) (Some "bob") (Some 2);
    message (Some 2) (Some "bob") (Some 2) ].

(** A message in topic 3 that carries no user id. *)
Definition anonymousMessages : list Message.t := [ message None None (Some 3) ].

Definition sumZ (l : list Z) : Z := fold_right Z.add 0 l.

(** The messages sent under the (truthy) user id [u]. *)
Definition userMessages (u : Z) (messages : list Message.t) : list Message.t :=
  filter (fun m => match anyUser m with Some u' => u' =? u | None => false end)
         messages.

(** An earlier version with topics 0 and 1, and a later one that adds one
    message in topic 42. *)
Definition earlierMessages : list Message.t :=
  [ message (Some 1) (Some "alice") (Some 0);
    message (Some 2) (Some "bob") (Some 1) ].

Definition newcomer : Message.t := message (Some 2) (Some "bob") (Some 42).

Definition laterMessages : list Message.t := earlierMessages ++ [newcomer].

(** Two name caches that answer every lookup alike. *)
Definition names_agree (n1 n2 : TopicNames) : Prop :=
  forall k, Map_get Z.eqb n1 k = Map_get Z.eqb n2 k.

(** The name an entry of [treeData.topics] brings, if any. *)
Definition entryName (entry : Z * option TopicDef.t) : option (Z * string) :=
  let '(topicId, topicData) := entry in
  match topicData with
  | None => None
  | Some td =>
      match TopicDef.name td with
      | Some n =>
          if truthy_str n then Some (topicId, n)
          else match TopicDef.title td with
               | Some ti => if truthy_str ti then Some (topicId, ti) else None
               | None => None
               end
      | None =>
          match TopicDef.title td with
          | Some ti => if truthy_str ti then Some (topicId, ti) else None
          | None => None
          end
      end
  end.

(** The last name the entries bring for [k], or [base]. *)
Definition lastName (entries : list (Z * option TopicDef.t)) (k : Z)
  (base : option string) : option string :=
  fold_left
    (fun acc e =>
       match entryName e with
       | Some (k', n) => if k' =? k then Some n else acc
       | None => acc
       end)
    entries base.

(** The host at a later reading of the clock. *)
Definition later_host (host : Host.t) (now : string) : Host.t :=
  Host.mk now (Host.toLocaleDateString host).

(* ================================================================= *)
(** * The interface around the pipeline

    The functions of [TopicTreeInterface] that load versions and users,
    build the query from the page, run it against the selected versions
    and lay the results side by side.

    - The answer of a service is an input of the function that awaits it:
      what the query service returns or throws, and the text of the
      completion service, if it gave one.
    - Of the page the functions see the state of its check boxes and
      selects; a click changes a box that is not disabled and runs its
      listener.
    - The functions return what they write into the page as data; the
      markup around it is left out. *)

(* ================================================================= *)
(** ** Calls to the services *)

(** What a call either returns or throws. *)
Inductive Outcome (A : Type) : Type :=
| Returned (a : A)
| Thrown (message : string).

Arguments Returned {A} a.
Arguments Thrown {A} message.

(** The answer of the query service, as far as the interface reads it.
    Beside [tree] stand the properties of the tree that only
    [formatRawApiResponse] reads: [tree.createdAt], the number of keys of
    [tree.conversationThreads], the length of [tree.rootMessageIds]; and
    the three properties read from [metadata]. *)
Module ApiResponse.
Record t : Type := mk {
  channelId : option Z;
  version : option Z;
  tree : option RawTree.t;
  createdAt : option string;
  conversationThreads : option nat;
  rootMessageIds : option nat;
  executedAt : option string;
  operationName : option string;
  raftId : option string
}.
End ApiResponse.

(** The query object as [buildQueryData] builds it: the three properties
    [processTreeLocally] reads, and the others. *)
Module FullQuery.
Record t : Type := mk {
  query : QueryData.t;
  dataset : option string;
  versions : list Z;
  timestamp : string
}.
End FullQuery.

Module RawResponse.
Record t : Type := mk {
  endpoint : string;
  url : string;
  channelIdParameter : option Z;
  versionParameter : Z;
  timestamp : string;
  status : string;
  channelId : option Z;
  version : option Z;
  createdAt : option string;
  messageCount : Z;
  topicCount : Z;
  conversationThreads : Z;
  rootMessageIds : Z;
  processingTime : string;
  operation : string;
  raftId : string
}.
End RawResponse.

(** A result as [executeQueryAgainstVersion] returns it.
    [enhancementMethod] is the property of that name of [metadata]. *)
Module VersionedResult.
Record t : Type := mk {
  summary : string;
  data : ResultData;
  insights : list string;
  metadata : Metadata.t;
  enhancementMethod : option string;
  aiSummary : option string;
  rawResponse : RawResponse.t;
  version : Z
}.
End VersionedResult.

Definition baseUrl : string :=
  "https://compute-1.testnet.cere.network/engine/data-service/2606/query".

(** [value || 'N/A'] *)
Definition or_NA (value : option string) : string :=
  match value with
  | Some s => if truthy_str s then s else "N/A"
  | None => "N/A"
  end.

Definition keyCount {A : Type} (mapping : option (list A)) : Z :=
  match mapping with
  | Some entries => Z.of_nat (List.length entries)
  | None => 0
  end.

Definition formatRawApiResponse (now : string) (apiResponse : ApiResponse.t)
  (endpoint : string) (channelIdParameter : option Z) (versionParameter : Z)
  : RawResponse.t :=
  let tree := ApiResponse.tree apiResponse in
  let messageCount :=
    match tree with Some t => keyCount (RawTree.messages t) | None => 0 end in
  let topicCount :=
    match tree with Some t => keyCount (RawTree.topics t) | None => 0 end in
  RawResponse.mk endpoint (str [baseUrl; "/"; endpoint])
    channelIdParameter versionParameter now
    "success" (ApiResponse.channelId apiResponse) (ApiResponse.version apiResponse)
    (ApiResponse.createdAt apiResponse)
    messageCount topicCount
    (match ApiResponse.conversationThreads apiResponse with
     | Some n => Z.of_nat n | None => 0 end)
    (match ApiResponse.rootMessageIds apiResponse with
     | Some n => Z.of_nat n | None => 0 end)
    (or_NA (ApiResponse.executedAt apiResponse))
    (or_NA (ApiResponse.operationName apiResponse))
    (or_NA (ApiResponse.raftId apiResponse)).

(** [s.trim()], on ASCII blanks *)
Fixpoint trimEnd (s : string) : string :=
  match s with
  | EmptyString => EmptyString
  | String c s' =>
      match trimEnd s' with
      | EmptyString => if is_blank c then EmptyString else String c EmptyString
      | rest => String c rest
      end
  end.

Definition trim (s : string) : string := trimEnd (trimStart s).

(** [enhanceWithOpenAI], given what the completion service answers:
    [ai] is the text of the first choice, or [None] when the request
    fails, the status is not ok or the answer is malformed.  The prompt is
    built first and reads [localResults.data.topics.map], which throws on
    the empty data object.  [None] is the rejected promise. *)
Definition enhanceWithOpenAI (localResults : Result.t) (customQuestion : string)
  (ai : option string)
  : option (Result.t * option string * option string) :=
  match Result.data localResults with
  | EmptyData => None
  | FullData _ =>
      match ai with
      | None => None
      | Some aiInsights =>
          let metadata := Result.metadata localResults in
          Some (Result.mk
                  (Result.summary localResults)
                  (Result.data localResults)
                  (str ["🤖 AI-Enhanced Analysis for: "; dq; customQuestion; dq]
                   :: "📊 Local Analysis:"
                   :: Result.insights localResults)
                  (Metadata.mk (Metadata.version metadata)
                               (Metadata.timestamp metadata)
                               (Metadata.queryType metadata)
                               (Metadata.processingMethod metadata)
                               true),
                Some "openai-gpt4",
                Some (trim aiInsights))
      end
  end.

(** The local result with its raw response and version. *)
Definition withRaw (r : Result.t) (enhancementMethod aiSummary : option string)
  (raw : RawResponse.t) (version : Z) : VersionedResult.t :=
  VersionedResult.mk (Result.summary r) (Result.data r) (Result.insights r)
                     (Result.metadata r) enhancementMethod aiSummary raw version.

(** [executeQueryAgainstVersion], given the outcome [api] of the call of
    the query service and the answer [ai] of the completion service.
    [rawNow] is the clock when the raw response is formatted. *)
Definition executeQueryAgainstVersion (host : Host.t) (rawNow : string)
  (names : TopicNames) (openaiEnabled : bool)
  (api : Outcome (option ApiResponse.t)) (ai : option string)
  (queryData : FullQuery.t) (version : Z)
  : Outcome VersionedResult.t * TopicNames :=
  let endpoint := "get_topic_tree_by_channel_and_version" in
  let channelId :=
    match FullQuery.dataset queryData with
    | Some s => parseInt s
    | None => None
    end in
  match api with
  | Thrown e => (Thrown e, names)
  | Returned None => (Thrown "Invalid API response structure", names)
  | Returned (Some apiResponse) =>
      match ApiResponse.tree apiResponse with
      | None => (Thrown "Invalid API response structure", names)
      | Some tree =>
          let q := FullQuery.query queryData in
          let '(processedResults, names') :=
            processTreeLocally host names (Some tree) q version in
          let raw := formatRawApiResponse rawNow apiResponse endpoint
                                          channelId version in
          let local := withRaw processedResults None None raw version in
          if (openaiEnabled && String.eqb (QueryData.type q) "custom_query")%bool
          then
            match QueryData.customQuestion q with
            | Some question =>
                if truthy_str question then
                  match enhanceWithOpenAI processedResults question ai with
                  | Some (enhanced, method, aiSummary) =>
                      (Returned (withRaw enhanced method aiSummary raw version),
                       names')
                  | None => (Returned local, names')
                  end
                else (Returned local, names')
            | None => (Returned local, names')
            end
          else (Returned local, names')
      end
  end.

(* ================================================================= *)
(** ** Several versions side by side *)

Definition byResultVersion (a b : VersionedResult.t) : Z :=
  VersionedResult.version a - VersionedResult.version b.

(** [`${result.data.count}`]: the count, or [undefined] on the empty
    data object. *)
Definition countText (count : Data.t -> Z) (data : ResultData) : string :=
  match data with
  | FullData d => show_Z (count d)
  | EmptyData => "undefined"
  end.

(** [last.data.count - first.data.count] *)
Definition countDiff (count : Data.t -> Z) (first last : ResultData) : JSNum :=
  match first, last with
  | FullData d1, FullData d2 => Fin (count d2 - count d1)
  | _, _ => NaN
  end.

(** [`${diff >= 0 ? '+' : ''}${diff}`] *)
Definition signed (diff : JSNum) : string :=
  match diff with
  | Fin z => if 0 <=? z then str ["+"; show_Z z] else show_Z z
  | PosInf => "+Infinity"
  | NegInf => "-Infinity"
  | NaN => "NaN"
  end.

Module VersionRow.
Record t : Type := mk {
  style : string;
  label : string;
  messages : string;
  topics : string;
  users : string;
  mostDiscussed : string
}.
End VersionRow.

Definition mostDiscussedName (data : ResultData) : string :=
  match data with
  | FullData d => or_NA (option_map Topic.name (Data.mostDiscussedTopic d))
  | EmptyData => "N/A"
  end.

Definition versionRow (count index : nat) (result : VersionedResult.t)
  : VersionRow.t :=
  let isFirst := Nat.eqb index 0 in
  let isLast := Nat.eqb index (count - 1) in
  let data := VersionedResult.data result in
  VersionRow.mk
    (if isFirst then "background: #fef2f2;"
     else if isLast then "background: #f0fdf4;" else "background: white;")
    (str [show_Z (VersionedResult.version result);
          if isFirst then " (earliest)" else if isLast then " (latest)"
          else EmptyString])
    (countText Data.messageCount data)
    (countText Data.topicCount data)
    (countText Data.activeUsers data)
    (mostDiscussedName data).

Fixpoint versionRows (count index : nat) (results : list VersionedResult.t)
  : list VersionRow.t :=
  match results with
  | [] => []
  | r :: rest => versionRow count index r :: versionRows count (S index) rest
  end.

Module MultiDelta.
Record t : Type := mk {
  header : string;
  rows : list VersionRow.t;
  messageDiff : string;
  topicDiff : string;
  userDiff : string
}.
End MultiDelta.

Inductive MultiVersionDelta : Type :=
| TooFewVersions
| Comparison (table : MultiDelta.t).

(** What [generateMultiVersionDelta] computes and then renders:
    [TooFewVersions] stands for the paragraph "Need at least 2 versions
    for comparison".  The sorted list of two results or more is not
    empty, so that its first element exists. *)
Definition generateMultiVersionDelta (results : list VersionedResult.t)
  : MultiVersionDelta :=
  if Nat.ltb (List.length results) 2 then TooFewVersions
  else
    let sortedResults := sort byResultVersion results in
    match sortedResults with
    | [] => TooFewVersions
    | firstVersion :: _ =>
        let lastVersion := last sortedResults firstVersion in
        let diff (count : Data.t -> Z) :=
          signed (countDiff count (VersionedResult.data firstVersion)
                                  (VersionedResult.data lastVersion)) in
        Comparison
          (MultiDelta.mk
             (str ["Comparing "; show_nat (List.length sortedResults);
                   " versions: ";
                   String.concat " → "
                     (map (fun r => show_Z (VersionedResult.version r))
                          sortedResults)])
             (versionRows (List.length sortedResults) 0 sortedResults)
             (diff Data.messageCount) (diff Data.topicCount)
             (diff Data.activeUsers))
    end.

(* ================================================================= *)
(** ** The state of the form *)

Module VersionInfo.
Record t : Type := mk {
  version : Z;
  createdAt : option string;
  messageCount : option Z;
  topicCount : option Z
}.
End VersionInfo.

Definition byVersion (a b : VersionInfo.t) : Z :=
  VersionInfo.version a - VersionInfo.version b.

(** The fields of the interface object that the loaders and the query
    builder read and write. *)
Module UiState.
Record t : Type := mk {
  selectedChannel : option string;
  selectedVersions : list (option Z);
  availableVersions : list VersionInfo.t;
  availableUsers : list (Z * string);
  resultsCache : list (option VersionedResult.t)
}.
End UiState.

Definition resetUI (st : UiState.t) : UiState.t :=
  UiState.mk None [None; None; None] [] [] [None; None; None].

(** Body of the [forEach] of [loadUsers]. *)
Definition collectAvailableUser (users : list (Z * string)) (message : Message.t)
  : list (Z * string) :=
  match namedUser message with
  | Some (uid, uname) => Map_set Z.eqb users uid uname
  | None => users
  end.

(** [loadUsers], given the outcome of its call of the query service; a
    thrown error is caught and logged. *)
Definition loadUsers (st : UiState.t) (response : Outcome (option ApiResponse.t))
  : UiState.t :=
  match response with
  | Returned (Some r) =>
      match ApiResponse.tree r with
      | Some tree =>
          match RawTree.messages tree with
          | Some all =>
              UiState.mk (UiState.selectedChannel st)
                         (UiState.selectedVersions st)
                         (UiState.availableVersions st)
                         (fold_left collectAvailableUser all [])
                         (UiState.resultsCache st)
          | None => st
          end
      | None => st
      end
  | Returned None => st
  | Thrown _ => st
  end.

(** The value of the check box [loadUsers] renders for a user. *)
Definition checkboxValue (user : Z * string) : string := show_Z (fst user).

(** [a[0] = v] *)
Definition setFirst {A : Type} (a : list A) (v : A) : list A :=
  match a with
  | _ :: rest => v :: rest
  | [] => [v]
  end.

(** [loadVersions], given the outcomes of the two calls of the query
    service: [versions] is [response.versions], [None] when the response
    or that property is missing.  A thrown error is caught and shown. *)
Definition loadVersions (st : UiState.t)
  (versions : Outcome (option (list VersionInfo.t)))
  (users : Outcome (option ApiResponse.t)) : UiState.t :=
  match versions with
  | Returned (Some listed) =>
      let sorted := sort byVersion listed in
      let selected :=
        match sorted with
        | first :: _ =>
            setFirst (UiState.selectedVersions st)
                     (Some (VersionInfo.version (last sorted first)))
        | [] => UiState.selectedVersions st
        end in
      loadUsers (UiState.mk (UiState.selectedChannel st) selected sorted
                            (UiState.availableUsers st) (UiState.resultsCache st))
                users
  | Returned None => st
  | Thrown _ => st
  end.



(** What [buildQueryData] reads from the page; a missing "All Users"
    check box counts as not checked. *)
Module Form.
Record t : Type := mk {
  queryType : string;
  allUsersChecked : bool;
  checkedUsers : list string;
  customQuery : option string
}.
End Form.

Definition buildQueryData (st : UiState.t) (form : Form.t) (now : string)
  : FullQuery.t :=
  let queryType := Form.queryType form in
  let selectedUsers :=
    if Form.allUsersChecked form then [] else Form.checkedUsers form in
  let selectedVersions := keep (fun v => v) (UiState.selectedVersions st) in
  let customQuery :=
    if String.eqb queryType "custom_query"
    then option_map trim (Form.customQuery form)
    else Some EmptyString in
  FullQuery.mk (QueryData.mk queryType selectedUsers customQuery)
               (UiState.selectedChannel st) selectedVersions now.

(* ================================================================= *)
(** ** The check boxes of the user filter *)

(** A user check box as [loadUsers] renders it and the listeners of
    [setupUserCheckboxListeners] change it. *)
Module Box.
Record t : Type := mk {
  value : string;
  checked : bool;
  disabled : bool
}.
End Box.

(** The "All Users" check box and the user check boxes, in document
    order. *)
Module Boxes.
Record t : Type := mk {
  allUsers : bool;
  users : list Box.t
}.
End Boxes.

(** The check boxes [loadUsers] writes into the page: "All Users"
    checked, one unchecked box per available user. *)
Definition renderUserBoxes (users : list (Z * string)) : Boxes.t :=
  Boxes.mk true (map (fun user => Box.mk (checkboxValue user) false false) users).

(** The listener of "All Users"; the box has its new state when the
    listener runs. *)
Definition onAllUsersChange (boxes : Boxes.t) : Boxes.t :=
  let isChecked := Boxes.allUsers boxes in
  Boxes.mk isChecked
           (map (fun checkbox => Box.mk (Box.value checkbox) false isChecked)
                (Boxes.users boxes)).

(** The listener of the user check box at [target]. *)
Definition onUserChange (target : nat) (boxes : Boxes.t) : Boxes.t :=
  let targetChecked :=
    match nth_error (Boxes.users boxes) target with
    | Some checkbox => Box.checked checkbox
    | None => false
    end in
  let allUsers := if targetChecked then false else Boxes.allUsers boxes in
  let anyChecked := existsb Box.checked (Boxes.users boxes) in
  if negb anyChecked then
    Boxes.mk true
             (map (fun cb => Box.mk (Box.value cb) (Box.checked cb) true)
                  (Boxes.users boxes))
  else Boxes.mk allUsers (Boxes.users boxes).

(** What the browser does on a click: a box that is not disabled changes
    its state and its listener runs; a disabled box ignores the click.
    "All Users" is never disabled. *)
Inductive Click : Type :=
| ClickAllUsers
| ClickUser (target : nat).

Fixpoint toggle (target : nat) (boxes : list Box.t) : list Box.t :=
  match boxes, target with
  | [], _ => []
  | cb :: rest, O =>
      Box.mk (Box.value cb) (negb (Box.checked cb)) (Box.disabled cb) :: rest
  | cb :: rest, S target' => cb :: toggle target' rest
  end.

Definition click (boxes : Boxes.t) (c : Click) : Boxes.t :=
  match c with
  | ClickAllUsers =>
      onAllUsersChange (Boxes.mk (negb (Boxes.allUsers boxes)) (Boxes.users boxes))
  | ClickUser target =>
      match nth_error (Boxes.users boxes) target with
      | Some checkbox =>
          if Box.disabled checkbox then boxes
          else onUserChange target
                 (Boxes.mk (Boxes.allUsers boxes) (toggle target (Boxes.users boxes)))
      | None => boxes
      end
  end.

(** What [buildQueryData] reads from the page with these check boxes. *)
Definition formOf (queryType : string) (customQuery : option string)
  (boxes : Boxes.t) : Form.t :=
  Form.mk queryType (Boxes.allUsers boxes)
          (map Box.value (filter Box.checked (Boxes.users boxes)))
          customQuery.

(* ================================================================= *)
(** ** The selected versions and the columns of their results *)

(** [a[i] = v] on an array of nullable entries; the entries a write
    behind the end skips stay empty. *)
Fixpoint array_set {A : Type} (a : list (option A)) (i : nat) (v : option A)
  : list (option A) :=
  match i, a with
  | O, [] => [v]
  | O, _ :: rest => v :: rest
  | S i', [] => None :: array_set [] i' v
  | S i', x :: rest => x :: array_set rest i' v
  end.

(** The listeners of the three version selects:
    [this.selectedVersions[slot] = parseInt(e.target.value) || null]. *)
Definition selectVersion (st : UiState.t) (slot : nat) (value : string)
  : UiState.t :=
  let chosen :=
    match parseInt value with
    | Some z => if truthy_num z then Some z else None
    | None => None
    end in
  UiState.mk (UiState.selectedChannel st)
             (array_set (UiState.selectedVersions st) slot chosen)
             (UiState.availableVersions st) (UiState.availableUsers st)
             (UiState.resultsCache st).

(** [this.selectedVersions.filter(v => v !== null)] *)
Definition activeVersions (st : UiState.t) : list Z :=
  keep (fun v => v) (UiState.selectedVersions st).

(** [`${this.selectedVersions[i]}`] *)
Definition slotText (selectedVersions : list (option Z)) (i : nat) : string :=
  match nth_error selectedVersions i with
  | Some (Some v) => show_Z v
  | Some None => "null"
  | None => "undefined"
  end.

(** What [displayMultiVersionResults] shows: per column its title and
    the result displayed in it, [None] for a hidden column; and the
    comparison, when the tab is shown. *)
Module Display.
Record t : Type := mk {
  columns : list (option (string * VersionedResult.t));
  delta : option MultiVersionDelta
}.
End Display.

Definition versionColumn (st : UiState.t)
  (results : list (option VersionedResult.t)) (i : nat)
  : option (string * VersionedResult.t) :=
  if Nat.ltb i (List.length (activeVersions st)) then
    match nth_error results i with
    | Some (Some r) =>
        Some (str ["Version "; slotText (UiState.selectedVersions st) i], r)
    | _ => None
    end
  else None.

Definition displayMultiVersionResults (st : UiState.t)
  (results : list (option VersionedResult.t)) : Display.t :=
  Display.mk
    (map (versionColumn st results) [0; 1; 2]%nat)
    (if Nat.ltb 1 (List.length (activeVersions st))
     then Some (generateMultiVersionDelta (keep (fun r => r) results))
     else None).

(** The callbacks of [executeMultiVersionQuery], once every promise is
    settled: the result of the query at [index] is stored at [index].
    The callbacks write different entries, so that the order in which
    they run does not matter. *)
Definition storeResults (outcomes : list (Outcome VersionedResult.t))
  : list (option VersionedResult.t) :=
  fold_left
    (fun cache entry =>
       match snd entry with
       | Returned results => array_set cache (fst entry) (Some results)
       | Thrown _ => cache
       end)
    (combine (seq 0 (List.length outcomes)) outcomes)
    [None; None; None].

Definition returned {A : Type} (outcome : Outcome A) : bool :=
  match outcome with Returned _ => true | Thrown _ => false end.

(** [executeMultiVersionQuery], given the outcome [run index version] of
    the query for the selected version at [index]: the cache as the
    queries leave it, and what is displayed, which is nothing when a
    query threw. *)
Definition executeMultiVersionQuery (st : UiState.t)
  (run : nat -> Z -> Outcome VersionedResult.t)
  : UiState.t * option Display.t :=
  let selectedVersions := activeVersions st in
  let outcomes :=
    map (fun entry => run (fst entry) (snd entry))
        (combine (seq 0 (List.length selectedVersions)) selectedVersions) in
  let st' := UiState.mk (UiState.selectedChannel st) (UiState.selectedVersions st)
                        (UiState.availableVersions st) (UiState.availableUsers st)
                        (storeResults outcomes) in
  if forallb returned outcomes
  then (st', Some (displayMultiVersionResults st' (UiState.resultsCache st')))
  else (st', None).

(* ================================================================= *)
(** ** Further notions and sample inputs *)

(** Every name the cache holds is a non-empty string. *)
Definition all_named (names : TopicNames) : Prop :=
  forall k n, Map_get Z.eqb names k = Some n -> truthy_str n = true.

(** A tree without messages that names topic 3 by a title. *)
Definition renamingTree : RawTree.t :=
  RawTree.mk None
    (Some [(3, Some (TopicDef.mk (Some EmptyString) (Some "Roadmap")));
           (4, Some (TopicDef.mk None None))]).


(** The key by which [loadVersions] sorts: ascending version numbers. *)
Definition versionKey (x : VersionInfo.t) : Z := - VersionInfo.version x.

(** The interface object after [resetUI]. *)
Definition freshUi : UiState.t := resetUI (UiState.mk None [] [] [] []).

(** A response of the query service that carries [tree] and nothing else. *)
Definition responseOf (tree : RawTree.t) : ApiResponse.t :=
  ApiResponse.mk None None (Some tree) None None None None None None.

(** Three versions as the service may list them, not in order. *)
Definition listedVersions : list VersionInfo.t :=
  [ VersionInfo.mk 3 None None None; VersionInfo.mk 1 None None None;
    VersionInfo.mk 2 None None None ].

(** The key by which [generateMultiVersionDelta] sorts the results. *)
Definition resultKey (r : VersionedResult.t) : Z := - VersionedResult.version r.

(** The results of local processing of a tree under three versions, as
    [executeQueryAgainstVersion] returns them without enhancement. *)
Definition resultAt (messages : list Message.t) (version : Z) : VersionedResult.t :=
  withRaw (fst (processTreeLocally sampleHost [] (Some (treeOf messages))
                                   channelQuery version))
          None None
          (formatRawApiResponse "2025-09-12T10:00:01.000Z"
             (responseOf (treeOf messages))
             "get_topic_tree_by_channel_and_version" (Some 2) version)
          version.

(** Every query of the selected versions returns the local result of
    [messages]. *)
Definition runLocally (messages : list Message.t)
  : nat -> Z -> Outcome VersionedResult.t :=
  fun _ version => Returned (resultAt messages version).

(** Versions 1 and 2 selected in the first and the third select. *)
Definition gapUi : UiState.t :=
  UiState.mk (Some "2148778849") [Some 1; None; Some 2] [] []
             [None; None; None].

(** [m.timestamp], 0 when missing, and the key by which
    [analyzeTemporalPatterns] sorts. *)
Definition timeOf (message : Message.t) : Z := count_or_0 (Message.timestamp message).

Definition timeKey (message : Message.t) : Z := - timeOf message.

Definition stamped (message : Message.t) : bool :=
  match stamp message with Some _ => true | None => false end.

(** The number of messages with a truthy user id and the user name
    [name]. *)
Definition writtenAs (name : string) (message : Message.t) : bool :=
  match namedUser message with
  | Some (_, uname) => String.eqb uname name
  | None => false
  end.

Definition messagesAs (name : string) (messages : list Message.t) : Z :=
  Z.of_nat (List.length (filter (writtenAs name) messages)).

(** Messages with time stamps, not in order of time. *)
Definition stampedMessages : list Message.t :=
  [ Message.mk (Some 1) (Some "alice") (Some 1) (Some 300);
    Message.mk (Some 2) (Some "bob") (Some 2) (Some 100);
    Message.mk (Some 1) (Some "alice") (Some 1) None;
    Message.mk (Some 2) (Some "bob") (Some 1) (Some 200) ].

(* ================================================================= *)
(** ** Checks of the test suite, and the percentage in exact arithmetic *)

(** [data.messageCount] and its like on the data object of a result:
    [None] is [undefined], what the empty object gives. *)
Definition countOf (count : Data.t -> Z) (data : ResultData) : option Z :=
  match data with
  | FullData d => Some (count d)
  | EmptyData => None
  end.

(** [a <= b] on two counts: [undefined] compares as [NaN] and is below
    nothing. *)
Definition count_leb (a b : option Z) : bool :=
  match a, b with
  | Some x, Some y => x <=? y
  | _, _ => false
  end.

(** [raw === processed] on a number and a count *)
Definition count_eqb (raw : Z) (processed : option Z) : bool :=
  match processed with
  | Some p => raw =? p
  | None => false
  end.

(** The checks "User Filtering Logic - Messages" and "- Topics" of the
    test suite, on the data of the filtered and of the baseline result. *)
Definition messagesLogical (filtered baseline : ResultData) : bool :=
  count_leb (countOf Data.messageCount filtered)
            (countOf Data.messageCount baseline).

Definition topicsLogical (filtered baseline : ResultData) : bool :=
  count_leb (countOf Data.topicCount filtered)
            (countOf Data.topicCount baseline).

(** The check "Processing - Message Count" of the test suite:
    [rawMessageCount === processedMessageCount], the raw count being 0 on
    a tree without messages. *)
Definition messageCountMatches (treeData : RawTree.t) (processed : ResultData)
  : bool :=
  count_eqb (keyCount (RawTree.messages treeData))
            (countOf Data.messageCount processed).

(** The percentage of the specification, [round(change / earlier * 100)],
    in exact arithmetic for [0 < earlier]: the integer nearest to
    [100 * change / earlier], a half rounded up as [Math.round] does. *)
Definition exactPercent (change earlier : Z) : Z :=
  (2 * (100 * change) + earlier) / (2 * earlier).

(** A tree that has neither messages nor topics. *)
Definition bareTree : RawTree.t := RawTree.mk None None.

(** The result [executeQueryAgainstVersion] returns for [tree], without
    enhancement. *)
Definition resultOfTree (tree : RawTree.t) (version : Z) : VersionedResult.t :=
  withRaw (fst (processTreeLocally sampleHost [] (Some tree) channelQuery version))
          None None
          (formatRawApiResponse "2025-09-12T10:00:01.000Z" (responseOf tree)
             "get_topic_tree_by_channel_and_version" (Some 2148778849) version)
          version.

(** The query of the whole channel as [buildQueryData] builds it. *)
Definition channelFullQuery : FullQuery.t :=
  FullQuery.mk channelQuery (Some "2148778849") [1; 2]
               "2025-09-12T10:00:00.000Z".

(** [n] messages of Alice in topic 1. *)
Definition crowd (n : nat) : list Message.t :=
  repeat (message (Some 1) (Some "alice") (Some 1)) n.
(* ================================================================= *)
(** ** Lists: first occurrences and relative order *)

Lemma existsb_eqb_In (x : Z) (l : list Z) :
  existsb (Z.eqb x) l = true <-> In x l.
Proof.
  rewrite existsb_exists. split.
  - intros [y [Hy He]]. apply Z.eqb_eq in He. now subst.
  - intros H. exists x. split; [assumption | apply Z.eqb_refl].
Qed.

Lemma In_first_seen (x : Z) (l : list Z) : In x (first_seen l) <-> In x l.
Proof.
  induction l as [|a l IH]; simpl; [tauto|].
  rewrite filter_In, IH, negb_true_iff, Z.eqb_neq.
  destruct (Z.eq_dec a x); [tauto|]. split; [tauto|].
  intros [H|H]; [contradiction|]. right. split; [assumption|congruence].
Qed.

Lemma NoDup_first_seen (l : list Z) : NoDup (first_seen l).
Proof.
  induction l as [|a l IH]; simpl; constructor.
  - rewrite filter_In, negb_true_iff, Z.eqb_neq. tauto.
  - now apply NoDup_filter.
Qed.

Lemma filter_neq_notin (a : Z) (l : list Z) :
  ~ In a l -> filter (fun y => negb (y =? a)) l = l.
Proof.
  induction l as [|b l IH]; simpl; intros H; [reflexivity|].
  destruct (Z.eqb_spec b a); simpl.
  - subst. tauto.
  - f_equal. apply IH. tauto.
Qed.

Lemma first_seen_snoc (l : list Z) (x : Z) :
  first_seen (l ++ [x]) = Set_add Z.eqb (first_seen l) x.
Proof.
  unfold Set_add, Set_has.
  induction l as [|a l IH]; simpl; [reflexivity|].
  rewrite IH. destruct (Z.eqb_spec x a) as [->|Hne]; simpl.
  - destruct (existsb (Z.eqb a) (first_seen l)) eqn:E; [reflexivity|].
    rewrite filter_app. simpl. rewrite Z.eqb_refl. simpl.
    now rewrite app_nil_r.
  - assert (Hf : existsb (Z.eqb x) (filter (fun y => negb (y =? a)) (first_seen l))
                 = existsb (Z.eqb x) (first_seen l)).
    { apply eq_true_iff_eq. rewrite !existsb_eqb_In, filter_In.
      rewrite negb_true_iff, Z.eqb_neq. intuition congruence. }
    rewrite Hf. destruct (existsb (Z.eqb x) (first_seen l)); [reflexivity|].
    rewrite filter_app. simpl.
    destruct (Z.eqb_spec x a); [contradiction|]. reflexivity.
Qed.

Lemma before_In {A : Type} (x y : A) (l : list A) :
  before x y l -> In x l /\ In y l.
Proof.
  induction 1 as [l H|a l H [IH1 IH2]]; simpl; tauto.
Qed.

Lemma before_filter {A : Type} (f : A -> bool) (x y : A) (l : list A) :
  before x y (filter f l) -> before x y l.
Proof.
  induction l as [|a l IH]; simpl; intros H; [inversion H|].
  destruct (f a).
  - inversion H; subst.
    + apply before_here. eapply proj1. apply filter_In. eassumption.
    + apply before_skip. auto.
  - apply before_skip. auto.
Qed.

Lemma before_filter_keep {A : Type} (f : A -> bool) (x y : A) (l : list A) :
  before x y l -> f x = true -> f y = true -> before x y (filter f l).
Proof.
  induction 1 as [l H|a l H IH]; simpl; intros Hx Hy.
  - rewrite Hx. apply before_here. apply filter_In. tauto.
  - destruct (f a); [apply before_skip|]; auto.
Qed.

Lemma before_map {A B : Type} (g : A -> B) (x y : A) (l : list A) :
  before x y l -> before (g x) (g y) (map g l).
Proof.
  induction 1 as [l H|a l H IH]; simpl.
  - apply before_here. now apply in_map.
  - now apply before_skip.
Qed.

Lemma before_first_seen (x y : Z) (l : list Z) :
  before x y (first_seen l) -> met_before x y l.
Proof.
  induction l as [|a l IH]; simpl; intros H; [inversion H|].
  inversion H; subst.
  - apply filter_In in H1. destruct H1 as [Hy Hne].
    apply negb_true_iff, Z.eqb_neq in Hne. rewrite In_first_seen in Hy.
    exists [], l. simpl. repeat split; auto; congruence.
  - pose proof (before_In _ _ _ H1) as [Hx Hy].
    apply filter_In in Hx, Hy.
    destruct Hx as [_ Hx], Hy as [_ Hy].
    apply negb_true_iff, Z.eqb_neq in Hx, Hy.
    apply before_filter in H1.
    destruct (IH H1) as (l1 & l2 & -> & N1 & N2 & Hne & Hin).
    exists (a :: l1), l2. simpl. repeat split; auto; intros [E|E]; auto; congruence.
Qed.

(* ================================================================= *)
(** ** Maps *)

Lemma Set_has_In (ks : list Z) (k : Z) : Set_has Z.eqb ks k = true <-> In k ks.
Proof. apply existsb_eqb_In. Qed.

Lemma Set_has_first_seen (l : list Z) (k : Z) :
  Set_has Z.eqb (first_seen l) k = Set_has Z.eqb l k.
Proof.
  apply eq_true_iff_eq. rewrite !Set_has_In. apply In_first_seen.
Qed.

Lemma Map_keys_tab {V : Type} (f : Z -> V) (ks : list Z) : Map_keys (tab f ks) = ks.
Proof.
  unfold Map_keys, tab. rewrite map_map. simpl. apply map_id.
Qed.

Lemma tab_ext {V : Type} (f g : Z -> V) (ks : list Z) :
  (forall k, In k ks -> f k = g k) -> tab f ks = tab g ks.
Proof.
  intros H. apply map_ext_in. intros k Hk. now rewrite H.
Qed.

Lemma Map_get_tab {V : Type} (f : Z -> V) (ks : list Z) (k : Z) :
  Map_get Z.eqb (tab f ks) k = if Set_has Z.eqb ks k then Some (f k) else None.
Proof.
  unfold Set_has. induction ks as [|a ks IH]; simpl; [reflexivity|].
  rewrite (Z.eqb_sym k a). destruct (Z.eqb_spec a k) as [->|Hne]; simpl; auto.
Qed.

Lemma Map_get_None {V : Type} (m : list (Z * V)) (k : Z) :
  Map_get Z.eqb m k = None <-> ~ In k (Map_keys m).
Proof.
  induction m as [|[a v] m IH]; simpl; [tauto|].
  destruct (Z.eqb_spec a k) as [->|Hne].
  - split; [discriminate | tauto].
  - rewrite IH. tauto.
Qed.

Lemma Map_keys_set {V : Type} (m : list (Z * V)) (k : Z) (v : V) :
  Map_keys (Map_set Z.eqb m k v) = Set_add Z.eqb (Map_keys m) k.
Proof.
  unfold Set_add, Set_has.
  induction m as [|[a w] m IH]; simpl; [reflexivity|].
  rewrite (Z.eqb_sym k a). destruct (Z.eqb_spec a k) as [->|Hne]; simpl.
  - reflexivity.
  - rewrite IH. now destruct (existsb (Z.eqb k) (Map_keys m)).
Qed.

Lemma Map_set_tab {V : Type} (f g : Z -> V) (ks : list Z) (k : Z) (v : V) :
  NoDup ks ->
  g k = v ->
  (forall k', k' <> k -> In k' ks -> g k' = f k') ->
  Map_set Z.eqb (tab f ks) k v = tab g (Set_add Z.eqb ks k).
Proof.
  unfold Set_add, Set_has. intros Hnd Hk Hg.
  induction ks as [|a ks IH]; simpl.
  - now rewrite Hk.
  - apply NoDup_cons_iff in Hnd. destruct Hnd as [Hna Hnd'].
    rewrite (Z.eqb_sym k a). destruct (Z.eqb_spec a k) as [->|Hne]; simpl.
    + rewrite Hk. f_equal. apply tab_ext. intros k' Hk'. symmetry.
      apply Hg; [|now right]. intros ->. contradiction.
    + rewrite IH; auto.
      * destruct (existsb (Z.eqb k) ks); simpl;
          (rewrite (Hg a); [reflexivity|assumption|now left]).
      * intros k' H1 H2. apply Hg; [assumption|now right].
Qed.

(* ================================================================= *)
(** ** Counting *)

Lemma keep_app {A B : Type} (f : A -> option B) (l1 l2 : list A) :
  keep f (l1 ++ l2) = keep f l1 ++ keep f l2.
Proof. apply flat_map_app. Qed.

Lemma occurrences_snoc (x y : Z) (l : list Z) :
  occurrences x (l ++ [y]) = occurrences x l + (if y =? x then 1 else 0).
Proof.
  unfold occurrences. rewrite count_occ_app. simpl.
  destruct (Z.eq_dec y x) as [->|Hne].
  - rewrite Z.eqb_refl. lia.
  - destruct (Z.eqb_spec y x); [contradiction|lia].
Qed.

Lemma occurrences_notin (x : Z) (l : list Z) : ~ In x l -> occurrences x l = 0.
Proof.
  unfold occurrences. intros H. apply (count_occ_not_In Z.eq_dec) in H.
  now rewrite H.
Qed.

Lemma occurrences_pos (x : Z) (l : list Z) : In x l <-> 0 < occurrences x l.
Proof.
  unfold occurrences. rewrite (count_occ_In Z.eq_dec). lia.
Qed.

(** The count read back from a tabulated map of occurrences. *)
Lemma count_or_0_tab (l : list Z) (k : Z) :
  count_or_0 (Map_get Z.eqb (tab (fun t => occurrences t l) (first_seen l)) k)
  = occurrences k l.
Proof.
  rewrite Map_get_tab, Set_has_first_seen.
  destruct (Set_has Z.eqb l k) eqn:E; simpl; [reflexivity|].
  symmetry. apply occurrences_notin. rewrite <- Set_has_In. congruence.
Qed.

(** One more occurrence of [k]: the map of occurrences after [set]. *)
Lemma Map_set_occurrences (l : list Z) (k : Z) :
  Map_set Z.eqb (tab (fun t => occurrences t l) (first_seen l)) k
          (occurrences k l + 1)
  = tab (fun t => occurrences t (l ++ [k])) (first_seen (l ++ [k])).
Proof.
  rewrite first_seen_snoc. apply Map_set_tab.
  - apply NoDup_first_seen.
  - rewrite occurrences_snoc, Z.eqb_refl. reflexivity.
  - intros k' Hne _. rewrite occurrences_snoc.
    destruct (Z.eqb_spec k k'); [congruence|lia].
Qed.

(* ================================================================= *)
(** ** The two passes over the messages *)

Lemma topicIds_snoc (l : list Message.t) (m : Message.t) :
  topicIds (l ++ [m])
  = topicIds l ++ match realTopic m with Some t => [t] | None => [] end.
Proof.
  unfold topicIds. rewrite keep_app. simpl. now rewrite app_nil_r.
Qed.

Lemma topicUserIds_snoc (t : Z) (l : list Message.t) (m : Message.t) :
  topicUserIds t (l ++ [m])
  = topicUserIds t l
    ++ (if inTopic t m
        then match anyUser m with Some u => [u] | None => [] end
        else []).
Proof.
  unfold topicUserIds. rewrite filter_app, keep_app. simpl.
  destruct (inTopic t m); simpl; [now rewrite app_nil_r | reflexivity].
Qed.

Lemma topicUserIds_no_topic (t : Z) (l : list Message.t) :
  ~ In t (topicIds l) -> topicUserIds t l = [].
Proof.
  unfold topicUserIds, topicIds, keep, inTopic.
  induction l as [|m l IH]; simpl; intros H; [reflexivity|].
  rewrite in_app_iff in H.
  destruct (realTopic m) as [t'|]; simpl in *.
  - destruct (Z.eqb_spec t' t); [tauto|]. apply IH. tauto.
  - apply IH. tauto.
Qed.

Lemma userCountsOf_no_topic (t : Z) (l : list Message.t) :
  ~ In t (topicIds l) -> userCountsOf t l = [].
Proof.
  intros H. unfold userCountsOf. now rewrite topicUserIds_no_topic.
Qed.

Lemma collectTopic_fold (messages : list Message.t) :
  fold_left collectTopic messages TopicAcc.empty
  = TopicAcc.mk (countsOf messages) (topicUsersOf messages).
Proof.
  induction messages as [|m l IH] using rev_ind; [reflexivity|].
  rewrite fold_left_app. simpl. rewrite IH. clear IH.
  unfold collectTopic. simpl.
  unfold countsOf, topicUsersOf.
  rewrite topicIds_snoc.
  destruct (realTopic m) as [t|] eqn:Ht.
  2:{ rewrite app_nil_r. f_equal. apply tab_ext. intros k _.
      unfold userCountsOf. rewrite topicUserIds_snoc.
      unfold inTopic. rewrite Ht. now rewrite app_nil_r. }
  f_equal.
  - rewrite count_or_0_tab. apply Map_set_occurrences.
  - set (ks := first_seen (topicIds l)).
    assert (Htu :
      (if Map_has Z.eqb (tab (fun t0 => userCountsOf t0 l) ks) t
       then tab (fun t0 => userCountsOf t0 l) ks
       else Map_set Z.eqb (tab (fun t0 => userCountsOf t0 l) ks) t [])
      = tab (fun t0 => userCountsOf t0 l) (first_seen (topicIds l ++ [t]))).
    { rewrite first_seen_snoc. fold ks. unfold Map_has.
      rewrite Map_get_tab. unfold Set_add.
      destruct (Set_has Z.eqb ks t) eqn:E; [reflexivity|].
      rewrite (Map_set_tab (fun t0 => userCountsOf t0 l)
                           (fun t0 => userCountsOf t0 l) ks t []).
      - unfold Set_add. now rewrite E.
      - apply NoDup_first_seen.
      - apply userCountsOf_no_topic. rewrite <- In_first_seen.
        fold ks. rewrite <- Set_has_In. congruence.
      - reflexivity. }
    rewrite Htu. clear Htu.
    assert (Hin : Set_has Z.eqb (first_seen (topicIds l ++ [t])) t = true).
    { apply Set_has_In, In_first_seen, in_or_app. right. now left. }
    assert (Hother : forall k, k <> t ->
              userCountsOf k (l ++ [m]) = userCountsOf k l).
    { intros k Hk. unfold userCountsOf. rewrite topicUserIds_snoc.
      unfold inTopic. rewrite Ht.
      destruct (Z.eqb_spec t k); [congruence|]. now rewrite app_nil_r. }
    destruct (anyUser m) as [u|] eqn:Hu.
    + rewrite Map_get_tab, Hin.
      rewrite (Map_set_tab (fun t0 => userCountsOf t0 l)
                           (fun t0 => userCountsOf t0 (l ++ [m]))).
      * unfold Set_add. now rewrite Hin.
      * apply NoDup_first_seen.
      * unfold userCountsOf at 1. rewrite topicUserIds_snoc.
        unfold inTopic. rewrite Ht, Z.eqb_refl, Hu.
        unfold userCountsOf. rewrite count_or_0_tab.
        symmetry. apply Map_set_occurrences.
      * intros k Hk _. now apply Hother.
    + apply tab_ext. intros k _.
      destruct (Z.eq_dec k t) as [->|Hk]; [|symmetry; now apply Hother].
      unfold userCountsOf. rewrite topicUserIds_snoc.
      unfold inTopic. rewrite Ht, Z.eqb_refl, Hu. now rewrite app_nil_r.
Qed.

Lemma collectUser_users (acc : UserAcc.t) (m : Message.t) :
  UserAcc.users (collectUser acc m)
  = match namedUser m with
    | Some (uid, uname) => Map_set Z.eqb (UserAcc.users acc) uid uname
    | None => UserAcc.users acc
    end.
Proof.
  unfold collectUser. now destruct (namedUser m) as [[uid uname]|].
Qed.

Lemma users_keys (messages : list Message.t) :
  Map_keys (UserAcc.users (fold_left collectUser messages UserAcc.empty))
  = first_seen (namedUserIds messages).
Proof.
  induction messages as [|m l IH] using rev_ind; [reflexivity|].
  rewrite fold_left_app. simpl. rewrite collectUser_users.
  unfold namedUserIds in *. rewrite keep_app, map_app. simpl.
  destruct (namedUser m) as [[uid uname]|]; simpl.
  - rewrite Map_keys_set, IH. symmetry. apply first_seen_snoc.
  - now rewrite app_nil_r.
Qed.

(* ================================================================= *)
(** ** Sorting *)

Section SortFacts.
Context {A : Type}.
Variable key : A -> Z.
Variable cmp : A -> A -> Z.
Hypothesis cmp_key : forall a b, cmp a b = key b - key a.

Lemma sort_insert_perm (x : A) (l : list A) :
  Permutation (sort_insert cmp x l) (x :: l).
Proof.
  induction l as [|y l IH]; simpl; [reflexivity|].
  destruct (cmp x y <=? 0); [reflexivity|].
  rewrite IH. apply perm_swap.
Qed.

Lemma sort_perm (l : list A) : Permutation (sort cmp l) l.
Proof.
  induction l as [|x l IH]; simpl; [reflexivity|].
  rewrite sort_insert_perm. now constructor.
Qed.

Lemma sort_length (l : list A) : List.length (sort cmp l) = List.length l.
Proof. apply Permutation_length, sort_perm. Qed.

Lemma sort_In (x : A) (l : list A) : In x (sort cmp l) <-> In x l.
Proof.
  split; apply Permutation_in; [|symmetry]; apply sort_perm.
Qed.

Lemma sort_insert_descending (x : A) (l : list A) :
  descending key l -> descending key (sort_insert cmp x l).
Proof.
  unfold descending. induction 1 as [|y l Hs IH Hy]; simpl.
  - repeat constructor.
  - rewrite cmp_key. destruct (Z.leb_spec (key y - key x) 0) as [Hle|Hgt].
    + constructor; [now constructor|].
      constructor; [lia|]. eapply Forall_impl; [|exact Hy].
      simpl. intros. lia.
    + constructor; [assumption|].
      eapply Permutation_Forall; [symmetry; apply sort_insert_perm|].
      constructor; [lia|assumption].
Qed.

Lemma sort_descending (l : list A) : descending key (sort cmp l).
Proof.
  induction l as [|x l IH]; simpl; [constructor|].
  now apply sort_insert_descending.
Qed.

Lemma sort_insert_stable (c : Z) (x : A) (l : list A) :
  filter (fun y => key y =? c) (sort_insert cmp x l)
  = filter (fun y => key y =? c) (x :: l).
Proof.
  induction l as [|y l IH]; simpl; [reflexivity|].
  rewrite cmp_key. destruct (Z.leb_spec (key y - key x) 0) as [Hle|Hgt].
  - reflexivity.
  - simpl in *. rewrite IH.
    destruct (Z.eqb_spec (key x) c), (Z.eqb_spec (key y) c);
      try reflexivity. lia.
Qed.

(** Stability: the entries of one key keep their order. *)
Lemma sort_stable (c : Z) (l : list A) :
  filter (fun y => key y =? c) (sort cmp l) = filter (fun y => key y =? c) l.
Proof.
  induction l as [|x l IH]; simpl; [reflexivity|].
  rewrite sort_insert_stable. simpl. now rewrite IH.
Qed.

Lemma sort_before (x y : A) (l : list A) :
  before x y (sort cmp l) -> key x = key y -> before x y l.
Proof.
  intros Hb He.
  apply (before_filter (fun z => key z =? key x)).
  rewrite <- sort_stable.
  apply before_filter_keep; [assumption| |]; apply Z.eqb_eq; congruence.
Qed.
End SortFacts.

Lemma byMessageCount_key (a b : Topic.t) :
  byMessageCount a b = Topic.messageCount b - Topic.messageCount a.
Proof. reflexivity. Qed.

Lemma byContributorCount_key (a b : Contributor.t) :
  byContributorCount a b = Contributor.messageCount b - Contributor.messageCount a.
Proof. reflexivity. Qed.

(* ================================================================= *)
(** ** The topic list as a function of the messages *)

Lemma mkTopic_topicOf (names : TopicNames) (users : list (Z * string))
  (messages : list Message.t) :
  map (mkTopic names users (topicUsersOf messages)) (countsOf messages)
  = map (topicOf names users messages) (first_seen (topicIds messages)).
Proof.
  unfold countsOf, tab. rewrite map_map. apply map_ext_in.
  intros t Ht. unfold mkTopic, topicOf, topicUsersOf.
  rewrite Map_get_tab.
  apply Set_has_In in Ht. now rewrite Ht.
Qed.

Lemma buildTopics_spec (names : TopicNames) (users : list (Z * string))
  (messages : list Message.t) :
  buildTopics names users (fold_left collectTopic messages TopicAcc.empty)
  = sort byMessageCount
         (map (topicOf names users messages) (first_seen (topicIds messages))).
Proof.
  rewrite collectTopic_fold. unfold buildTopics. simpl.
  now rewrite mkTopic_topicOf.
Qed.

Lemma processTreeLocally_messages (host : Host.t) (names : TopicNames)
  (tree : RawTree.t) (all : list Message.t) (q : QueryData.t) (v : Z) :
  RawTree.messages tree = Some all ->
  processTreeLocally host names (Some tree) q v
  = (processMessages host (extractTopicNames names tree) (selected q all) q v,
     extractTopicNames names tree).
Proof.
  intros H. unfold processTreeLocally. now rewrite H.
Qed.

Lemma processMessages_data (host : Host.t) (names : TopicNames)
  (messages : list Message.t) (q : QueryData.t) (v : Z) :
  Result.data (processMessages host names messages q v)
  = FullData
      (buildData messages (fold_left collectUser messages UserAcc.empty)
         (sort byMessageCount
               (map (topicOf names (usersOf messages) messages)
                    (first_seen (topicIds messages))))).
Proof.
  unfold processMessages. simpl. now rewrite buildTopics_spec.
Qed.

(** Reduce a run on a tree that has messages to [processMessages]. *)
Ltac on_messages H :=
  rewrite !(processTreeLocally_messages _ _ _ _ _ _ H); simpl fst.


(* ================================================================= *)
(** ** Counts *)

Lemma first_seen_distinct (l : list Z) :
  Z.of_nat (List.length (first_seen l)) = distinct l.
Proof.
  unfold distinct. f_equal. apply Permutation_length.
  apply NoDup_Permutation.
  - apply NoDup_first_seen.
  - apply NoDup_nodup.
  - intros x. rewrite In_first_seen, nodup_In. reflexivity.
Qed.

Lemma topicCount_spec (names : TopicNames) (messages : list Message.t)
  (uacc : UserAcc.t) (users : list (Z * string)) :
  Data.topicCount
    (buildData messages uacc
       (sort byMessageCount
             (map (topicOf names users messages)
                  (first_seen (topicIds messages)))))
  = distinct (topicIds messages).
Proof.
  simpl. rewrite sort_length.
  rewrite length_map. apply first_seen_distinct.
Qed.

Lemma activeUsers_spec (messages : list Message.t) (topics : list Topic.t) :
  Data.activeUsers
    (buildData messages (fold_left collectUser messages UserAcc.empty) topics)
  = distinct (namedUserIds messages).
Proof.
  simpl. unfold Map_size.
  rewrite <- first_seen_distinct, <- users_keys.
  unfold Map_keys. now rewrite length_map.
Qed.

(** On a tree without a message mapping [processTreeLocally] returns,
    without touching the name cache, the result whose summary is "No data
    available for processing", whose [data] is the empty object, and whose
    insights are exactly ["No messages found in the tree data"]. *)
Lemma no_messages_result (host : Host.t) (names : TopicNames)
  (tree : RawTree.t) (q : QueryData.t) (v : Z) :
  RawTree.messages tree = None ->
  processTreeLocally host names (Some tree) q v
  = (Result.mk "No data available for processing" EmptyData
               ["No messages found in the tree data"]
               (Metadata.mk v (Host.nowISO host) (QueryData.type q) "local" false),
     names).
Proof.
  intros H. unfold processTreeLocally. rewrite H. reflexivity.
Qed.

(** C1: on the tree without messages the result has the one insight the
    claim names, but its [data] is the empty object: it holds no count,
    where the claim has counts of zero.  The raw response of the same
    query gives the message count 0, the check of the test suite that
    compares the two counts fails, and the comparison of two such
    versions prints [undefined] for every count and [NaN] for every
    difference. *)
Theorem C1_no_counts_without_messages :
  let result :=
    fst (processTreeLocally sampleHost [] (Some bareTree) channelQuery 1) in
  Result.insights result = ["No messages found in the tree data"]
  /\ Result.data result = EmptyData
  /\ countOf Data.messageCount (Result.data result) = None
  /\ countOf Data.topicCount (Result.data result) = None
  /\ countOf Data.activeUsers (Result.data result) = None
  /\ executeQueryAgainstVersion sampleHost "2025-09-12T10:00:01.000Z" [] false
       (Returned (Some (responseOf bareTree))) None channelFullQuery 1
     = (Returned (resultOfTree bareTree 1), [])
  /\ RawResponse.messageCount (VersionedResult.rawResponse (resultOfTree bareTree 1))
     = 0
  /\ messageCountMatches bareTree (Result.data result) = false
  /\ exists table,
       generateMultiVersionDelta [resultOfTree bareTree 1; resultOfTree bareTree 2]
       = Comparison table
       /\ map VersionRow.messages (MultiDelta.rows table)
          = ["undefined"; "undefined"]
       /\ MultiDelta.messageDiff table = "NaN"
       /\ MultiDelta.topicDiff table = "NaN"
       /\ MultiDelta.userDiff table = "NaN".
Proof.
  cbv zeta. repeat (split; [vm_compute; reflexivity|]).
  eexists. split; [vm_compute; reflexivity|]. repeat split; reflexivity.
Qed.

(** C2 (with [activeUsers] restricted to named users): [topicCount] is
    the number of distinct real topic ids of the selected messages, and
    [activeUsers] is the number of distinct [fromUserId] values among the
    selected messages that carry both a truthy [fromUserId] and a truthy
    [fromUserName]. *)
Theorem C2_count_consistency (host : Host.t) (names : TopicNames)
  (tree : RawTree.t) (all : list Message.t) (q : QueryData.t) (v : Z) :
  RawTree.messages tree = Some all ->
  exists d,
    Result.data (fst (processTreeLocally host names (Some tree) q v)) = FullData d
    /\ Data.topicCount d = distinct (topicIds (selected q all))
    /\ Data.activeUsers d = distinct (namedUserIds (selected q all)).
Proof.
  intros H. on_messages H.
  rewrite processMessages_data. eexists. split; [reflexivity|]. split.
  - apply topicCount_spec.
  - apply activeUsers_spec.
Qed.

Lemma C2_count_consistency_witness :
  exists d,
    Result.data
      (fst (processTreeLocally sampleHost [] (Some namelessTree) channelQuery 1))
    = FullData d
    /\ Data.topicCount d
       = distinct (topicIds (selected channelQuery [message (Some 7) None (Some 1)]))
    /\ Data.activeUsers d
       = distinct (namedUserIds
                     (selected channelQuery [message (Some 7) None (Some 1)])).
Proof.
  apply (C2_count_consistency sampleHost [] namelessTree
           [message (Some 7) None (Some 1)] channelQuery 1).
  reflexivity.
Defined.

(** C2, counterexample to "[activeUsers] is the number of distinct
    [fromUserId] values": one message of user 7 without a user name has
    one distinct [fromUserId], yet [activeUsers] is 0. *)
Lemma C2_activeUsers_misses_nameless :
  exists d,
    Result.data
      (fst (processTreeLocally sampleHost [] (Some namelessTree) channelQuery 1))
    = FullData d
    /\ distinct (fromUserIds (selected channelQuery
                                [message (Some 7) None (Some 1)])) = 1
    /\ Data.activeUsers d = 0
    /\ Data.activeUsers d
       <> distinct (fromUserIds (selected channelQuery
                                   [message (Some 7) None (Some 1)])).
Proof.
  eexists. split; [reflexivity|]. split; [reflexivity|].
  split; [reflexivity|]. discriminate.
Qed.

(* ================================================================= *)
(** ** The user filter *)

Lemma filterMessages_incl (chosen : list string) (all : list Message.t) :
  incl (filterMessages chosen all) all.
Proof.
  destruct chosen; simpl; [apply incl_refl|]. apply incl_filter.
Qed.

Lemma filterMessages_length (chosen : list string) (all : list Message.t) :
  (List.length (filterMessages chosen all) <= List.length all)%nat.
Proof.
  destruct chosen; simpl; [lia|]. apply filter_length_le.
Qed.

Lemma keep_incl {A B : Type} (f : A -> option B) (l l' : list A) :
  incl l l' -> incl (keep f l) (keep f l').
Proof.
  unfold keep. intros H b Hb. apply in_flat_map in Hb.
  destruct Hb as [a [Ha Hb]]. apply in_flat_map. exists a. auto.
Qed.

Lemma distinct_incl (l l' : list Z) : incl l l' -> distinct l <= distinct l'.
Proof.
  intros H. rewrite <- !first_seen_distinct. apply inj_le.
  apply NoDup_incl_length; [apply NoDup_first_seen|].
  intros x. rewrite !In_first_seen. apply H.
Qed.

(** On a tree with a message mapping, under any user filter [chosen] the
    message count and the topic count are at most those of the same tree
    queried with no filter. *)
Lemma filter_monotone (host : Host.t) (names : TopicNames)
  (tree : RawTree.t) (all : list Message.t) (type : string) (chosen : list string)
  (question : option string) (v : Z) :
  RawTree.messages tree = Some all ->
  exists dS dAll,
    Result.data
      (fst (processTreeLocally host names (Some tree)
                               (QueryData.mk type chosen question) v)) = FullData dS
    /\ Result.data
         (fst (processTreeLocally host names (Some tree)
                                  (QueryData.mk type [] question) v)) = FullData dAll
    /\ Data.messageCount dS <= Data.messageCount dAll
    /\ Data.topicCount dS <= Data.topicCount dAll.
Proof.
  intros H. on_messages H.
  rewrite !processMessages_data.
  eexists. eexists. split; [reflexivity|]. split; [reflexivity|]. split.
  - unfold selected. simpl. apply inj_le, filterMessages_length.
  - rewrite !topicCount_spec. apply distinct_incl, keep_incl.
    unfold selected. simpl. apply filterMessages_incl.
Qed.

Lemma filter_monotone_witness :
  exists dS dAll,
    Result.data
      (fst (processTreeLocally sampleHost [] (Some namelessTree)
                               (QueryData.mk "channel_query" ["451032731"] None) 1))
    = FullData dS
    /\ Result.data
         (fst (processTreeLocally sampleHost [] (Some namelessTree)
                                  (QueryData.mk "channel_query" [] None) 1))
       = FullData dAll
    /\ Data.messageCount dS <= Data.messageCount dAll
    /\ Data.topicCount dS <= Data.topicCount dAll.
Proof.
  apply (filter_monotone sampleHost [] namelessTree
           [message (Some 7) None (Some 1)] "channel_query" ["451032731"] None 1).
  reflexivity.
Defined.

(** C8: on the tree without messages, whose set of user ids is empty, the
    result under the empty filter, the result under a filter of two ids
    and the unfiltered result all have the empty [data] object: there is
    no message count and no topic count, and the two comparisons
    [filtered <= baseline] that the test suite makes are false. *)
Theorem C8_no_counts_to_compare :
  let baseline :=
    Result.data
      (fst (processTreeLocally sampleHost [] (Some bareTree) channelQuery 1)) in
  let filtered (S : list string) :=
    Result.data
      (fst (processTreeLocally sampleHost [] (Some bareTree)
                               (QueryData.mk "channel_query" S None) 1)) in
  baseline = EmptyData
  /\ filtered [] = EmptyData
  /\ filtered ["1"; "2"] = EmptyData
  /\ countOf Data.messageCount baseline = None
  /\ countOf Data.topicCount baseline = None
  /\ messagesLogical (filtered []) baseline = false
  /\ topicsLogical (filtered []) baseline = false
  /\ messagesLogical (filtered ["1"; "2"]) baseline = false
  /\ topicsLogical (filtered ["1"; "2"]) baseline = false.
Proof.
  cbv zeta. repeat split; reflexivity.
Qed.

(* ================================================================= *)
(** ** Order of topics and contributors *)

Lemma topics_of_result (host : Host.t) (names : TopicNames)
  (tree : RawTree.t) (all : list Message.t) (q : QueryData.t) (v : Z) :
  RawTree.messages tree = Some all ->
  exists d,
    Result.data (fst (processTreeLocally host names (Some tree) q v)) = FullData d
    /\ Data.messageCount d = Z.of_nat (List.length (selected q all))
    /\ Data.activeUsers d = distinct (namedUserIds (selected q all))
    /\ Data.topics d
       = sort byMessageCount
              (map (topicOf (extractTopicNames names tree)
                            (usersOf (selected q all)) (selected q all))
                   (first_seen (topicIds (selected q all)))).
Proof.
  intros H. on_messages H.
  rewrite processMessages_data. eexists. split; [reflexivity|].
  split; [reflexivity|]. split; [apply activeUsers_spec|reflexivity].
Qed.

Lemma contributors_userIds (users : list (Z * string)) (m : list (Z * Z)) :
  map Contributor.userId (map (mkContributor users) m) = Map_keys m.
Proof.
  unfold Map_keys. rewrite map_map. apply map_ext. now intros [u c].
Qed.

Lemma contributors_order (users : list (Z * string)) (t : Z)
  (messages : list Message.t) (c1 c2 : Contributor.t) :
  before c1 c2 (buildContributors users (userCountsOf t messages)) ->
  Contributor.messageCount c1 = Contributor.messageCount c2 ->
  met_before (Contributor.userId c1) (Contributor.userId c2)
             (topicUserIds t messages).
Proof.
  intros Hb He. unfold buildContributors in Hb.
  apply (sort_before Contributor.messageCount byContributorCount
                     byContributorCount_key) in Hb; [|assumption].
  apply (before_map Contributor.userId) in Hb.
  rewrite contributors_userIds in Hb. unfold userCountsOf in Hb.
  rewrite Map_keys_tab in Hb. now apply before_first_seen.
Qed.

(** C9: the topics are in descending order of message count, the
    contributors of every topic are in descending order of their message
    count, and of two entries with equal counts the one listed first is
    the one met first in the selected messages. *)
Theorem C9_sorted_stable (host : Host.t) (names : TopicNames)
  (tree : RawTree.t) (all : list Message.t) (q : QueryData.t) (v : Z) :
  RawTree.messages tree = Some all ->
  exists d,
    Result.data (fst (processTreeLocally host names (Some tree) q v)) = FullData d
    /\ descending Topic.messageCount (Data.topics d)
    /\ (forall t1 t2,
          before t1 t2 (Data.topics d) ->
          Topic.messageCount t1 = Topic.messageCount t2 ->
          met_before (Topic.id t1) (Topic.id t2) (topicIds (selected q all)))
    /\ (forall t,
          In t (Data.topics d) ->
          descending Contributor.messageCount (Topic.contributors t)
          /\ forall c1 c2,
               before c1 c2 (Topic.contributors t) ->
               Contributor.messageCount c1 = Contributor.messageCount c2 ->
               met_before (Contributor.userId c1) (Contributor.userId c2)
                          (topicUserIds (Topic.id t) (selected q all))).
Proof.
  intros H. destruct (topics_of_result host names tree all q v H)
    as (d & Hd & _ & _ & Ht).
  exists d. split; [assumption|]. rewrite Ht. split; [|split].
  - apply (sort_descending Topic.messageCount byMessageCount byMessageCount_key).
  - intros t1 t2 Hb He.
    apply (sort_before Topic.messageCount byMessageCount byMessageCount_key)
      in Hb; [|assumption].
    apply (before_map Topic.id) in Hb. rewrite map_map in Hb. simpl in Hb.
    rewrite map_id in Hb. now apply before_first_seen.
  - intros t Hin. apply sort_In, in_map_iff in Hin.
    destruct Hin as [k [<- _]]. simpl. split.
    + apply (sort_descending Contributor.messageCount byContributorCount
                             byContributorCount_key).
    + intros c1 c2. apply contributors_order.
Qed.

Lemma C9_sorted_stable_witness :
  met_before 1 2 (topicIds (selected channelQuery tiedMessages))
  /\ met_before 1 2 (topicUserIds 0 (selected channelQuery tiedMessages)).
Proof.
  destruct (C9_sorted_stable sampleHost [] (treeOf tiedMessages) tiedMessages
                             channelQuery 1 eq_refl)
    as (d & Hd & _ & Htopics & Hcontributors).
  vm_compute in Hd. injection Hd as <-. split.
  - apply (Htopics
             (Topic.mk 1 "Technical Implementation" 1 1
                       [Contributor.mk 1 "@alice" 1])
             (Topic.mk 2 "Community Governance" 1 1
                       [Contributor.mk 2 "@bob" 1])).
    + apply before_skip, before_here. now left.
    + reflexivity.
  - apply (proj2 (Hcontributors
                    (Topic.mk 0 "General Discussion" 2 2
                       [Contributor.mk 1 "@alice" 1; Contributor.mk 2 "@bob" 1])
                    (or_introl eq_refl))
                 (Contributor.mk 1 "@alice" 1) (Contributor.mk 2 "@bob" 1)).
    + apply before_here. now left.
    + reflexivity.
Defined.

(* ================================================================= *)
(** ** Messages without a user name *)

Lemma In_topicIds (m : Message.t) (t : Z) (messages : list Message.t) :
  In m messages -> realTopic m = Some t -> In t (topicIds messages).
Proof.
  intros Hin Ht. unfold topicIds, keep. apply in_flat_map.
  exists m. split; [assumption|]. rewrite Ht. now left.
Qed.

Lemma In_topicUserIds (m : Message.t) (t u : Z) (messages : list Message.t) :
  In m messages -> realTopic m = Some t -> anyUser m = Some u ->
  In u (topicUserIds t messages).
Proof.
  intros Hin Ht Hu. unfold topicUserIds, keep. apply in_flat_map.
  exists m. split.
  - apply filter_In. split; [assumption|].
    unfold inTopic. rewrite Ht. apply Z.eqb_refl.
  - rewrite Hu. now left.
Qed.

Lemma usersOf_get_None (messages : list Message.t) (u : Z) :
  ~ In u (namedUserIds messages) ->
  Map_get Z.eqb (usersOf messages) u = None.
Proof.
  intros H. apply Map_get_None. unfold usersOf. rewrite users_keys.
  now rewrite In_first_seen.
Qed.

(** C10 (with the fallback name tied to the id never being named): a
    selected message with a truthy [fromUserId] [u] and a real topic [t]
    is counted in [messageCount] and in the message count of topic [t],
    and [u] is a contributor of that topic; [activeUsers] counts the ids
    that some selected message pairs with a user name, and when no
    selected message does so for [u], the contributor carries the
    fallback name "@User u".  The contributor count of a topic can
    therefore exceed [activeUsers]. *)
Theorem C10_nameless_contributor :
  (forall (host : Host.t) (names : TopicNames) (tree : RawTree.t)
          (all : list Message.t) (q : QueryData.t) (v : Z) (m : Message.t)
          (u t : Z),
      RawTree.messages tree = Some all ->
      In m (selected q all) ->
      anyUser m = Some u ->
      realTopic m = Some t ->
      exists d topic c,
        Result.data (fst (processTreeLocally host names (Some tree) q v))
        = FullData d
        /\ Data.messageCount d = Z.of_nat (List.length (selected q all))
        /\ In topic (Data.topics d)
        /\ Topic.id topic = t
        /\ Topic.messageCount topic = occurrences t (topicIds (selected q all))
        /\ 0 < Topic.messageCount topic
        /\ In c (Topic.contributors topic)
        /\ Contributor.userId c = u
        /\ Contributor.messageCount c
           = occurrences u (topicUserIds t (selected q all))
        /\ 0 < Contributor.messageCount c
        /\ Data.activeUsers d = distinct (namedUserIds (selected q all))
        /\ (~ In u (namedUserIds (selected q all)) ->
            Contributor.username c = str ["@User "; show_Z u]))
  /\ (exists d topic,
        Result.data
          (fst (processTreeLocally sampleHost [] (Some namelessTree)
                                   channelQuery 1)) = FullData d
        /\ In topic (Data.topics d)
        /\ Data.activeUsers d < Topic.contributorCount topic).
Proof.
  split.
  - intros host names tree all q v m u t H Hin Hu Ht.
    destruct (topics_of_result host names tree all q v H)
      as (d & Hd & Hcount & Hactive & Htopics).
    set (msgs := selected q all) in *.
    set (names' := extractTopicNames names tree) in *.
    exists d, (topicOf names' (usersOf msgs) msgs t),
           (mkContributor (usersOf msgs)
                          (u, occurrences u (topicUserIds t msgs))).
    pose proof (In_topicIds m t msgs Hin Ht) as Htin.
    pose proof (In_topicUserIds m t u msgs Hin Ht Hu) as Huin.
    repeat split; try assumption; try reflexivity.
    + rewrite Htopics. apply sort_In, in_map, In_first_seen. assumption.
    + simpl. now apply occurrences_pos.
    + unfold topicOf, buildContributors. simpl Topic.contributors.
      apply sort_In, in_map_iff.
      exists (u, occurrences u (topicUserIds t msgs)). split; [reflexivity|].
      unfold userCountsOf, tab. apply in_map_iff.
      exists u. split; [reflexivity|]. now apply In_first_seen.
    + simpl. now apply occurrences_pos.
    + intros Hnn. simpl. now rewrite usersOf_get_None.
  - eexists. eexists. split; [reflexivity|]. split; [now left|]. reflexivity.
Qed.

Lemma C10_nameless_contributor_witness :
  exists d topic c,
    Result.data
      (fst (processTreeLocally sampleHost [] (Some namelessTree) channelQuery 1))
    = FullData d
    /\ In topic (Data.topics d)
    /\ Topic.id topic = 1
    /\ In c (Topic.contributors topic)
    /\ Contributor.userId c = 7
    /\ Contributor.username c = "@User 7".
Proof.
  destruct (proj1 C10_nameless_contributor sampleHost [] namelessTree
              [message (Some 7) None (Some 1)] channelQuery 1
              (message (Some 7) None (Some 1)) 7 1 eq_refl
              (or_introl eq_refl) eq_refl eq_refl)
    as (d & topic & c & Hd & _ & Ht & Hid & _ & _ & Hc & Hu & _ & _ & _ & Hn).
  exists d, topic, c. repeat split; try assumption.
  apply Hn. simpl. tauto.
Defined.

(** C10, counterexample to the fallback name for every nameless message:
    the second message of user 7 in topic 1 carries no user name, yet the
    contributor is listed under the name the first message brought, and
    user 7 is counted in [activeUsers]. *)
Lemma C10_named_elsewhere :
  exists d,
    Result.data
      (fst (processTreeLocally sampleHost [] (Some (treeOf halfNamedMessages))
                               channelQuery 1)) = FullData d
    /\ Data.topics d
       = [Topic.mk 1 "Technical Implementation" 2 1 [Contributor.mk 7 "@alice" 2]]
    /\ Data.activeUsers d = 1
    /\ In 7 (namedUserIds (selected channelQuery halfNamedMessages)).
Proof.
  eexists. split; [reflexivity|]. split; [reflexivity|].
  split; [reflexivity|]. now left.
Qed.

(* ================================================================= *)
(** ** The contributor insight *)

Lemma fold_left_sum {A : Type} (f : A -> Z) (l : list A) (a : Z) :
  fold_left (fun s x => s + f x) l a = a + sumZ (map f l).
Proof.
  revert a. induction l as [|x l IH]; simpl; intros a; [lia|].
  rewrite IH. lia.
Qed.

Lemma sumZ_perm (l l' : list Z) : Permutation l l' -> sumZ l = sumZ l'.
Proof.
  induction 1; simpl; lia.
Qed.

Lemma filter_perm_length {A : Type} (f : A -> bool) (l l' : list A) :
  Permutation l l' -> List.length (filter f l) = List.length (filter f l').
Proof.
  induction 1 as [|x l l' H IH|x y l|l l' l'' H1 IH1 H2 IH2]; simpl.
  - reflexivity.
  - destruct (f x); simpl; congruence.
  - destruct (f x), (f y); reflexivity.
  - congruence.
Qed.

Lemma find_unique {A : Type} (key : A -> Z) (l : list A) (x : A) :
  NoDup (map key l) -> In x l ->
  find (fun y => key y =? key x) l = Some x.
Proof.
  induction l as [|a l IH]; simpl; intros Hnd Hin; [contradiction|].
  apply NoDup_cons_iff in Hnd. destruct Hnd as [Hna Hnd].
  destruct Hin as [->|Hin].
  - now rewrite Z.eqb_refl.
  - destruct (Z.eqb_spec (key a) (key x)) as [E|_]; [|auto].
    exfalso. apply Hna. rewrite E. now apply in_map.
Qed.

Lemma contributors_perm (users : list (Z * string)) (m : list (Z * Z)) :
  Permutation (map Contributor.userId (buildContributors users m)) (Map_keys m).
Proof.
  unfold buildContributors. rewrite <- (contributors_userIds users m).
  apply Permutation_map, sort_perm.
Qed.

Lemma contributors_topic_perm (users : list (Z * string)) (t : Z)
  (messages : list Message.t) :
  Permutation
    (map Contributor.userId (buildContributors users (userCountsOf t messages)))
    (first_seen (topicUserIds t messages)).
Proof.
  rewrite <- (Map_keys_tab (fun u => occurrences u (topicUserIds t messages))
                           (first_seen (topicUserIds t messages))).
  apply contributors_perm.
Qed.

Lemma findContributor_topicOf (names : TopicNames) (users : list (Z * string))
  (messages : list Message.t) (t u : Z) :
  match findContributor u (topicOf names users messages t) with
  | Some contributor => Contributor.messageCount contributor
  | None => 0
  end = occurrences u (topicUserIds t messages).
Proof.
  unfold findContributor, topicOf. simpl Topic.contributors.
  set (cs := buildContributors users (userCountsOf t messages)).
  assert (Hp : Permutation (map Contributor.userId cs)
                           (first_seen (topicUserIds t messages))).
  { apply contributors_topic_perm. }
  destruct (in_dec Z.eq_dec u (topicUserIds t messages)) as [Hin|Hnin].
  - set (c := mkContributor users (u, occurrences u (topicUserIds t messages))).
    assert (Hc : In c cs).
    { unfold cs, buildContributors. apply sort_In, in_map_iff.
      exists (u, occurrences u (topicUserIds t messages)).
      split; [reflexivity|]. unfold userCountsOf, tab. apply in_map_iff.
      exists u. split; [reflexivity|]. now apply In_first_seen. }
    assert (Hnd : NoDup (map Contributor.userId cs)).
    { eapply Permutation_NoDup; [symmetry; exact Hp|apply NoDup_first_seen]. }
    replace (find (fun c0 => Contributor.userId c0 =? u) cs) with (Some c);
      [reflexivity|].
    symmetry. exact (find_unique Contributor.userId cs c Hnd Hc).
  - rewrite occurrences_notin by assumption.
    destruct (find _ cs) as [c|] eqn:E; [|reflexivity].
    apply find_some in E. destruct E as [Hc He]. apply Z.eqb_eq in He.
    exfalso. apply Hnin. apply In_first_seen.
    eapply Permutation_in; [exact Hp|]. rewrite <- He. now apply in_map.
Qed.

Lemma isContributor_topicOf (names : TopicNames) (users : list (Z * string))
  (messages : list Message.t) (t u : Z) :
  existsb (fun c => Contributor.userId c =? u)
          (Topic.contributors (topicOf names users messages t))
  = Set_has Z.eqb (topicUserIds t messages) u.
Proof.
  unfold topicOf. simpl Topic.contributors.
  apply eq_true_iff_eq. rewrite Set_has_In, existsb_exists.
  rewrite <- In_first_seen.
  assert (Hp : Permutation
                 (map Contributor.userId
                      (buildContributors users (userCountsOf t messages)))
                 (first_seen (topicUserIds t messages))).
  { apply contributors_topic_perm. }
  split.
  - intros [c [Hc He]]. apply Z.eqb_eq in He. subst u.
    eapply Permutation_in; [exact Hp|]. now apply in_map.
  - intros Hin. eapply Permutation_in in Hin; [|symmetry; exact Hp].
    apply in_map_iff in Hin. destruct Hin as [c [He Hc]].
    exists c. split; [assumption|]. now apply Z.eqb_eq.
Qed.

(** In topic [t], the messages of [u] counted by user are the messages of
    [u] counted by topic. *)
Lemma occurrences_user_topic (u t : Z) (messages : list Message.t) :
  occurrences u (topicUserIds t messages)
  = occurrences t (topicIds (userMessages u messages)).
Proof.
  unfold occurrences, topicUserIds, topicIds, userMessages, keep, inTopic.
  f_equal.
  induction messages as [|m l IH]; simpl; [reflexivity|].
  destruct (realTopic m) as [t'|] eqn:Ht, (anyUser m) as [u'|] eqn:Hu; simpl;
    repeat (rewrite ?Ht, ?Hu; simpl);
    try destruct (Z.eqb_spec t' t); try destruct (Z.eqb_spec u' u);
    simpl; rewrite ?Ht, ?Hu; simpl;
    repeat match goal with
           | |- context [Z.eq_dec ?a ?b] => destruct (Z.eq_dec a b)
           end; try congruence; try lia.
Qed.

Lemma sumZ_indicator (y : Z) (ks : list Z) :
  NoDup ks -> In y ks ->
  sumZ (map (fun t => if Z.eq_dec y t then 1 else 0) ks) = 1.
Proof.
  induction ks as [|k ks IH]; simpl; intros Hnd Hin; [contradiction|].
  apply NoDup_cons_iff in Hnd. destruct Hnd as [Hna Hnd].
  destruct (Z.eq_dec y k) as [->|Hne].
  - assert (H0 : sumZ (map (fun t => if Z.eq_dec k t then 1 else 0) ks) = 0).
    { clear IH Hin Hnd. induction ks as [|a ks IH]; simpl; [reflexivity|].
      destruct (Z.eq_dec k a) as [->|_]; [exfalso; apply Hna; now left|].
      rewrite IH; [reflexivity|]. intros H. apply Hna. now right. }
    lia.
  - rewrite IH; [lia|assumption|]. destruct Hin; [congruence|assumption].
Qed.

Lemma sumZ_add (f g : Z -> Z) (ks : list Z) :
  sumZ (map (fun t => f t + g t) ks) = sumZ (map f ks) + sumZ (map g ks).
Proof.
  induction ks as [|k ks IH]; simpl; lia.
Qed.

Lemma sumZ_occurrences (ys ks : list Z) :
  NoDup ks -> incl ys ks ->
  sumZ (map (fun t => occurrences t ys) ks) = Z.of_nat (List.length ys).
Proof.
  intros Hnd. induction ys as [|y ys IH]; intros Hincl.
  - unfold occurrences. simpl. induction ks; simpl; auto.
    apply NoDup_cons_iff in Hnd. now rewrite IHks.
  - assert (Hy : In y ks) by (apply Hincl; now left).
    assert (Hys : incl ys ks) by (intros x Hx; apply Hincl; now right).
    rewrite (map_ext _ (fun t => occurrences t ys
                                 + (if Z.eq_dec y t then 1 else 0))).
    + rewrite sumZ_add, IH, sumZ_indicator by assumption.
      simpl List.length. lia.
    + intros t. unfold occurrences. simpl.
      destruct (Z.eq_dec y t); lia.
Qed.

Lemma userMessages_topicIds_incl (u : Z) (messages : list Message.t) :
  incl (topicIds (userMessages u messages)) (topicIds messages).
Proof.
  apply keep_incl, incl_filter.
Qed.

Lemma userTotalMessages_spec (names : TopicNames) (users : list (Z * string))
  (messages : list Message.t) (u : Z) :
  userTotalMessages
    (sort byMessageCount
          (map (topicOf names users messages) (first_seen (topicIds messages))))
    u
  = Z.of_nat (List.length (topicIds (userMessages u messages))).
Proof.
  unfold userTotalMessages. rewrite fold_left_sum. simpl.
  rewrite (sumZ_perm _ _ (Permutation_map _ (sort_perm byMessageCount _))).
  rewrite map_map.
  rewrite (map_ext _ (fun t => occurrences t (topicIds (userMessages u messages)))).
  - apply sumZ_occurrences; [apply NoDup_first_seen|].
    intros t Ht. apply In_first_seen. now apply userMessages_topicIds_incl in Ht.
  - intros t. rewrite findContributor_topicOf. apply occurrences_user_topic.
Qed.

Lemma filter_map_comm {A B : Type} (f : B -> bool) (g : A -> B) (l : list A) :
  filter f (map g l) = map g (filter (fun a => f (g a)) l).
Proof.
  induction l as [|a l IH]; simpl; [reflexivity|].
  destruct (f (g a)); simpl; now rewrite IH.
Qed.

Lemma In_user_topic (u t : Z) (messages : list Message.t) :
  In u (topicUserIds t messages) <-> In t (topicIds (userMessages u messages)).
Proof.
  rewrite !occurrences_pos. now rewrite occurrences_user_topic.
Qed.

Lemma userTopicCount_spec (names : TopicNames) (users : list (Z * string))
  (messages : list Message.t) (u : Z) :
  Z.of_nat
    (userTopicCount
       (sort byMessageCount
             (map (topicOf names users messages)
                  (first_seen (topicIds messages))))
       u)
  = distinct (topicIds (userMessages u messages)).
Proof.
  unfold userTopicCount.
  rewrite (filter_perm_length _ _ _ (sort_perm byMessageCount _)).
  rewrite filter_map_comm, length_map.
  rewrite (filter_ext _ (fun t => Set_has Z.eqb (topicUserIds t messages) u))
    by (intros t; apply isContributor_topicOf).
  rewrite <- first_seen_distinct. f_equal. apply Permutation_length.
  apply NoDup_Permutation.
  - apply NoDup_filter, NoDup_first_seen.
  - apply NoDup_first_seen.
  - intros t. rewrite filter_In, !In_first_seen, Set_has_In, In_user_topic.
    split; [tauto|]. intros H. split; [|assumption].
    now apply userMessages_topicIds_incl in H.
Qed.

Lemma processMessages_insights (host : Host.t) (names : TopicNames)
  (messages : list Message.t) (q : QueryData.t) (v : Z) :
  Result.insights (processMessages host names messages q v)
  = generateInsights host names messages
      (sort byMessageCount
            (map (topicOf names (usersOf messages) messages)
                 (first_seen (topicIds messages))))
      (usersOf messages) q.
Proof.
  unfold processMessages. simpl. now rewrite buildTopics_spec.
Qed.

(** When the first topic has a contributor, the insights hold a "Most
    active contributor" entry that names the first contributor of that
    topic and reports the number of that user's selected messages over all
    real topics and the number of distinct real topics of these
    messages. *)
Lemma contributor_totals (host : Host.t) (names : TopicNames)
  (tree : RawTree.t) (all : list Message.t) (q : QueryData.t) (v : Z) :
  RawTree.messages tree = Some all ->
  exists d,
    Result.data (fst (processTreeLocally host names (Some tree) q v)) = FullData d
    /\ forall top c rest,
         Data.mostDiscussedTopic d = Some top ->
         Topic.contributors top = c :: rest ->
         let mine := userMessages (Contributor.userId c) (selected q all) in
         In (str ["Most active contributor: "; Contributor.username c; " (";
                  show_Z (Z.of_nat (List.length (topicIds mine)));
                  " messages across "; show_Z (distinct (topicIds mine));
                  " topics)"])
            (Result.insights (fst (processTreeLocally host names (Some tree) q v))).
Proof.
  intros H. on_messages H.
  rewrite processMessages_data, processMessages_insights.
  eexists. split; [reflexivity|].
  intros top c rest Htop Hc mine. subst mine. simpl in Htop.
  set (msgs := selected q all) in *.
  set (names' := extractTopicNames names tree) in *.
  pose proof (userTotalMessages_spec names' (usersOf msgs) msgs
                                     (Contributor.userId c)) as HN.
  pose proof (userTopicCount_spec names' (usersOf msgs) msgs
                                  (Contributor.userId c)) as HK.
  destruct (sort byMessageCount _) as [|top' others]; [discriminate|].
  injection Htop as ->. unfold generateInsights.
  apply in_or_app. right. apply in_or_app. left.
  rewrite Hc. left. unfold mostActiveInsight, show_nat.
  now rewrite HN, HK.
Qed.

Lemma contributor_totals_witness :
  In "Most active contributor: @alice (2 messages across 1 topics)"
     (Result.insights
        (fst (processTreeLocally sampleHost [] (Some (treeOf spreadMessages))
                                 channelQuery 1))).
Proof.
  destruct (contributor_totals sampleHost [] (treeOf spreadMessages)
              spreadMessages channelQuery 1 eq_refl) as (d & Hd & Hin).
  vm_compute in Hd. injection Hd as <-.
  exact (Hin _ (Contributor.mk 1 "@alice" 2) [Contributor.mk 2 "@bob" 1]
             eq_refl eq_refl).
Defined.

(** C5: the insight names the first contributor of the most discussed
    topic, not the user with the largest total.  Alice leads topic 0 with
    2 of its 3 messages and has no other message; Bob has 5 messages over
    three topics.  The insight is "Most active contributor: @alice (2
    messages across 1 topics)", and no insight names Bob. *)
Theorem C5_leader_of_top_topic_named :
  let insights :=
    Result.insights
      (fst (processTreeLocally sampleHost [] (Some (treeOf spreadMessages))
                               channelQuery 1)) in
  In "Most active contributor: @alice (2 messages across 1 topics)" insights
  /\ existsb (fun line => includes line "bob") insights = false
  /\ List.length (userMessages 1 spreadMessages) = 2%nat
  /\ List.length (userMessages 2 spreadMessages) = 5%nat
  /\ distinct (topicIds (userMessages 1 spreadMessages)) = 1
  /\ distinct (topicIds (userMessages 2 spreadMessages)) = 3.
Proof.
  cbv zeta. split; [vm_compute; do 4 right; now left|].
  repeat split; vm_compute; reflexivity.
Qed.

(* ================================================================= *)
(** ** Further defects, evaluated *)

(** C3: the average printed by the participation insight is not guarded.
    On the tree whose single message has a user id and no user name, the
    user map is empty, the [userEngagement] fields take their guarded
    value 0, and the insight divides 1 by 0 and prints [Infinity]. *)
Theorem C3_participation_average_unguarded :
  exists d,
    Result.data
      (fst (processTreeLocally sampleHost [] (Some namelessTree) channelQuery 1))
    = FullData d
    /\ Data.activeUsers d = 0
    /\ Data.userEngagement d = Engagement.mk (Fin 0) (Fin 0)
    /\ In "0 users actively participating with an average of Infinity messages each"
          (Result.insights
             (fst (processTreeLocally sampleHost [] (Some namelessTree)
                                      channelQuery 1))).
Proof.
  eexists. split; [reflexivity|]. split; [reflexivity|].
  split; [reflexivity|]. right. right. now left.
Qed.

(** C4: the insight reports the first common topic whose difference is
    above 2, not the one with the largest difference.  Alice and Bob share
    topic 1 (4 against 1 messages) and topic 2 (10 against 1): the
    insight names topic 1, whose difference is 3, while topic 2 has 9. *)
Theorem C4_first_difference_reported :
  fold_left collectUserTopic unevenMessages []
  = [("alice", [(1, 4); (2, 10)]); ("bob", [(1, 1); (2, 1)])]
  /\ findCommonTopics [] [(1, 4); (2, 10)] [(1, 1); (2, 1)]
     = [CommonTopic.mk 1 "Technical Implementation" 4 1 3;
        CommonTopic.mk 2 "Community Governance" 10 1 9]
  /\ In (str ["Biggest engagement difference in "; dq;
              "Technical Implementation"; dq;
              ": alice (4 msgs) vs bob (1 msgs)"])
        (Result.insights
           (fst (processTreeLocally sampleHost []
                   (Some (treeOf unevenMessages)) differQuery 1)))
  /\ existsb (fun s => includes s "Community Governance"
                       && includes s "Biggest")%bool
             (Result.insights
                (fst (processTreeLocally sampleHost []
                        (Some (treeOf unevenMessages)) differQuery 1)))
     = false.
Proof.
  split; [reflexivity|]. split; [reflexivity|]. split; [|reflexivity].
  vm_compute. do 7 right. now left.
Qed.

(* ================================================================= *)
(** ** The delta of two versions *)

Lemma Map_set_fresh {V : Type} (m : list (Z * V)) (k : Z) (v : V) :
  ~ In k (Map_keys m) -> Map_set Z.eqb m k v = m ++ [(k, v)].
Proof.
  induction m as [|[a w] m IH]; simpl; intros H; [reflexivity|].
  destruct (Z.eqb_spec a k) as [->|_]; [tauto|].
  rewrite IH; [reflexivity|tauto].
Qed.

Lemma Map_of_NoDup {V : Type} (entries acc : list (Z * V)) :
  NoDup (Map_keys (acc ++ entries)) ->
  fold_left (fun m e => Map_set Z.eqb m (fst e) (snd e)) entries acc
  = acc ++ entries.
Proof.
  revert acc. induction entries as [|[k v] entries IH]; simpl; intros acc H.
  - now rewrite app_nil_r.
  - assert (Hk : ~ In k (Map_keys acc)).
    { unfold Map_keys in *. rewrite map_app in H. simpl in H.
      apply NoDup_remove_2 in H. rewrite in_app_iff in H. tauto. }
    rewrite Map_set_fresh by assumption.
    rewrite IH; rewrite <- app_assoc; [reflexivity|assumption].
Qed.

Lemma topicMap_NoDup (topics : list Topic.t) :
  NoDup (map Topic.id topics) ->
  topicMap topics = map (fun t => (Topic.id t, t)) topics.
Proof.
  intros H. unfold topicMap, Map_of. apply (Map_of_NoDup _ []).
  simpl. unfold Map_keys. rewrite map_map. exact H.
Qed.

Lemma Map_get_topics (topics : list Topic.t) (k : Z) (t : Topic.t) :
  NoDup (map Topic.id topics) ->
  Map_get Z.eqb (map (fun t => (Topic.id t, t)) topics) k = Some t
  <-> In t topics /\ Topic.id t = k.
Proof.
  induction topics as [|a l IH]; simpl; intros Hnd.
  - split; [discriminate|tauto].
  - apply NoDup_cons_iff in Hnd. destruct Hnd as [Hna Hnd].
    destruct (Z.eqb_spec (Topic.id a) k) as [E|Hne].
    + split.
      * intros [= ->]. tauto.
      * intros [[->|Hin] Hk]; [reflexivity|].
        exfalso. apply Hna. rewrite E, <- Hk. now apply in_map.
    + rewrite (IH Hnd). split; [tauto|].
      intros [[->|Hin] Hk]; [contradiction|tauto].
Qed.

Lemma Map_has_topics (topics : list Topic.t) (k : Z) :
  Map_has Z.eqb (map (fun t => (Topic.id t, t)) topics) k = true
  <-> In k (map Topic.id topics).
Proof.
  unfold Map_has.
  destruct (Map_get Z.eqb _ k) eqn:E.
  - split; [intros _|reflexivity].
    destruct (in_dec Z.eq_dec k (map Topic.id topics)) as [Hin|Hnin];
      [assumption|].
    exfalso.
    assert (E' : Map_get Z.eqb (map (fun t => (Topic.id t, t)) topics) k = None).
    { apply Map_get_None. unfold Map_keys. now rewrite map_map. }
    congruence.
  - apply Map_get_None in E. unfold Map_keys in E. rewrite map_map in E.
    simpl in E. split; [discriminate|contradiction].
Qed.

Lemma deltaOfTopics_new (first second : list Topic.t) (t : Topic.t) :
  NoDup (map Topic.id first) -> NoDup (map Topic.id second) ->
  In t (Delta.newTopics (deltaOfTopics first second))
  <-> In t second /\ ~ In (Topic.id t) (map Topic.id first).
Proof.
  intros H1 H2. unfold deltaOfTopics. simpl.
  rewrite (topicMap_NoDup _ H1), (topicMap_NoDup _ H2).
  rewrite in_flat_map. split.
  - intros [[k x] [Hin Hx]]. apply in_map_iff in Hin.
    destruct Hin as [y [[= <- <-] Hy]].
    destruct (Map_has Z.eqb _ (Topic.id y)) eqn:E; simpl in Hx; [contradiction|].
    destruct Hx as [<-|[]]. split; [assumption|].
    rewrite <- Map_has_topics. congruence.
  - intros [Hin Hn]. exists (Topic.id t, t). split.
    + apply in_map_iff. now exists t.
    + rewrite <- Map_has_topics in Hn.
      destruct (Map_has Z.eqb _ (Topic.id t)); [congruence|]. now left.
Qed.

Lemma deltaOfTopics_removed (first second : list Topic.t) (t : Topic.t) :
  NoDup (map Topic.id first) -> NoDup (map Topic.id second) ->
  In t (Delta.removedTopics (deltaOfTopics first second))
  <-> In t first /\ ~ In (Topic.id t) (map Topic.id second).
Proof.
  intros H1 H2. unfold deltaOfTopics. simpl.
  rewrite (topicMap_NoDup _ H1), (topicMap_NoDup _ H2).
  rewrite in_flat_map. split.
  - intros [[k x] [Hin Hx]]. apply in_map_iff in Hin.
    destruct Hin as [y [[= <- <-] Hy]].
    destruct (Map_has Z.eqb _ (Topic.id y)) eqn:E; simpl in Hx; [contradiction|].
    destruct Hx as [<-|[]]. split; [assumption|].
    rewrite <- Map_has_topics. congruence.
  - intros [Hin Hn]. exists (Topic.id t, t). split.
    + apply in_map_iff. now exists t.
    + rewrite <- Map_has_topics in Hn.
      destruct (Map_has Z.eqb _ (Topic.id t)); [congruence|]. now left.
Qed.

Lemma deltaOfTopics_changed (first second : list Topic.t) (c : ChangedTopic.t) :
  NoDup (map Topic.id first) -> NoDup (map Topic.id second) ->
  In c (Delta.changedTopics (deltaOfTopics first second))
  <-> exists t1 t2,
        In t1 first /\ In t2 second /\ Topic.id t1 = Topic.id t2
        /\ Topic.messageCount t1 <> Topic.messageCount t2
        /\ c = ChangedTopic.mk t2
                 (Topic.messageCount t2 - Topic.messageCount t1)
                 (round_percent (Topic.messageCount t2 - Topic.messageCount t1)
                                (Topic.messageCount t1))
                 (Topic.messageCount t1).
Proof.
  intros H1 H2. unfold deltaOfTopics. simpl.
  rewrite (topicMap_NoDup _ H1), (topicMap_NoDup _ H2).
  rewrite in_flat_map. split.
  - intros [[k x] [Hin Hx]]. apply in_map_iff in Hin.
    destruct Hin as [t1 [[= <- <-] Ht1]].
    destruct (Map_get Z.eqb _ (Topic.id t1)) as [t2|] eqn:E; [|contradiction].
    apply (Map_get_topics _ _ _ H2) in E. destruct E as [Ht2 Hid].
    destruct (Z.eqb_spec (Topic.messageCount t1) (Topic.messageCount t2));
      simpl in Hx; [contradiction|].
    destruct Hx as [<-|[]]. exists t1, t2. repeat split; auto.
  - intros (t1 & t2 & Ht1 & Ht2 & Hid & Hne & ->).
    exists (Topic.id t1, t1). split.
    + apply in_map_iff. now exists t1.
    + rewrite (proj2 (Map_get_topics second (Topic.id t1) t2 H2));
        [|split; [assumption|congruence]].
      destruct (Z.eqb_spec (Topic.messageCount t1) (Topic.messageCount t2));
        [contradiction|]. now left.
Qed.

Lemma topics_ids_perm (names : TopicNames) (users : list (Z * string))
  (messages : list Message.t) (ks : list Z) :
  Permutation
    (map Topic.id (sort byMessageCount (map (topicOf names users messages) ks)))
    ks.
Proof.
  transitivity (map Topic.id (map (topicOf names users messages) ks)).
  - apply Permutation_map, sort_perm.
  - rewrite map_map. simpl. now rewrite map_id.
Qed.

Lemma topics_ids_NoDup (names : TopicNames) (users : list (Z * string))
  (messages : list Message.t) :
  NoDup (map Topic.id
             (sort byMessageCount
                   (map (topicOf names users messages)
                        (first_seen (topicIds messages))))).
Proof.
  eapply Permutation_NoDup; [symmetry; apply topics_ids_perm|].
  apply NoDup_first_seen.
Qed.

Lemma topics_ids_In (names : TopicNames) (users : list (Z * string))
  (messages : list Message.t) (k : Z) :
  In k (map Topic.id
            (sort byMessageCount
                  (map (topicOf names users messages)
                       (first_seen (topicIds messages)))))
  <-> In k (topicIds messages).
Proof.
  rewrite <- (In_first_seen k (topicIds messages)).
  split; apply Permutation_in; [|symmetry]; apply topics_ids_perm.
Qed.

Lemma topics_In (names : TopicNames) (users : list (Z * string))
  (messages : list Message.t) (T : Topic.t) :
  In T (sort byMessageCount
             (map (topicOf names users messages)
                  (first_seen (topicIds messages))))
  <-> exists k, In k (topicIds messages) /\ T = topicOf names users messages k.
Proof.
  rewrite sort_In, in_map_iff. split.
  - intros [k [<- Hk]]. exists k. now rewrite <- In_first_seen.
  - intros [k [Hk ->]]. exists k. now rewrite In_first_seen.
Qed.

Lemma NoDup_newTopics (first second : list Topic.t) :
  NoDup (map Topic.id second) ->
  NoDup (map Topic.id first) ->
  NoDup (Delta.newTopics (deltaOfTopics first second)).
Proof.
  intros H2 H1. unfold deltaOfTopics. simpl.
  rewrite (topicMap_NoDup _ H2).
  set (has := Map_has Z.eqb (topicMap first)). clearbody has.
  apply NoDup_map_inv in H2.
  induction second as [|t l IH]; simpl; [constructor|].
  apply NoDup_cons_iff in H2. destruct H2 as [Hn H2].
  destruct (has (Topic.id t)); simpl; [now apply IH|].
  constructor; [|now apply IH].
  intros Hin. apply Hn. apply in_flat_map in Hin.
  destruct Hin as [[k x] [Hx Ht]]. apply in_map_iff in Hx.
  destruct Hx as [y [[= <- <-] Hy]].
  destruct (has (Topic.id y)); simpl in Ht; [contradiction|].
  destruct Ht as [->|[]]. assumption.
Qed.

Lemma singleton_list {A : Type} (l : list A) (y : A) :
  NoDup l -> (forall x, In x l <-> x = y) -> l = [y].
Proof.
  intros Hnd H. destruct l as [|a l].
  - exfalso. apply (H y). reflexivity.
  - assert (a = y) as -> by (apply H; now left).
    apply NoDup_cons_iff in Hnd. destruct Hnd as [Hn _].
    destruct l as [|b l]; [reflexivity|].
    exfalso. apply Hn. assert (b = y) as -> by (apply H; right; now left).
    now left.
Qed.

Lemma empty_list {A : Type} (l : list A) : (forall x, ~ In x l) -> l = [].
Proof.
  destruct l as [|a l]; [reflexivity|]. intros H. exfalso. apply (H a). now left.
Qed.

Lemma topicIds_insert (a b : list Message.t) (m : Message.t) (t : Z) :
  realTopic m = Some t ->
  topicIds (a ++ m :: b) = topicIds a ++ t :: topicIds b.
Proof.
  intros H. unfold topicIds. rewrite keep_app. simpl. now rewrite H.
Qed.

Lemma topicIds_app (a b : list Message.t) :
  topicIds (a ++ b) = topicIds a ++ topicIds b.
Proof. apply keep_app. Qed.

(** One message more, in a topic no earlier message has. *)
Lemma delta_of_added_message (n1 n2 : TopicNames) (u1 u2 : list (Z * string))
  (a b : list Message.t) (m : Message.t) (t : Z) :
  realTopic m = Some t ->
  ~ In t (topicIds (a ++ b)) ->
  let earlier :=
    sort byMessageCount
         (map (topicOf n1 u1 (a ++ b)) (first_seen (topicIds (a ++ b)))) in
  let later :=
    sort byMessageCount
         (map (topicOf n2 u2 (a ++ m :: b))
              (first_seen (topicIds (a ++ m :: b)))) in
  let delta := deltaOfTopics earlier later in
  exists T,
    Delta.newTopics delta = [T]
    /\ Topic.id T = t /\ Topic.messageCount T = 1
    /\ Delta.removedTopics delta = []
    /\ ~ In t (map (fun c => Topic.id (ChangedTopic.topic c))
                   (Delta.changedTopics delta)).
Proof.
  intros Ht Hnew earlier later delta.
  assert (H1 : NoDup (map Topic.id earlier)) by apply topics_ids_NoDup.
  assert (H2 : NoDup (map Topic.id later)) by apply topics_ids_NoDup.
  assert (Hids : forall k, In k (topicIds (a ++ m :: b))
                           <-> k = t \/ In k (topicIds (a ++ b))).
  { intros k. rewrite (topicIds_insert a b m t Ht), topicIds_app.
    rewrite !in_app_iff. simpl. intuition congruence. }
  exists (topicOf n2 u2 (a ++ m :: b) t). repeat split.
  - apply singleton_list; [now apply NoDup_newTopics|].
    intros T. unfold delta. rewrite (deltaOfTopics_new _ _ _ H1 H2).
    unfold earlier, later. rewrite topics_In, topics_ids_In. split.
    + intros [[k [Hk ->]] Hn]. simpl in Hn. apply Hids in Hk.
      destruct Hk as [->|Hk]; [reflexivity|contradiction].
    + intros ->. split; [|exact Hnew].
      exists t. split; [|reflexivity]. apply Hids. now left.
  - simpl. rewrite (topicIds_insert a b m t Ht).
    rewrite topicIds_app, in_app_iff in Hnew.
    unfold occurrences. rewrite count_occ_app. simpl.
    destruct (Z.eq_dec t t); [|congruence].
    rewrite (proj1 (count_occ_not_In Z.eq_dec _ _)) by tauto.
    rewrite (proj1 (count_occ_not_In Z.eq_dec _ _)) by tauto.
    reflexivity.
  - apply empty_list. intros T. unfold delta.
    rewrite (deltaOfTopics_removed _ _ _ H1 H2).
    intros [Hin Hn]. apply Hn. unfold later. apply topics_ids_In, Hids. right.
    apply (topics_ids_In n1 u1). now apply in_map.
  - intros Hin. apply in_map_iff in Hin. destruct Hin as [c [Hid Hc]].
    unfold delta in Hc. apply (deltaOfTopics_changed _ _ _ H1 H2) in Hc.
    destruct Hc as (t1 & t2 & Ht1 & _ & He & _ & ->). simpl in Hid.
    apply Hnew. apply (topics_ids_In n1 u1). fold earlier.
    rewrite <- Hid, <- He. now apply in_map.
Qed.

Lemma topic_by_id (topics : list Topic.t) (x y : Topic.t) :
  NoDup (map Topic.id topics) ->
  In x topics -> In y topics -> Topic.id x = Topic.id y -> x = y.
Proof.
  intros Hnd Hx Hy He.
  assert (Gx : Map_get Z.eqb (map (fun t => (Topic.id t, t)) topics) (Topic.id y)
               = Some x) by (apply Map_get_topics; tauto).
  assert (Gy : Map_get Z.eqb (map (fun t => (Topic.id t, t)) topics) (Topic.id y)
               = Some y) by (apply Map_get_topics; tauto).
  congruence.
Qed.

(** The topic ids of a result of [processTreeLocally] are pairwise
    distinct. *)
Lemma processTreeLocally_topic_ids_NoDup (host : Host.t) (names : TopicNames)
  (tree : RawTree.t) (all : list Message.t) (q : QueryData.t) (v : Z)
  (d : Data.t) :
  RawTree.messages tree = Some all ->
  Result.data (fst (processTreeLocally host names (Some tree) q v)) = FullData d ->
  NoDup (map Topic.id (Data.topics d)).
Proof.
  intros H Hd. rewrite (processTreeLocally_messages _ _ _ _ _ _ H) in Hd.
  simpl fst in Hd. rewrite processMessages_data in Hd.
  injection Hd as <-. simpl. apply topics_ids_NoDup.
Qed.

(** The delta of two results with data puts a topic of the later result
    whose id the earlier one lacks into the new topics, a topic of the
    earlier result whose id the later one lacks into the removed topics,
    and a pair of topics with one id and different message counts into the
    changed topics, with [change = later - earlier] and the percentage as
    [round_percent] computes it; a pair with equal counts goes to none of
    the three lists.  When the later version has one message more, in a
    topic the earlier version lacks, the delta has exactly that topic as
    new, with message count 1, no removed topic, and the topic is not
    among the changed ones. *)
Lemma delta_classification :
  (forall (r1 r2 : Result.t) (d1 d2 : Data.t),
      Result.data r1 = FullData d1 ->
      Result.data r2 = FullData d2 ->
      NoDup (map Topic.id (Data.topics d1)) ->
      NoDup (map Topic.id (Data.topics d2)) ->
      exists delta,
        generateDeltaAnalysis r1 r2 = Some delta
        /\ (forall t,
              In t (Delta.newTopics delta)
              <-> In t (Data.topics d2)
                  /\ ~ In (Topic.id t) (map Topic.id (Data.topics d1)))
        /\ (forall t,
              In t (Delta.removedTopics delta)
              <-> In t (Data.topics d1)
                  /\ ~ In (Topic.id t) (map Topic.id (Data.topics d2)))
        /\ (forall c,
              In c (Delta.changedTopics delta)
              <-> exists t1 t2,
                    In t1 (Data.topics d1) /\ In t2 (Data.topics d2)
                    /\ Topic.id t1 = Topic.id t2
                    /\ Topic.messageCount t1 <> Topic.messageCount t2
                    /\ c = ChangedTopic.mk t2
                             (Topic.messageCount t2 - Topic.messageCount t1)
                             (round_percent
                                (Topic.messageCount t2 - Topic.messageCount t1)
                                (Topic.messageCount t1))
                             (Topic.messageCount t1))
        /\ (forall t1 t2,
              In t1 (Data.topics d1) -> In t2 (Data.topics d2) ->
              Topic.id t1 = Topic.id t2 ->
              Topic.messageCount t1 = Topic.messageCount t2 ->
              ~ In (Topic.id t1) (map Topic.id (Delta.newTopics delta))
              /\ ~ In (Topic.id t1) (map Topic.id (Delta.removedTopics delta))
              /\ ~ In (Topic.id t1)
                      (map (fun c => Topic.id (ChangedTopic.topic c))
                           (Delta.changedTopics delta))))
  /\ (forall (host1 host2 : Host.t) (names1 names2 : TopicNames)
             (tree1 tree2 : RawTree.t) (all1 all2 : list Message.t)
             (q : QueryData.t) (v1 v2 : Z) (a b : list Message.t)
             (m : Message.t) (t : Z),
         RawTree.messages tree1 = Some all1 ->
         RawTree.messages tree2 = Some all2 ->
         selected q all1 = a ++ b ->
         selected q all2 = a ++ m :: b ->
         realTopic m = Some t ->
         ~ In t (topicIds (a ++ b)) ->
         exists delta T,
           generateDeltaAnalysis
             (fst (processTreeLocally host1 names1 (Some tree1) q v1))
             (fst (processTreeLocally host2 names2 (Some tree2) q v2))
           = Some delta
           /\ Delta.newTopics delta = [T]
           /\ Topic.id T = t /\ Topic.messageCount T = 1
           /\ Delta.removedTopics delta = []
           /\ ~ In t (map (fun c => Topic.id (ChangedTopic.topic c))
                          (Delta.changedTopics delta))).
Proof.
  split.
  - intros r1 r2 d1 d2 Hd1 Hd2 H1 H2.
    exists (deltaOfTopics (Data.topics d1) (Data.topics d2)).
    split; [unfold generateDeltaAnalysis; now rewrite Hd1, Hd2|].
    split; [intros t; now apply deltaOfTopics_new|].
    split; [intros t; now apply deltaOfTopics_removed|].
    split; [intros c; now apply deltaOfTopics_changed|].
    intros t1 t2 Ht1 Ht2 Hid Hcount. repeat split.
    + intros Hin. apply in_map_iff in Hin. destruct Hin as [x [Hx Hin]].
      apply (deltaOfTopics_new _ _ _ H1 H2) in Hin. destruct Hin as [_ Hn].
      apply Hn. rewrite Hx. now apply in_map.
    + intros Hin. apply in_map_iff in Hin. destruct Hin as [x [Hx Hin]].
      apply (deltaOfTopics_removed _ _ _ H1 H2) in Hin. destruct Hin as [_ Hn].
      apply Hn. rewrite Hx, Hid. now apply in_map.
    + intros Hin. apply in_map_iff in Hin. destruct Hin as [c [Hc Hin]].
      apply (deltaOfTopics_changed _ _ _ H1 H2) in Hin.
      destruct Hin as (x1 & x2 & Hx1 & Hx2 & Hxid & Hne & ->). simpl in Hc.
      assert (x2 = t2) by (apply (topic_by_id _ _ _ H2); congruence).
      assert (x1 = t1) by (apply (topic_by_id _ _ _ H1); congruence).
      subst. contradiction.
  - intros host1 host2 names1 names2 tree1 tree2 all1 all2 q v1 v2 a b m t
           Hm1 Hm2 Hs1 Hs2 Ht Hnew.
    rewrite (processTreeLocally_messages _ _ _ _ _ _ Hm1).
    rewrite (processTreeLocally_messages _ _ _ _ _ _ Hm2). simpl fst.
    unfold generateDeltaAnalysis. rewrite !processMessages_data.
    rewrite Hs1, Hs2. simpl Data.topics.
    destruct (delta_of_added_message
                (extractTopicNames names1 tree1) (extractTopicNames names2 tree2)
                (usersOf (a ++ b)) (usersOf (a ++ m :: b)) a b m t Ht Hnew)
      as (T & HT).
    eexists. exists T. split; [reflexivity|]. exact HT.
Qed.

Lemma delta_classification_witness :
  (exists delta,
      generateDeltaAnalysis
        (fst (processTreeLocally sampleHost [] (Some (treeOf earlierMessages))
                                 channelQuery 1))
        (fst (processTreeLocally sampleHost [] (Some (treeOf laterMessages))
                                 channelQuery 2))
      = Some delta
      /\ (forall t, In t (Delta.newTopics delta) -> Topic.id t = 42))
  /\ (exists delta T,
        generateDeltaAnalysis
          (fst (processTreeLocally sampleHost [] (Some (treeOf earlierMessages))
                                   channelQuery 1))
          (fst (processTreeLocally sampleHost [] (Some (treeOf laterMessages))
                                   channelQuery 2))
        = Some delta
        /\ Delta.newTopics delta = [T]
        /\ Topic.id T = 42 /\ Topic.messageCount T = 1
        /\ Delta.removedTopics delta = []
        /\ ~ In 42 (map (fun c => Topic.id (ChangedTopic.topic c))
                        (Delta.changedTopics delta))).
Proof.
  split.
  - destruct (proj1 delta_classification
                (fst (processTreeLocally sampleHost []
                        (Some (treeOf earlierMessages)) channelQuery 1))
                (fst (processTreeLocally sampleHost []
                        (Some (treeOf laterMessages)) channelQuery 2))
                _ _ eq_refl eq_refl)
      as (delta & Hdelta & Hnew & _).
    + vm_compute. repeat constructor; simpl; intuition discriminate.
    + vm_compute. repeat constructor; simpl; intuition discriminate.
    + exists delta. split; [assumption|].
      intros t Ht. apply Hnew in Ht. destruct Ht as [Hin Hn].
      vm_compute in Hin. vm_compute in Hn.
      destruct Hin as [<-|[<-|[<-|[]]]]; try reflexivity;
        exfalso; apply Hn; simpl; tauto.
  - apply (proj2 delta_classification sampleHost sampleHost [] []
             (treeOf earlierMessages) (treeOf laterMessages)
             earlierMessages laterMessages channelQuery 1 2
             earlierMessages [] newcomer 42); try reflexivity.
    simpl. intuition discriminate.
Defined.

(** C6: the percentage of a changed topic misses the rounded value at a
    half.  A topic that grows from 40 to 63 messages changes by 23, which
    is 57.5 percent of 40 and rounds to 58; the delta reports 57, because
    the quotient 23 / 40 is rounded to a binary fraction before it is
    multiplied by 100.  [Math.round] of the one quotient 2300 / 40, which
    is how the averages of the result are computed, gives 58. *)
Theorem C6_percent_misses_the_half :
  exists grown,
    generateDeltaAnalysis
      (fst (processTreeLocally sampleHost [] (Some (treeOf (crowd 40)))
                               channelQuery 1))
      (fst (processTreeLocally sampleHost [] (Some (treeOf (crowd 63)))
                               channelQuery 2))
    = Some (Delta.mk [] [] [ChangedTopic.mk grown 23 (Fin 57) 40])
    /\ Topic.id grown = 1
    /\ Topic.messageCount grown = 63
    /\ 2 * (100 * 23) = 115 * 40
    /\ exactPercent 23 40 = 58
    /\ round_div (100 * 23) 40 = Fin 58.
Proof.
  eexists. split; [vm_compute; reflexivity|]. repeat split; reflexivity.
Qed.

(* ================================================================= *)
(** ** Repeated runs *)

Lemma Map_get_set {V : Type} (m : list (Z * V)) (k k' : Z) (v : V) :
  Map_get Z.eqb (Map_set Z.eqb m k v) k'
  = if k =? k' then Some v else Map_get Z.eqb m k'.
Proof.
  induction m as [|[a w] m IH]; simpl.
  - reflexivity.
  - destruct (Z.eqb_spec a k) as [->|Hne]; simpl.
    + destruct (k =? k'); reflexivity.
    + rewrite IH. destruct (Z.eqb_spec a k'), (Z.eqb_spec k k');
        try reflexivity. congruence.
Qed.

Lemma set_topic_name_get (names : TopicNames) (e : Z * option TopicDef.t) (k : Z) :
  Map_get Z.eqb (set_topic_name names e) k
  = match entryName e with
    | Some (k', n) => if k' =? k then Some n else Map_get Z.eqb names k
    | None => Map_get Z.eqb names k
    end.
Proof.
  destruct e as [topicId [td|]]; simpl; [|reflexivity].
  destruct (TopicDef.name td) as [n|], (TopicDef.title td) as [ti|];
    try destruct (truthy_str n); try destruct (truthy_str ti);
    try reflexivity; apply Map_get_set.
Qed.

Lemma extract_get (entries : list (Z * option TopicDef.t)) (names : TopicNames)
  (k : Z) :
  Map_get Z.eqb (fold_left set_topic_name entries names) k
  = lastName entries k (Map_get Z.eqb names k).
Proof.
  unfold lastName. revert names.
  induction entries as [|e entries IH]; simpl; intros names; [reflexivity|].
  rewrite IH, set_topic_name_get.
  destruct (entryName e) as [[k' n]|]; reflexivity.
Qed.

Lemma lastName_base (entries : list (Z * option TopicDef.t)) (k : Z)
  (base : option string) :
  lastName entries k base
  = match lastName entries k None with Some n => Some n | None => base end.
Proof.
  unfold lastName. revert base.
  induction entries as [|e entries IH]; simpl; intros base; [reflexivity|].
  destruct (entryName e) as [[k' n]|]; [|apply IH].
  destruct (k' =? k); [|apply IH].
  rewrite (IH (Some n)).
  now destruct (fold_left _ entries None).
Qed.

(** Extracting the names of one tree twice changes no lookup. *)
Lemma extractTopicNames_again (names : TopicNames) (tree : RawTree.t) :
  names_agree (extractTopicNames (extractTopicNames names tree) tree)
              (extractTopicNames names tree).
Proof.
  intros k. unfold extractTopicNames.
  destruct (RawTree.topics tree) as [entries|]; [|reflexivity].
  rewrite !extract_get.
  rewrite (lastName_base entries k (lastName entries k _)).
  rewrite (lastName_base entries k (Map_get Z.eqb names k)).
  now destruct (lastName entries k None).
Qed.

Lemma getTopicName_agree (n1 n2 : TopicNames) (k : Z) :
  names_agree n1 n2 -> getTopicName n1 k = getTopicName n2 k.
Proof.
  intros H. unfold getTopicName. now rewrite (H k).
Qed.

Lemma buildTopics_agree (n1 n2 : TopicNames) (users : list (Z * string))
  (acc : TopicAcc.t) :
  names_agree n1 n2 -> buildTopics n1 users acc = buildTopics n2 users acc.
Proof.
  intros H. unfold buildTopics. f_equal. apply map_ext.
  intros [t c]. unfold mkTopic. now rewrite (getTopicName_agree n1 n2 t H).
Qed.

Lemma findCommonTopics_agree (n1 n2 : TopicNames) (m1 m2 : list (Z * Z)) :
  names_agree n1 n2 -> findCommonTopics n1 m1 m2 = findCommonTopics n2 m1 m2.
Proof.
  intros H. unfold findCommonTopics. apply flat_map_ext.
  intros [t c]. now rewrite (getTopicName_agree n1 n2 t H).
Qed.

Lemma analyzeUserDisagreements_agree (n1 n2 : TopicNames)
  (messages : list Message.t) (topics : list Topic.t)
  (users : list (Z * string)) (question : string) :
  names_agree n1 n2 ->
  analyzeUserDisagreements n1 messages topics users question
  = analyzeUserDisagreements n2 messages topics users question.
Proof.
  intros H. unfold analyzeUserDisagreements.
  destruct (filter _ (Map_values users)) as [|user1 [|user2 rest]];
    try reflexivity.
  rewrite (findCommonTopics_agree n1 n2 _ _ H).
  destruct (findCommonTopics n2 _ _); [reflexivity|].
  f_equal. f_equal.
  destruct (sort byEntryCount _) as [|f1 ?]; [reflexivity|].
  destruct (sort byEntryCount _) as [|f2 ?]; [reflexivity|].
  now rewrite !(getTopicName_agree n1 n2 _ H).
Qed.

Lemma generateInsights_agree (host : Host.t) (n1 n2 : TopicNames)
  (messages : list Message.t) (topics : list Topic.t)
  (users : list (Z * string)) (q : QueryData.t) :
  names_agree n1 n2 ->
  generateInsights host n1 messages topics users q
  = generateInsights host n2 messages topics users q.
Proof.
  intros H. unfold generateInsights. destruct topics as [|top rest];
    [reflexivity|].
  f_equal. f_equal. unfold querySpecificInsights.
  repeat match goal with
         | |- (if ?c then _ else _) = (if ?c then _ else _) => destruct c
         end; try reflexivity.
  destruct (QueryData.customQuestion q) as [cq|]; [|reflexivity].
  destruct (truthy_str cq); [|reflexivity]. f_equal.
  unfold generateCustomQueryInsights.
  repeat match goal with
         | |- (if ?c then _ else _) = (if ?c then _ else _) => destruct c
         end; try reflexivity.
  now apply analyzeUserDisagreements_agree.
Qed.

(** The result but for its time stamp. *)
Lemma processMessages_agree (host : Host.t) (now : string) (n1 n2 : TopicNames)
  (messages : list Message.t) (q : QueryData.t) (v : Z) :
  names_agree n1 n2 ->
  processMessages (later_host host now) n1 messages q v
  = Result.mk
      (Result.summary (processMessages host n2 messages q v))
      (Result.data (processMessages host n2 messages q v))
      (Result.insights (processMessages host n2 messages q v))
      (Metadata.mk v now (QueryData.type q) "local" false).
Proof.
  intros H. unfold processMessages. simpl.
  rewrite (buildTopics_agree n1 n2 _ _ H).
  f_equal. now apply (generateInsights_agree host).
Qed.

(** C7 (up to the time stamp): a run and its repetition, started on the
    name cache the first run left behind, return results that agree on
    the summary, on the data, on the insights and on every metadata field
    but the time stamp, which is the reading of the clock at each call;
    and [generateInsights] does not read the clock. *)
Theorem C7_repeatable_but_for_the_clock (host : Host.t) (names : TopicNames)
  (treeData : option RawTree.t) (q : QueryData.t) (v : Z) (now : string) :
  let first := processTreeLocally host names treeData q v in
  let again := processTreeLocally (later_host host now) (snd first) treeData q v in
  Result.summary (fst again) = Result.summary (fst first)
  /\ Result.data (fst again) = Result.data (fst first)
  /\ Result.insights (fst again) = Result.insights (fst first)
  /\ Metadata.version (Result.metadata (fst again))
     = Metadata.version (Result.metadata (fst first))
  /\ Metadata.queryType (Result.metadata (fst again))
     = Metadata.queryType (Result.metadata (fst first))
  /\ Metadata.processingMethod (Result.metadata (fst again))
     = Metadata.processingMethod (Result.metadata (fst first))
  /\ Metadata.enhanced (Result.metadata (fst again))
     = Metadata.enhanced (Result.metadata (fst first))
  /\ Metadata.timestamp (Result.metadata (fst again)) = now
  /\ Metadata.timestamp (Result.metadata (fst first)) = Host.nowISO host
  /\ forall messages topics users,
       generateInsights (later_host host now) (snd first) messages topics users q
       = generateInsights host (snd first) messages topics users q.
Proof.
  intros first again. subst first again. unfold processTreeLocally.
  destruct treeData as [tree|]; [|simpl; repeat split; reflexivity].
  destruct (RawTree.messages tree) as [all|];
    [|simpl; repeat split; reflexivity].
  cbv zeta. simpl fst. simpl snd.
  rewrite (processMessages_agree host now _ _ _ q v
             (extractTopicNames_again names tree)).
  simpl. repeat split; reflexivity.
Qed.

(** C7, counterexample to identical output: the results of two runs on
    one input differ when the clock has moved between them. *)
Lemma C7_clock_in_result :
  fst (processTreeLocally sampleHost [] (Some namelessTree) channelQuery 1)
  <> fst (processTreeLocally (later_host sampleHost "2025-09-12T10:00:01.000Z")
                             [] (Some namelessTree) channelQuery 1).
Proof.
  intros H.
  apply (f_equal (fun r => Metadata.timestamp (Result.metadata r))) in H.
  vm_compute in H. discriminate H.
Qed.

(* ================================================================= *)
(** ** The scenarios of the specification, evaluated *)

(** Rounding is done on binary64 numbers: 29/200 is below 0.145. *)
Example rounding_samples :
  round_div 3 2 = Fin 2 /\ round_div 7 2 = Fin 4 /\ round_div 10 3 = Fin 3
  /\ round_div 1 0 = PosInf /\ round_div 0 0 = NaN
  /\ round_percent 1 8 = Fin 13 /\ round_percent (-1) 8 = Fin (-12)
  /\ round_percent 29 200 = Fin 14.
Proof.
  repeat split; reflexivity.
Qed.

Example parseInt_samples :
  parseInt "451032731" = Some 451032731 /\ parseInt " -12px" = Some (-12)
  /\ parseInt "0x1F" = Some 31 /\ parseInt "abc" = None
  /\ parseInt EmptyString = None.
Proof.
  repeat split; reflexivity.
Qed.

(** Messages m1 (alice, topic 0), m2 (bob, topic 0), m3 (alice, topic 1). *)
Example round_trip_scenario :
  exists d,
    Result.data
      (fst (processTreeLocally sampleHost []
              (Some (treeOf [ message (Some 1) (Some "alice") (Some 0);
                              message (Some 2) (Some "bob") (Some 0);
                              message (Some 1) (Some "alice") (Some 1) ]))
              channelQuery 1)) = FullData d
    /\ Data.messageCount d = 3 /\ Data.topicCount d = 2
    /\ Data.activeUsers d = 2
    /\ Data.topics d
       = [ Topic.mk 0 "General Discussion" 2 2
                    [Contributor.mk 1 "@alice" 1; Contributor.mk 2 "@bob" 1];
           Topic.mk 1 "Technical Implementation" 1 1
                    [Contributor.mk 1 "@alice" 1] ].
Proof.
  eexists. repeat split; reflexivity.
Qed.

(** Alice and Bob in disjoint topics. *)
Example disagreement_scenario :
  In "Users alice and bob have not participated in the same topic discussions"
     (Result.insights
        (fst (processTreeLocally sampleHost []
                (Some (treeOf [ message (Some 1) (Some "alice") (Some 0);
                                message (Some 2) (Some "bob") (Some 1) ]))
                (QueryData.mk "custom_query" []
                   (Some "How do @alice and @bob differ in topic preferences?"))
                1))).
Proof.
  vm_compute. do 6 right. now left.
Qed.

(** Names found in the tree win over the fallback table, and stay in the
    cache. *)
Example topic_names_scenario :
  let tree :=
    RawTree.mk (Some [message (Some 1) (Some "alice") (Some 3)])
               (Some [(3, Some (TopicDef.mk None (Some "Roadmap")))]) in
  let run := processTreeLocally sampleHost [] (Some tree) channelQuery 1 in
  snd run = [(3, "Roadmap")]
  /\ getTopicName (snd run) 3 = "Roadmap"
  /\ getTopicName (snd run) 4 = "Product Features"
  /\ getTopicName (snd run) 42 = "Topic 42".
Proof.
  repeat split; reflexivity.
Qed.

(* ================================================================= *)
(** ** What the aggregated numbers count *)

Lemma keep_length_le {A B : Type} (f : A -> option B) (l : list A) :
  (List.length (keep f l) <= List.length l)%nat.
Proof.
  unfold keep. induction l as [|a l IH]; simpl; [lia|].
  rewrite length_app. destruct (f a); simpl; lia.
Qed.

Lemma distinct_le_length (l : list Z) : distinct l <= Z.of_nat (List.length l).
Proof.
  rewrite <- first_seen_distinct. apply inj_le.
  apply NoDup_incl_length; [apply NoDup_first_seen|].
  intros x. apply In_first_seen.
Qed.

Lemma distinct_nonneg (l : list Z) : 0 <= distinct l.
Proof. unfold distinct. lia. Qed.

Lemma occurrences_in_topic (t : Z) (messages : list Message.t) :
  occurrences t (topicIds messages)
  = Z.of_nat (List.length (filter (inTopic t) messages)).
Proof.
  unfold occurrences, topicIds, keep, inTopic. f_equal.
  induction messages as [|m l IH]; simpl; [reflexivity|].
  destruct (realTopic m) as [t'|]; simpl; [|exact IH].
  destruct (Z.eq_dec t' t) as [->|Hne].
  - rewrite Z.eqb_refl. simpl. now rewrite IH.
  - destruct (Z.eqb_spec t' t); [contradiction|exact IH].
Qed.

Lemma sumZ_first_seen_occurrences (l : list Z) :
  sumZ (map (fun k => occurrences k l) (first_seen l)) = Z.of_nat (List.length l).
Proof.
  apply sumZ_occurrences; [apply NoDup_first_seen|].
  intros x. apply In_first_seen.
Qed.

Lemma contributors_of_topic (names : TopicNames) (users : list (Z * string))
  (messages : list Message.t) (t : Z) (c : Contributor.t) :
  In c (Topic.contributors (topicOf names users messages t)) ->
  In (Contributor.userId c) (topicUserIds t messages)
  /\ Contributor.messageCount c
     = occurrences (Contributor.userId c) (topicUserIds t messages).
Proof.
  unfold topicOf, buildContributors. simpl Topic.contributors.
  intros H. apply sort_In, in_map_iff in H.
  destruct H as [[u n] [<- Hin]]. unfold userCountsOf, tab in Hin.
  apply in_map_iff in Hin. destruct Hin as [k [[= <- <-] Hk]].
  simpl. split; [now apply In_first_seen|reflexivity].
Qed.

(** X1: the topic list has one entry for each real topic id of the
    selected messages and no other; the message count of an entry is the
    number of selected messages that carry its id, which is at least 1,
    and its name is the name the cache resolves after the names of the
    tree are taken in. *)
Theorem topics_count_their_messages (host : Host.t) (names : TopicNames)
  (tree : RawTree.t) (all : list Message.t) (q : QueryData.t) (v : Z) :
  RawTree.messages tree = Some all ->
  exists d,
    Result.data (fst (processTreeLocally host names (Some tree) q v)) = FullData d
    /\ NoDup (map Topic.id (Data.topics d))
    /\ (forall k, In k (map Topic.id (Data.topics d))
                  <-> In k (topicIds (selected q all)))
    /\ (forall t,
          In t (Data.topics d) ->
          Topic.messageCount t
          = Z.of_nat (List.length (filter (inTopic (Topic.id t)) (selected q all)))
          /\ 1 <= Topic.messageCount t
          /\ Topic.name t
             = getTopicName (extractTopicNames names tree) (Topic.id t)).
Proof.
  intros H. destruct (topics_of_result host names tree all q v H)
    as (d & Hd & _ & _ & Ht).
  exists d. split; [assumption|]. rewrite Ht.
  split; [apply topics_ids_NoDup|]. split; [intros k; apply topics_ids_In|].
  intros t Hin. apply topics_In in Hin. destruct Hin as [k [Hk ->]]. simpl.
  rewrite <- occurrences_in_topic. split; [reflexivity|].
  split; [|reflexivity]. apply occurrences_pos in Hk. lia.
Qed.

Lemma topics_count_their_messages_witness :
  exists d,
    Result.data
      (fst (processTreeLocally sampleHost [] (Some (treeOf tiedMessages))
                               channelQuery 1)) = FullData d
    /\ NoDup (map Topic.id (Data.topics d))
    /\ (forall k, In k (map Topic.id (Data.topics d))
                  <-> In k (topicIds (selected channelQuery tiedMessages))).
Proof.
  destruct (topics_count_their_messages sampleHost [] (treeOf tiedMessages)
              tiedMessages channelQuery 1 eq_refl) as (d & Hd & Hn & Hk & _).
  exists d. repeat split; try assumption; apply Hk.
Defined.

(** X2: in every topic each truthy user id of the topic's messages is
    listed once as a contributor and no other id is; a contributor's
    message count is the number of the topic's messages under that id,
    at least 1, and [contributorCount] is the number of distinct truthy
    user ids among the topic's messages. *)
Theorem contributors_count_their_messages (host : Host.t) (names : TopicNames)
  (tree : RawTree.t) (all : list Message.t) (q : QueryData.t) (v : Z) :
  RawTree.messages tree = Some all ->
  exists d,
    Result.data (fst (processTreeLocally host names (Some tree) q v)) = FullData d
    /\ forall t,
         In t (Data.topics d) ->
         let ids := topicUserIds (Topic.id t) (selected q all) in
         NoDup (map Contributor.userId (Topic.contributors t))
         /\ (forall u, In u (map Contributor.userId (Topic.contributors t))
                       <-> In u ids)
         /\ Topic.contributorCount t = distinct ids
         /\ forall c,
              In c (Topic.contributors t) ->
              Contributor.messageCount c = occurrences (Contributor.userId c) ids
              /\ 1 <= Contributor.messageCount c.
Proof.
  intros H. destruct (topics_of_result host names tree all q v H)
    as (d & Hd & _ & _ & Ht).
  exists d. split; [assumption|]. rewrite Ht.
  intros t Hin ids. apply topics_In in Hin. destruct Hin as [k [Hk ->]].
  subst ids. simpl Topic.id.
  pose proof (contributors_topic_perm (usersOf (selected q all)) k
                                      (selected q all)) as Hp.
  unfold topicOf. simpl Topic.contributors. simpl Topic.contributorCount.
  split; [|split; [|split]].
  - eapply Permutation_NoDup; [symmetry; exact Hp|apply NoDup_first_seen].
  - intros u. rewrite <- (In_first_seen u (topicUserIds k (selected q all))).
    split; apply Permutation_in; [|symmetry]; exact Hp.
  - rewrite <- first_seen_distinct. f_equal.
    rewrite <- (length_map Contributor.userId).
    now apply Permutation_length.
  - intros c Hc.
    destruct (contributors_of_topic (extractTopicNames names tree)
                (usersOf (selected q all)) (selected q all) k c Hc) as [Hu Hm].
    split; [assumption|]. rewrite Hm. apply occurrences_pos in Hu. lia.
Qed.

Lemma contributors_count_their_messages_witness :
  exists d,
    Result.data
      (fst (processTreeLocally sampleHost [] (Some (treeOf tiedMessages))
                               channelQuery 1)) = FullData d
    /\ forall t, In t (Data.topics d) ->
                 NoDup (map Contributor.userId (Topic.contributors t)).
Proof.
  destruct (contributors_count_their_messages sampleHost []
              (treeOf tiedMessages) tiedMessages channelQuery 1 eq_refl)
    as (d & Hd & Hc).
  exists d. split; [assumption|]. intros t Ht. apply (Hc t Ht).
Defined.

(** X3: the message counts of the topics add up to the number of selected
    messages with a real topic, which is at most [messageCount]; and in
    every topic the message counts of the contributors add up to the
    number of the topic's messages with a truthy user id, which is at most
    the message count of the topic. *)
Theorem counts_add_up (host : Host.t) (names : TopicNames)
  (tree : RawTree.t) (all : list Message.t) (q : QueryData.t) (v : Z) :
  RawTree.messages tree = Some all ->
  exists d,
    Result.data (fst (processTreeLocally host names (Some tree) q v)) = FullData d
    /\ sumZ (map Topic.messageCount (Data.topics d))
       = Z.of_nat (List.length (topicIds (selected q all)))
    /\ sumZ (map Topic.messageCount (Data.topics d)) <= Data.messageCount d
    /\ forall t,
         In t (Data.topics d) ->
         sumZ (map Contributor.messageCount (Topic.contributors t))
         = Z.of_nat (List.length (topicUserIds (Topic.id t) (selected q all)))
         /\ sumZ (map Contributor.messageCount (Topic.contributors t))
            <= Topic.messageCount t.
Proof.
  intros H. destruct (topics_of_result host names tree all q v H)
    as (d & Hd & Hcount & _ & Ht).
  exists d. split; [assumption|]. rewrite Ht, Hcount.
  set (msgs := selected q all).
  assert (Hsum :
    sumZ (map Topic.messageCount
              (sort byMessageCount
                    (map (topicOf (extractTopicNames names tree) (usersOf msgs) msgs)
                         (first_seen (topicIds msgs)))))
    = Z.of_nat (List.length (topicIds msgs))).
  { rewrite (sumZ_perm _ _ (Permutation_map _ (sort_perm byMessageCount _))).
    rewrite map_map. simpl. apply sumZ_first_seen_occurrences. }
  split; [exact Hsum|]. split.
  - rewrite Hsum. apply inj_le, keep_length_le.
  - intros t Hin. apply topics_In in Hin. destruct Hin as [k [Hk ->]].
    unfold topicOf. simpl. unfold buildContributors.
    rewrite (sumZ_perm _ _ (Permutation_map _ (sort_perm byContributorCount _))).
    rewrite map_map. unfold userCountsOf, tab. rewrite map_map. simpl.
    rewrite sumZ_first_seen_occurrences. split; [reflexivity|].
    rewrite occurrences_in_topic. apply inj_le. unfold topicUserIds.
    apply keep_length_le.
Qed.

Lemma counts_add_up_witness :
  exists d,
    Result.data
      (fst (processTreeLocally sampleHost [] (Some (treeOf spreadMessages))
                               channelQuery 1)) = FullData d
    /\ sumZ (map Topic.messageCount (Data.topics d)) = 7
    /\ sumZ (map Topic.messageCount (Data.topics d)) <= Data.messageCount d.
Proof.
  destruct (counts_add_up sampleHost [] (treeOf spreadMessages) spreadMessages
                          channelQuery 1 eq_refl) as (d & Hd & Hs & Hle & _).
  exists d. repeat split; assumption.
Defined.

(* ================================================================= *)
(** ** The leading topics *)

Lemma descending_head {A : Type} (key : A -> Z) (x : A) (l : list A) :
  descending key (x :: l) -> forall y, In y (x :: l) -> key y <= key x.
Proof.
  intros Hs y [<-|Hy]; [lia|].
  apply StronglySorted_inv in Hs. destruct Hs as [_ Hall].
  rewrite Forall_forall in Hall. now apply Hall.
Qed.




(** X5: there are never more topics or more active users than selected
    messages, and no count is negative. *)
Theorem counts_bounded_by_messages (host : Host.t) (names : TopicNames)
  (tree : RawTree.t) (all : list Message.t) (q : QueryData.t) (v : Z) :
  RawTree.messages tree = Some all ->
  exists d,
    Result.data (fst (processTreeLocally host names (Some tree) q v)) = FullData d
    /\ 0 <= Data.topicCount d <= Data.messageCount d
    /\ 0 <= Data.activeUsers d <= Data.messageCount d
    /\ Data.messageCount d <= Z.of_nat (List.length all).
Proof.
  intros H. on_messages H. rewrite processMessages_data.
  eexists. split; [reflexivity|].
  rewrite topicCount_spec, activeUsers_spec. simpl Data.messageCount.
  repeat split; try apply distinct_nonneg.
  - etransitivity; [apply distinct_le_length|]. apply inj_le, keep_length_le.
  - etransitivity; [apply distinct_le_length|]. unfold namedUserIds.
    rewrite length_map. apply inj_le, keep_length_le.
  - apply inj_le, filterMessages_length.
Qed.

Lemma counts_bounded_by_messages_witness :
  exists d,
    Result.data
      (fst (processTreeLocally sampleHost [] (Some (treeOf spreadMessages))
                               channelQuery 1)) = FullData d
    /\ 0 <= Data.topicCount d <= Data.messageCount d
    /\ 0 <= Data.activeUsers d <= Data.messageCount d
    /\ Data.messageCount d <= Z.of_nat (List.length spreadMessages).
Proof.
  apply (counts_bounded_by_messages sampleHost [] (treeOf spreadMessages)
           spreadMessages channelQuery 1).
  reflexivity.
Defined.

(** X6: when no selected message has a real topic, the result has no
    topic and the single insight "No topics identified in the conversation
    data", even for a custom query; otherwise the insights start with the
    four lines on the most discussed topic, the number of topics, the
    participation and the engagement per topic. *)
Theorem insights_without_topics (host : Host.t) (names : TopicNames)
  (tree : RawTree.t) (all : list Message.t) (q : QueryData.t) (v : Z) :
  RawTree.messages tree = Some all ->
  let r := fst (processTreeLocally host names (Some tree) q v) in
  (topicIds (selected q all) = [] ->
   Result.insights r = ["No topics identified in the conversation data"]
   /\ Result.summary r
      = str ["Users discussing 0 topics with ";
             show_nat (List.length (selected q all)); " total messages"])
  /\ (topicIds (selected q all) <> [] ->
      exists top rest more,
        Result.data r
        = FullData (buildData (selected q all)
                              (fold_left collectUser (selected q all) UserAcc.empty)
                              (top :: rest))
        /\ Result.insights r
           = str ["Most discussed: "; dq; Topic.name top; dq; " with ";
                  show_Z (Topic.messageCount top); " messages from ";
                  show_Z (Topic.contributorCount top); " contributors"]
             :: str [show_nat (S (List.length rest));
                     " distinct topics identified across all conversations"]
             :: str [show_Z (Map_size (usersOf (selected q all)));
                     " users actively participating with an average of ";
                     show_num (round_div
                                 (Z.of_nat (List.length (selected q all)))
                                 (Map_size (usersOf (selected q all))));
                     " messages each"]
             :: str ["Topic engagement: Average ";
                     show_num (round_div
                                 (Z.of_nat (List.length (selected q all)))
                                 (Z.of_nat (S (List.length rest))));
                     " messages per topic"]
             :: more).
Proof.
  intros H r. subst r. on_messages H.
  rewrite processMessages_data, processMessages_insights.
  unfold processMessages. simpl Result.summary. rewrite buildTopics_spec.
  set (msgs := selected q all).
  set (topics := sort byMessageCount _).
  assert (Hlen : List.length topics = List.length (first_seen (topicIds msgs))).
  { unfold topics. now rewrite sort_length, length_map. }
  split.
  - intros Hnil. rewrite Hnil in Hlen. simpl in Hlen.
    destruct topics; [|discriminate]. split; reflexivity.
  - intros Hne. destruct topics as [|top rest].
    + destruct (topicIds msgs); [congruence|discriminate].
    + exists top, rest. eexists. split; [reflexivity|].
      unfold generateInsights, show_nat. simpl List.length.
      reflexivity.
Qed.

Lemma insights_without_topics_witness :
  Result.insights
    (fst (processTreeLocally sampleHost []
            (Some (treeOf [message (Some 1) (Some "alice") (Some (-1));
                           message (Some 2) (Some "bob") None]))
            differQuery 1))
  = ["No topics identified in the conversation data"].
Proof.
  apply (insights_without_topics sampleHost []
           (treeOf [message (Some 1) (Some "alice") (Some (-1));
                    message (Some 2) (Some "bob") None])
           _ differQuery 1 eq_refl).
  reflexivity.
Defined.

(* ================================================================= *)
(** ** The name cache *)

Lemma lastName_absent (entries : list (Z * option TopicDef.t)) (k : Z)
  (base : option string) :
  ~ In k (map fst entries) -> lastName entries k base = base.
Proof.
  unfold lastName. revert base.
  induction entries as [|[k' td] entries IH]; cbn [fold_left map fst In];
    intros base H; [reflexivity|].
  rewrite IH by tauto.
  assert (Hne : k' <> k) by tauto.
  destruct (entryName (k', td)) as [[k'' n]|] eqn:E; [|reflexivity].
  assert (k'' = k').
  { unfold entryName in E. destruct td as [td|]; [|discriminate].
    destruct (TopicDef.name td) as [a|], (TopicDef.title td) as [b|];
      try destruct (truthy_str a); try destruct (truthy_str b);
      congruence. }
  subst. destruct (Z.eqb_spec k' k); [contradiction|reflexivity].
Qed.

Lemma entryName_key (k : Z) (td : option TopicDef.t) (k' : Z) (n : string) :
  entryName (k, td) = Some (k', n) -> k' = k /\ truthy_str n = true.
Proof.
  unfold entryName. destruct td as [td|]; [|discriminate].
  destruct (TopicDef.name td) as [a|], (TopicDef.title td) as [b|];
    try destruct (truthy_str a) eqn:Ea; try destruct (truthy_str b) eqn:Eb;
    intros [= <- <-]; auto.
Qed.

Lemma lastName_unique (entries : list (Z * option TopicDef.t)) (k : Z)
  (td : option TopicDef.t) (base : option string) :
  NoDup (map fst entries) -> In (k, td) entries ->
  lastName entries k base
  = match entryName (k, td) with
    | Some (_, n) => Some n
    | None => base
    end.
Proof.
  unfold lastName. revert base.
  induction entries as [|[k' td'] entries IH]; cbn [fold_left map fst In];
    intros base Hnd Hin; [contradiction|].
  apply NoDup_cons_iff in Hnd. destruct Hnd as [Hn Hnd].
  destruct Hin as [[= -> ->]|Hin].
  - fold (lastName entries k
            (match entryName (k, td) with
             | Some (k'0, n) => if k'0 =? k then Some n else base
             | None => base
             end)).
    rewrite lastName_absent by assumption.
    destruct (entryName (k, td)) as [[k'' n]|] eqn:E; [|reflexivity].
    apply entryName_key in E. destruct E as [-> _]. now rewrite Z.eqb_refl.
  - assert (Hne : k' <> k).
    { intros ->. apply Hn. now apply (in_map fst) in Hin. }
    rewrite (IH _ Hnd Hin).
    destruct (entryName (k, td)) as [[? n]|]; [reflexivity|].
    destruct (entryName (k', td')) as [[k'' n']|] eqn:E; [|reflexivity].
    apply entryName_key in E. destruct E as [-> _].
    destruct (Z.eqb_spec k' k); [contradiction|reflexivity].
Qed.

(** X7: taking in the topic names of a tree never drops a cached name
    and leaves the ids the tree does not list as they are; for a tree that
    lists each id once, an id gets the [name] of its entry when that is a
    non-empty string, else its [title] when that is one, and else keeps
    what the cache had. *)
Theorem extractTopicNames_lookup (names : TopicNames) (tree : RawTree.t)
  (k : Z) :
  (RawTree.topics tree = None -> extractTopicNames names tree = names)
  /\ (Map_has Z.eqb names k = true ->
      Map_has Z.eqb (extractTopicNames names tree) k = true)
  /\ (forall entries,
        RawTree.topics tree = Some entries ->
        (~ In k (map fst entries) ->
         Map_get Z.eqb (extractTopicNames names tree) k = Map_get Z.eqb names k)
        /\ forall td,
             NoDup (map fst entries) -> In (k, td) entries ->
             Map_get Z.eqb (extractTopicNames names tree) k
             = match td with
               | Some (TopicDef.mk (Some n) title) =>
                   if truthy_str n then Some n
                   else match title with
                        | Some ti => if truthy_str ti then Some ti
                                     else Map_get Z.eqb names k
                        | None => Map_get Z.eqb names k
                        end
               | Some (TopicDef.mk None (Some ti)) =>
                   if truthy_str ti then Some ti else Map_get Z.eqb names k
               | _ => Map_get Z.eqb names k
               end).
Proof.
  unfold extractTopicNames. split; [|split].
  - now intros ->.
  - unfold Map_has. destruct (RawTree.topics tree) as [entries|]; [|auto].
    rewrite extract_get, lastName_base.
    destruct (lastName entries k None); [reflexivity|auto].
  - intros entries ->. split.
    + intros Hk. rewrite extract_get. now apply lastName_absent.
    + intros td Hnd Hin. rewrite extract_get.
      rewrite (lastName_unique entries k td _ Hnd Hin).
      destruct td as [[[n|] [ti|]]|]; simpl;
        try destruct (truthy_str n); try destruct (truthy_str ti); reflexivity.
Qed.

Lemma extractTopicNames_lookup_witness :
  Map_get Z.eqb (extractTopicNames [(3, "Old")] renamingTree) 3 = Some "Roadmap".
Proof.
  refine (proj2 (proj2 (proj2 (extractTopicNames_lookup [(3, "Old")]
                                 renamingTree 3))
                   [(3, Some (TopicDef.mk (Some EmptyString) (Some "Roadmap")));
                    (4, Some (TopicDef.mk None None))]
                   eq_refl)
            (Some (TopicDef.mk (Some EmptyString) (Some "Roadmap"))) _ _).
  - repeat constructor; simpl; intuition discriminate.
  - now left.
Defined.

Lemma topics_count_their_names (host : Host.t) (names : TopicNames)
  (tree : RawTree.t) (all : list Message.t) (q : QueryData.t) (v : Z) :
  RawTree.messages tree = Some all ->
  forall d t,
    Result.data (fst (processTreeLocally host names (Some tree) q v)) = FullData d ->
    In t (Data.topics d) ->
    Topic.name t = getTopicName (extractTopicNames names tree) (Topic.id t)
    /\ In (Topic.id t) (topicIds (selected q all)).
Proof.
  intros H d t Hd Hin.
  destruct (topics_of_result host names tree all q v H) as (d' & Hd' & _ & _ & Ht).
  rewrite Hd in Hd'. injection Hd' as <-. rewrite Ht in Hin.
  apply topics_In in Hin. destruct Hin as [k [Hk ->]]. now split.
Qed.

Lemma extractTopicNames_all_named (names : TopicNames) (tree : RawTree.t) :
  all_named names -> all_named (extractTopicNames names tree).
Proof.
  unfold all_named, extractTopicNames. intros Hn k n.
  destruct (RawTree.topics tree) as [entries|]; [|apply Hn].
  rewrite extract_get. unfold lastName.
  generalize (Map_get Z.eqb names k) (Hn k).
  induction entries as [|[k' td] entries IH]; cbn [fold_left];
    intros base Hbase; [apply Hbase|].
  apply IH. destruct (entryName (k', td)) as [[k'' n']|] eqn:E; [|exact Hbase].
  apply entryName_key in E. destruct E as [-> Ht].
  destruct (k' =? k); [|exact Hbase]. now intros ? [= <-].
Qed.

Lemma getTopicName_nonempty (names : TopicNames) (k : Z) :
  all_named names -> truthy_str (getTopicName names k) = true.
Proof.
  intros Hn. unfold getTopicName.
  destruct (Map_get Z.eqb names k) as [n|] eqn:E; [now apply (Hn k)|].
  destruct (Map_get Z.eqb fallbackNames k) as [n|] eqn:F.
  - unfold fallbackNames in F. simpl in F.
    repeat match type of F with
           | (if ?c then _ else _) = _ => destruct c; [now inversion F|]
           end.
    discriminate.
  - reflexivity.
Qed.

(** X8: in a session whose name cache holds non-empty names only, as the
    empty cache of a new session does, every run leaves such a cache
    behind and every topic of its result has a non-empty name. *)
Theorem topic_names_never_empty (host : Host.t) (names : TopicNames)
  (treeData : option RawTree.t) (q : QueryData.t) (v : Z) :
  all_named names ->
  all_named (snd (processTreeLocally host names treeData q v))
  /\ (forall k,
        truthy_str (getTopicName (snd (processTreeLocally host names treeData q v)) k)
        = true)
  /\ forall d t,
       Result.data (fst (processTreeLocally host names treeData q v)) = FullData d ->
       In t (Data.topics d) -> truthy_str (Topic.name t) = true.
Proof.
  intros Hn.
  assert (Hs : all_named (snd (processTreeLocally host names treeData q v))).
  { unfold processTreeLocally. destruct treeData as [tree|]; [|exact Hn].
    destruct (RawTree.messages tree); [|exact Hn].
    now apply extractTopicNames_all_named. }
  split; [exact Hs|]. split; [intros k; now apply getTopicName_nonempty|].
  intros d t Hd Hin. destruct treeData as [tree|]; [|discriminate].
  destruct (RawTree.messages tree) as [all|] eqn:Hm.
  - destruct (topics_count_their_names host names tree all q v Hm d t Hd Hin)
      as [-> _].
    apply getTopicName_nonempty. now apply extractTopicNames_all_named.
  - unfold processTreeLocally in Hd. rewrite Hm in Hd. discriminate.
Qed.

Lemma topic_names_never_empty_witness :
  truthy_str
    (getTopicName
       (snd (processTreeLocally sampleHost [] (Some renamingTree)
                                channelQuery 1)) 4) = true.
Proof.
  refine (proj1 (proj2 (topic_names_never_empty sampleHost []
                          (Some renamingTree) channelQuery 1 _)) 4).
  intros k n H. discriminate H.
Defined.

(* ================================================================= *)
(** ** More on the delta of two versions *)

Lemma Set_add_NoDup (ks : list Z) (k : Z) :
  NoDup ks -> NoDup (Set_add Z.eqb ks k).
Proof.
  intros H. unfold Set_add. destruct (Set_has Z.eqb ks k) eqn:E; [assumption|].
  apply NoDup_app; [assumption|repeat constructor; auto|].
  intros x Hx [<-|[]]. apply Set_has_In in Hx. congruence.
Qed.

Lemma Map_of_keys_NoDup {V : Type} (entries : list (Z * V)) :
  NoDup (Map_keys (Map_of Z.eqb entries)).
Proof.
  unfold Map_of.
  assert (H : forall acc : list (Z * V), NoDup (Map_keys acc) ->
              NoDup (Map_keys
                       (fold_left (fun m e => Map_set Z.eqb m (fst e) (snd e))
                                  entries acc))).
  { induction entries as [|e entries IH]; simpl; intros acc Hacc; [assumption|].
    apply IH. rewrite Map_keys_set. now apply Set_add_NoDup. }
  apply H. constructor.
Qed.

Lemma Map_get_In {V : Type} (m : list (Z * V)) (k : Z) (v : V) :
  NoDup (Map_keys m) -> In (k, v) m -> Map_get Z.eqb m k = Some v.
Proof.
  induction m as [|[a w] m IH]; simpl; intros Hnd Hin; [contradiction|].
  apply NoDup_cons_iff in Hnd. destruct Hnd as [Hn Hnd].
  destruct Hin as [[= -> ->]|Hin]; [now rewrite Z.eqb_refl|].
  destruct (Z.eqb_spec a k) as [->|_]; [|auto].
  exfalso. apply Hn. unfold Map_keys. now apply (in_map fst) in Hin.
Qed.

Lemma flat_map_nil {A B : Type} (f : A -> list B) (l : list A) :
  (forall a, In a l -> f a = []) -> flat_map f l = [].
Proof.
  induction l as [|a l IH]; simpl; intros H; [reflexivity|].
  rewrite (H a) by now left. apply IH. intros b Hb. apply H. now right.
Qed.

(** X9: the delta of a result with itself is empty: no new topic, no
    removed topic, no changed topic, whatever its topic list is. *)
Theorem delta_with_itself (r : Result.t) (d : Data.t) :
  Result.data r = FullData d ->
  generateDeltaAnalysis r r = Some (Delta.mk [] [] []).
Proof.
  intros H. unfold generateDeltaAnalysis. rewrite H. f_equal.
  unfold deltaOfTopics.
  set (m := topicMap (Data.topics d)).
  assert (Hnd : NoDup (Map_keys m)) by apply Map_of_keys_NoDup.
  assert (Hget : forall k t, In (k, t) m -> Map_get Z.eqb m k = Some t)
    by (intros k t; now apply Map_get_In).
  f_equal; apply flat_map_nil; intros [k t] Hin;
    unfold Map_has; rewrite (Hget k t Hin); simpl; try reflexivity.
  now rewrite Z.eqb_refl.
Qed.

Lemma delta_with_itself_witness :
  generateDeltaAnalysis
    (fst (processTreeLocally sampleHost [] (Some (treeOf tiedMessages))
                             channelQuery 1))
    (fst (processTreeLocally sampleHost [] (Some (treeOf tiedMessages))
                             channelQuery 1))
  = Some (Delta.mk [] [] []).
Proof.
  eapply delta_with_itself. reflexivity.
Defined.

(** X10: exchanging the two versions exchanges the new and the removed
    topics, and turns every changed topic into the changed topic of the
    other version with the opposite change. *)
Theorem delta_exchanged (first second : list Topic.t) :
  Delta.newTopics (deltaOfTopics first second)
  = Delta.removedTopics (deltaOfTopics second first)
  /\ Delta.removedTopics (deltaOfTopics first second)
     = Delta.newTopics (deltaOfTopics second first)
  /\ (NoDup (map Topic.id first) -> NoDup (map Topic.id second) ->
      forall c,
        In c (Delta.changedTopics (deltaOfTopics first second)) ->
        exists c',
          In c' (Delta.changedTopics (deltaOfTopics second first))
          /\ Topic.id (ChangedTopic.topic c') = Topic.id (ChangedTopic.topic c)
          /\ ChangedTopic.change c' = - ChangedTopic.change c
          /\ ChangedTopic.previousCount c'
             = Topic.messageCount (ChangedTopic.topic c)
          /\ Topic.messageCount (ChangedTopic.topic c')
             = ChangedTopic.previousCount c).
Proof.
  split; [reflexivity|]. split; [reflexivity|].
  intros H1 H2 c Hc. apply (deltaOfTopics_changed _ _ _ H1 H2) in Hc.
  destruct Hc as (t1 & t2 & Ht1 & Ht2 & Hid & Hne & ->).
  eexists. split.
  - apply (deltaOfTopics_changed _ _ _ H2 H1).
    exists t2, t1. repeat split; auto.
  - simpl. repeat split; auto. lia.
Qed.

Lemma delta_exchanged_witness :
  exists c c',
    In c (Delta.changedTopics
            (deltaOfTopics [Topic.mk 1 "a" 2 0 []] [Topic.mk 1 "a" 5 0 []]))
    /\ In c' (Delta.changedTopics
                (deltaOfTopics [Topic.mk 1 "a" 5 0 []] [Topic.mk 1 "a" 2 0 []]))
    /\ ChangedTopic.change c' = - ChangedTopic.change c.
Proof.
  assert (Hc : exists c,
             In c (Delta.changedTopics
                     (deltaOfTopics [Topic.mk 1 "a" 2 0 []]
                                    [Topic.mk 1 "a" 5 0 []]))).
  { eexists. vm_compute. left. reflexivity. }
  destruct Hc as [c Hc].
  destruct (proj2 (proj2 (delta_exchanged [Topic.mk 1 "a" 2 0 []]
                                          [Topic.mk 1 "a" 5 0 []]))
              ltac:(repeat constructor; simpl; tauto)
              ltac:(repeat constructor; simpl; tauto) c Hc)
    as (c' & Hin & _ & Hch & _).
  exists c, c'. repeat split; assumption.
Defined.

Lemma flat_map_if_length {A B : Type} (p : A -> bool) (g : A -> B) (l : list A) :
  List.length (flat_map (fun x => if p x then [g x] else []) l)
  = List.length (filter p l).
Proof.
  induction l as [|a l IH]; simpl; [reflexivity|].
  destruct (p a); simpl; now rewrite IH.
Qed.

Lemma filter_split_length {A : Type} (p : A -> bool) (l : list A) :
  List.length l
  = (List.length (filter p l) + List.length (filter (fun x => negb (p x)) l))%nat.
Proof.
  induction l as [|a l IH]; simpl; [reflexivity|].
  destruct (p a); simpl; lia.
Qed.

Lemma common_topics_length (first second : list Topic.t) :
  NoDup (map Topic.id first) -> NoDup (map Topic.id second) ->
  List.length
    (filter (fun t => Set_has Z.eqb (map Topic.id second) (Topic.id t)) first)
  = List.length
      (filter (fun t => Set_has Z.eqb (map Topic.id first) (Topic.id t)) second).
Proof.
  intros H1 H2.
  rewrite <- (length_map Topic.id (filter _ first)).
  rewrite <- (length_map Topic.id (filter _ second)).
  apply Permutation_length, NoDup_Permutation.
  - rewrite <- (filter_map_comm (fun k => Set_has Z.eqb (map Topic.id second) k)).
    now apply NoDup_filter.
  - rewrite <- (filter_map_comm (fun k => Set_has Z.eqb (map Topic.id first) k)).
    now apply NoDup_filter.
  - intros k.
    rewrite <- (filter_map_comm (fun k => Set_has Z.eqb (map Topic.id second) k)).
    rewrite <- (filter_map_comm (fun k => Set_has Z.eqb (map Topic.id first) k)).
    rewrite !filter_In, !Set_has_In. tauto.
Qed.

Lemma Map_has_Set_has (topics : list Topic.t) (k : Z) :
  Map_has Z.eqb (map (fun t => (Topic.id t, t)) topics) k
  = Set_has Z.eqb (map Topic.id topics) k.
Proof.
  apply eq_true_iff_eq. rewrite Map_has_topics, Set_has_In. reflexivity.
Qed.

Lemma new_topics_length (first second : list Topic.t) :
  NoDup (map Topic.id first) -> NoDup (map Topic.id second) ->
  List.length (Delta.newTopics (deltaOfTopics first second))
  = List.length
      (filter (fun t => negb (Set_has Z.eqb (map Topic.id first) (Topic.id t)))
              second).
Proof.
  intros H1 H2. unfold deltaOfTopics. simpl.
  rewrite (topicMap_NoDup _ H1), (topicMap_NoDup _ H2).
  rewrite flat_map_concat_map, map_map, <- flat_map_concat_map.
  rewrite (flat_map_ext _
             (fun t => if negb (Set_has Z.eqb (map Topic.id first) (Topic.id t))
                       then [t] else [])).
  - apply flat_map_if_length.
  - intros t. now rewrite Map_has_Set_has.
Qed.

(** X11: for two topic lists without repeated ids, the number of new
    topics less the number of removed topics is the number of topics of
    the later list less that of the earlier one. *)
Theorem delta_accounts_for_topic_count (first second : list Topic.t) :
  NoDup (map Topic.id first) -> NoDup (map Topic.id second) ->
  Z.of_nat (List.length (Delta.newTopics (deltaOfTopics first second)))
  - Z.of_nat (List.length (Delta.removedTopics (deltaOfTopics first second)))
  = Z.of_nat (List.length second) - Z.of_nat (List.length first).
Proof.
  intros H1 H2.
  assert (Hr : Delta.removedTopics (deltaOfTopics first second)
               = Delta.newTopics (deltaOfTopics second first)) by reflexivity.
  rewrite Hr, (new_topics_length _ _ H1 H2), (new_topics_length _ _ H2 H1).
  pose proof (filter_split_length
                (fun t => Set_has Z.eqb (map Topic.id first) (Topic.id t)) second).
  pose proof (filter_split_length
                (fun t => Set_has Z.eqb (map Topic.id second) (Topic.id t)) first).
  pose proof (common_topics_length first second H1 H2).
  lia.
Qed.

Lemma delta_accounts_for_topic_count_witness :
  Z.of_nat (List.length
              (Delta.newTopics
                 (deltaOfTopics [Topic.mk 1 "a" 2 0 []]
                                [Topic.mk 1 "a" 5 0 []; Topic.mk 2 "b" 1 0 []])))
  - Z.of_nat (List.length
                (Delta.removedTopics
                   (deltaOfTopics [Topic.mk 1 "a" 2 0 []]
                                  [Topic.mk 1 "a" 5 0 []; Topic.mk 2 "b" 1 0 []])))
  = Z.of_nat 2 - Z.of_nat 1.
Proof.
  apply (delta_accounts_for_topic_count
           [Topic.mk 1 "a" 2 0 []]
           [Topic.mk 1 "a" 5 0 []; Topic.mk 2 "b" 1 0 []]);
    repeat constructor; simpl; intuition discriminate.
Defined.

Lemma result_topic_positive (host : Host.t) (names : TopicNames)
  (tree : RawTree.t) (all : list Message.t) (q : QueryData.t) (v : Z)
  (d : Data.t) (t : Topic.t) :
  RawTree.messages tree = Some all ->
  Result.data (fst (processTreeLocally host names (Some tree) q v)) = FullData d ->
  In t (Data.topics d) -> 1 <= Topic.messageCount t.
Proof.
  intros H Hd Hin.
  destruct (topics_of_result host names tree all q v H) as (d' & Hd' & _ & _ & Ht).
  rewrite Hd in Hd'. injection Hd' as <-. rewrite Ht in Hin.
  apply topics_In in Hin. destruct Hin as [k [Hk ->]]. simpl.
  apply occurrences_pos in Hk. lia.
Qed.

(** X12: in the delta of two results of [processTreeLocally] every changed
    topic has a previous count and a present count of at least 1, so that
    the percentage is never taken of a zero count, and its change is the
    non-zero difference of the two. *)
Theorem changed_topics_divide_by_positive_counts
  (host1 host2 : Host.t) (names1 names2 : TopicNames)
  (tree1 tree2 : RawTree.t) (all1 all2 : list Message.t)
  (q1 q2 : QueryData.t) (v1 v2 : Z) :
  RawTree.messages tree1 = Some all1 ->
  RawTree.messages tree2 = Some all2 ->
  exists delta,
    generateDeltaAnalysis
      (fst (processTreeLocally host1 names1 (Some tree1) q1 v1))
      (fst (processTreeLocally host2 names2 (Some tree2) q2 v2)) = Some delta
    /\ forall c,
         In c (Delta.changedTopics delta) ->
         1 <= ChangedTopic.previousCount c
         /\ 1 <= Topic.messageCount (ChangedTopic.topic c)
         /\ ChangedTopic.change c
            = Topic.messageCount (ChangedTopic.topic c)
              - ChangedTopic.previousCount c
         /\ ChangedTopic.change c <> 0
         /\ ChangedTopic.changePercent c
            = round_percent (ChangedTopic.change c)
                            (ChangedTopic.previousCount c).
Proof.
  intros H1 H2.
  destruct (topics_of_result host1 names1 tree1 all1 q1 v1 H1)
    as (d1 & Hd1 & _ & _ & Ht1).
  destruct (topics_of_result host2 names2 tree2 all2 q2 v2 H2)
    as (d2 & Hd2 & _ & _ & Ht2).
  exists (deltaOfTopics (Data.topics d1) (Data.topics d2)).
  split; [unfold generateDeltaAnalysis; now rewrite Hd1, Hd2|].
  intros c Hc.
  assert (N1 : NoDup (map Topic.id (Data.topics d1)))
    by (rewrite Ht1; apply topics_ids_NoDup).
  assert (N2 : NoDup (map Topic.id (Data.topics d2)))
    by (rewrite Ht2; apply topics_ids_NoDup).
  apply (deltaOfTopics_changed _ _ _ N1 N2) in Hc.
  destruct Hc as (t1 & t2 & Hin1 & Hin2 & _ & Hne & ->). simpl.
  pose proof (result_topic_positive host1 names1 tree1 all1 q1 v1 d1 t1 H1 Hd1 Hin1).
  pose proof (result_topic_positive host2 names2 tree2 all2 q2 v2 d2 t2 H2 Hd2 Hin2).
  repeat split; try assumption; try reflexivity. lia.
Qed.

Lemma changed_topics_divide_by_positive_counts_witness :
  exists delta,
    generateDeltaAnalysis
      (fst (processTreeLocally sampleHost [] (Some (treeOf tiedMessages))
                               channelQuery 1))
      (fst (processTreeLocally sampleHost [] (Some (treeOf spreadMessages))
                               channelQuery 2)) = Some delta
    /\ forall c, In c (Delta.changedTopics delta) ->
                 1 <= ChangedTopic.previousCount c.
Proof.
  destruct (changed_topics_divide_by_positive_counts sampleHost sampleHost [] []
              (treeOf tiedMessages) (treeOf spreadMessages)
              tiedMessages spreadMessages channelQuery channelQuery 1 2
              eq_refl eq_refl) as (delta & Hd & Hc).
  exists delta. split; [assumption|]. intros c Hin. apply (Hc c Hin).
Defined.

(** X13: [generateDeltaAnalysis] throws on two results of
    [processTreeLocally] exactly when one of the two trees has no message
    mapping; the results of two trees with messages are always compared. *)
Theorem delta_throws_without_messages
  (host1 host2 : Host.t) (names1 names2 : TopicNames)
  (tree1 tree2 : RawTree.t) (q1 q2 : QueryData.t) (v1 v2 : Z) :
  generateDeltaAnalysis
    (fst (processTreeLocally host1 names1 (Some tree1) q1 v1))
    (fst (processTreeLocally host2 names2 (Some tree2) q2 v2)) = None
  <-> RawTree.messages tree1 = None \/ RawTree.messages tree2 = None.
Proof.
  unfold generateDeltaAnalysis, processTreeLocally.
  destruct (RawTree.messages tree1) as [all1|],
           (RawTree.messages tree2) as [all2|]; simpl;
    split; intros H; try discriminate; try reflexivity; auto;
    destruct H; discriminate.
Qed.

(* ================================================================= *)
(** ** User ids through the check boxes *)

Lemma parse_digits_acc (d : uint) (acc : positive) :
  parse_digits 10 (NilEmpty.string_of_uint d) (Some (Z.pos acc))
  = Some (Z.pos (Pos.of_uint_acc d acc)).
Proof.
  revert acc. induction d; intros acc; cbn [NilEmpty.string_of_uint Pos.of_uint_acc];
    [reflexivity| | | | | | | | | |];
    match goal with
    | |- _ = Some (Z.pos (Pos.of_uint_acc d ?b)) =>
        rewrite <- IHd; remember b as next eqn:Hnext
    end;
    cbn [parse_digits]; cbv [digit_val]; simpl;
    match goal with
    | |- parse_digits _ _ (Some ?a) = _ =>
        replace a with (Z.pos next) by lia
    end; reflexivity.
Qed.

Lemma parse_digits_zero (d : uint) :
  parse_digits 10 (NilEmpty.string_of_uint d) (Some 0)
  = Some (Z.of_N (Pos.of_uint d)).
Proof.
  induction d; cbn [NilEmpty.string_of_uint Pos.of_uint];
    [reflexivity|exact IHd| | | | | | | | |];
    cbn [parse_digits]; cbv [digit_val]; simpl; apply parse_digits_acc.
Qed.

Lemma parse_digits_start (d : uint) :
  d <> Nil ->
  parse_digits 10 (NilEmpty.string_of_uint d) None
  = parse_digits 10 (NilEmpty.string_of_uint d) (Some 0).
Proof.
  destruct d; intros H; [contradiction| | | | | | | | | |]; reflexivity.
Qed.

Lemma parseInt_digits (d : uint) :
  d <> Nil ->
  parseInt (NilEmpty.string_of_uint d)
  = option_map (Z.mul 1) (parse_digits 10 (NilEmpty.string_of_uint d) None)
  /\ parseInt (String "-" (NilEmpty.string_of_uint d))
     = option_map (Z.mul (-1)) (parse_digits 10 (NilEmpty.string_of_uint d) None).
Proof.
  intros H. unfold parseInt.
  destruct d as [|d|d|d|d|d|d|d|d|d|d]; [contradiction| | | | | | | | | |];
    destruct d; split; cbn [NilEmpty.string_of_uint trimStart];
    cbv [is_blank]; simpl; try destruct (parse_digits _ _ _); reflexivity.
Qed.

Lemma to_uint_not_Nil (p : positive) : Pos.to_uint p <> Nil.
Proof.
  intros H. pose proof (DecimalPos.Unsigned.of_to p) as E.
  rewrite H in E. discriminate E.
Qed.

Lemma parseInt_show_Z (z : Z) : parseInt (show_Z z) = Some z.
Proof.
  unfold show_Z. destruct z as [|p|p]; [reflexivity| |];
    cbn [Z.to_int NilZero.string_of_int];
    pose proof (to_uint_not_Nil p) as Hn;
    unfold NilZero.string_of_uint;
    destruct (Pos.to_uint p) eqn:E; try contradiction; rewrite <- E in *;
    destruct (parseInt_digits (Pos.to_uint p) Hn) as [Hp Hm];
    rewrite ?Hp, ?Hm, parse_digits_start, parse_digits_zero by assumption;
    rewrite DecimalPos.Unsigned.of_to; reflexivity.
Qed.

Lemma parseInt_checkboxValues (chosen : list (Z * string)) :
  map parseInt (map checkboxValue chosen) = map Some (map fst chosen).
Proof.
  rewrite !map_map. apply map_ext. intros user. apply parseInt_show_Z.
Qed.

Lemma includes_id_Some (ids : list Z) (uid : option Z) :
  includes_id (map Some ids) uid
  = match uid with
    | Some u => existsb (Z.eqb u) ids
    | None => false
    end.
Proof.
  destruct uid as [u|]; [|reflexivity]. simpl.
  induction ids as [|k ids IH]; simpl; [reflexivity|].
  now rewrite IH, (Z.eqb_sym k u).
Qed.

(** X14: with "All Users" ticked, or with no user box ticked, the query
    that [buildQueryData] builds selects every message of a tree; with
    the boxes of some users ticked, whose values are their ids written in
    decimal, it selects exactly the messages whose [fromUserId] is one of
    these ids, in the order of the tree. *)
Theorem ticked_users_select_their_messages (st : UiState.t) (form : Form.t)
  (now : string) (all : list Message.t) :
  (Form.allUsersChecked form = true \/ Form.checkedUsers form = [] ->
   selected (FullQuery.query (buildQueryData st form now)) all = all)
  /\ forall chosen : list (Z * string),
       Form.allUsersChecked form = false ->
       Form.checkedUsers form = map checkboxValue chosen ->
       chosen <> [] ->
       Forall (fun user => Z.abs (fst user) < 10 ^ 21) chosen ->
       selected (FullQuery.query (buildQueryData st form now)) all
       = filter (fun m =>
                   match Message.fromUserId m with
                   | Some u => existsb (Z.eqb u) (map fst chosen)
                   | None => false
                   end)
                all.
Proof.
  unfold selected, buildQueryData. simpl. split.
  - intros [->| ->]; [reflexivity|]. now destruct (Form.allUsersChecked form).
  - intros chosen -> -> Hne _.
    destruct chosen as [|user rest]; [congruence|].
    unfold filterMessages.
    change (map checkboxValue (user :: rest))
      with (checkboxValue user :: map checkboxValue rest).
    cbv iota.
    change (checkboxValue user :: map checkboxValue rest)
      with (map checkboxValue (user :: rest)).
    rewrite parseInt_checkboxValues. apply filter_ext.
    intros m. apply includes_id_Some.
Qed.

Lemma ticked_users_select_their_messages_witness :
  selected
    (FullQuery.query
       (buildQueryData freshUi
          (Form.mk "channel_query" false (map checkboxValue [(2, "bob")]) None)
          "2025-09-12T10:00:00.000Z"))
    tiedMessages
  = [ message (Some 2) (Some "bob") (Some 0);
      message (Some 2) (Some "bob") (Some 2) ].
Proof.
  rewrite (proj2 (ticked_users_select_their_messages
                    freshUi
                    (Form.mk "channel_query" false
                             (map checkboxValue [(2, "bob")]) None)
                    "2025-09-12T10:00:00.000Z" tiedMessages)
             [(2, "bob")] eq_refl eq_refl).
  - reflexivity.
  - discriminate.
  - repeat constructor.
Defined.

Lemma selected_ids (q : QueryData.t) (all : list Message.t) (m : Message.t) :
  QueryData.users q <> [] ->
  In m (selected q all) ->
  exists u, Message.fromUserId m = Some u
            /\ In u (keep (fun x => x) (map parseInt (QueryData.users q))).
Proof.
  unfold selected, filterMessages. intros Hne Hin.
  destruct (QueryData.users q) as [|s rest]; [congruence|].
  apply filter_In in Hin. destruct Hin as [_ Hin].
  unfold includes_id in Hin. destruct (Message.fromUserId m) as [u|];
    [|discriminate].
  exists u. split; [reflexivity|]. apply existsb_exists in Hin.
  destruct Hin as [[x|] [Hx He]]; [|discriminate].
  apply Z.eqb_eq in He. subst x. unfold keep. apply in_flat_map.
  exists (Some u). split; [assumption|now left].
Qed.

Lemma contributorCount_spec (names : TopicNames) (users : list (Z * string))
  (messages : list Message.t) (t : Z) :
  Topic.contributorCount (topicOf names users messages t)
  = distinct (topicUserIds t messages).
Proof.
  unfold topicOf. simpl. rewrite <- first_seen_distinct. f_equal.
  rewrite <- (length_map Contributor.userId).
  apply Permutation_length, contributors_topic_perm.
Qed.

(** X15: under a filter of n selected users the result has at most n
    active users and no topic has more than n contributors. *)
Theorem filter_bounds_users (host : Host.t) (names : TopicNames)
  (tree : RawTree.t) (all : list Message.t) (q : QueryData.t) (v : Z) :
  RawTree.messages tree = Some all ->
  QueryData.users q <> [] ->
  exists d,
    Result.data (fst (processTreeLocally host names (Some tree) q v)) = FullData d
    /\ Data.activeUsers d <= Z.of_nat (List.length (QueryData.users q))
    /\ forall t, In t (Data.topics d) ->
                 Topic.contributorCount t
                 <= Z.of_nat (List.length (QueryData.users q)).
Proof.
  intros H Hne. destruct (topics_of_result host names tree all q v H)
    as (d & Hd & _ & Hactive & Ht).
  exists d. split; [assumption|].
  set (ids := keep (fun x => x) (map parseInt (QueryData.users q))).
  assert (Hids : Z.of_nat (List.length ids)
                 <= Z.of_nat (List.length (QueryData.users q))).
  { apply inj_le. unfold ids.
    etransitivity; [apply keep_length_le|]. now rewrite length_map. }
  assert (Hbound : forall l, incl l ids ->
                             distinct l <= Z.of_nat (List.length (QueryData.users q))).
  { intros l Hl. etransitivity; [apply (distinct_incl l ids Hl)|].
    etransitivity; [apply distinct_le_length|exact Hids]. }
  split.
  - rewrite Hactive. apply Hbound. intros u Hu.
    unfold namedUserIds in Hu. apply in_map_iff in Hu.
    destruct Hu as [[u' n] [<- Hin]]. unfold keep in Hin.
    apply in_flat_map in Hin. destruct Hin as [m [Hm Hn]].
    destruct (selected_ids q all m Hne Hm) as [w [Hw Hin]].
    unfold namedUser in Hn. rewrite Hw in Hn.
    destruct (Message.fromUserName m) as [nm|]; [|contradiction].
    destruct (truthy_num w && truthy_str nm)%bool; [|contradiction].
    destruct Hn as [[= <- <-]|[]]. exact Hin.
  - intros t Hin. rewrite Ht in Hin. apply topics_In in Hin.
    destruct Hin as [k [Hk ->]]. rewrite contributorCount_spec.
    apply Hbound. intros u Hu. unfold topicUserIds, keep in Hu.
    apply in_flat_map in Hu. destruct Hu as [m [Hm Hn]].
    apply filter_In in Hm. destruct Hm as [Hm _].
    destruct (selected_ids q all m Hne Hm) as [w [Hw Hin]].
    unfold anyUser in Hn. rewrite Hw in Hn.
    destruct (truthy_num w); [|contradiction].
    destruct Hn as [<-|[]]. exact Hin.
Qed.

Lemma filter_bounds_users_witness :
  exists d,
    Result.data
      (fst (processTreeLocally sampleHost [] (Some (treeOf tiedMessages))
                               (QueryData.mk "channel_query" ["2"] None) 1))
    = FullData d
    /\ Data.activeUsers d <= 1.
Proof.
  destruct (filter_bounds_users sampleHost [] (treeOf tiedMessages) tiedMessages
              (QueryData.mk "channel_query" ["2"] None) 1 eq_refl)
    as (d & Hd & Ha & _).
  - discriminate.
  - exists d. split; assumption.
Defined.

(* ================================================================= *)
(** ** The loaders of the page *)

Lemma availableUsers_fold (all : list Message.t) (acc : UserAcc.t) :
  fold_left collectAvailableUser all (UserAcc.users acc)
  = UserAcc.users (fold_left collectUser all acc).
Proof.
  revert acc. induction all as [|m l IH]; intros acc; simpl; [reflexivity|].
  rewrite <- IH, collectUser_users. unfold collectAvailableUser.
  now destruct (namedUser m) as [[uid uname]|].
Qed.

Lemma In_Map_set {V : Type} (m : list (Z * V)) (k k' : Z) (v v' : V) :
  In (k', v') (Map_set Z.eqb m k v) -> (k', v') = (k, v) \/ In (k', v') m.
Proof.
  induction m as [|[a w] m IH]; simpl.
  - intros [E|[]]. left. now symmetry.
  - destruct (Z.eqb_spec a k) as [->|Hne]; simpl.
    + intros [E|H]; [left; now symmetry|tauto].
    + intros [E|H]; [tauto|]. destruct (IH H); tauto.
Qed.

Lemma availableUsers_named (all : list Message.t) (u : Z) (n : string) :
  In (u, n) (fold_left collectAvailableUser all []) ->
  exists m, In m all /\ namedUser m = Some (u, n).
Proof.
  induction all as [|m l IH] using rev_ind; [intros []|].
  rewrite fold_left_app. simpl. unfold collectAvailableUser at 1.
  destruct (namedUser m) as [[uid uname]|] eqn:E.
  - intros H. apply In_Map_set in H. destruct H as [[= -> ->]|H].
    + exists m. split; [apply in_or_app; right; now left|assumption].
    + destruct (IH H) as [m' [Hm' Hn]]. exists m'.
      split; [apply in_or_app; now left|assumption].
  - intros H. destruct (IH H) as [m' [Hm' Hn]]. exists m'.
    split; [apply in_or_app; now left|assumption].
Qed.

Lemma loadUsers_keeps (st : UiState.t) (response : Outcome (option ApiResponse.t)) :
  UiState.selectedChannel (loadUsers st response) = UiState.selectedChannel st
  /\ UiState.selectedVersions (loadUsers st response) = UiState.selectedVersions st
  /\ UiState.availableVersions (loadUsers st response) = UiState.availableVersions st
  /\ UiState.resultsCache (loadUsers st response) = UiState.resultsCache st.
Proof.
  unfold loadUsers. destruct response as [[r|]|e]; auto.
  destruct (ApiResponse.tree r) as [tree|]; auto.
  destruct (RawTree.messages tree); auto.
Qed.

(** X16: the users [loadUsers] offers for a tree are the users with a
    truthy id and name, once each in the order of their first message;
    each is offered under a name one of their messages carries; and they
    are as many as the active users an unfiltered query of the same tree
    reports. *)
Theorem offered_users_are_the_active_users (st : UiState.t) (r : ApiResponse.t)
  (tree : RawTree.t) (all : list Message.t) (host : Host.t)
  (names : TopicNames) (q : QueryData.t) (v : Z) :
  ApiResponse.tree r = Some tree ->
  RawTree.messages tree = Some all ->
  QueryData.users q = [] ->
  let offered := UiState.availableUsers (loadUsers st (Returned (Some r))) in
  map fst offered = first_seen (namedUserIds all)
  /\ (forall u n, In (u, n) offered ->
                  exists m, In m all /\ Message.fromUserId m = Some u
                            /\ Message.fromUserName m = Some n)
  /\ exists d,
       Result.data (fst (processTreeLocally host names (Some tree) q v))
       = FullData d
       /\ Data.activeUsers d = Z.of_nat (List.length offered).
Proof.
  intros Ht Hm Hq offered.
  assert (Ho : offered = fold_left collectAvailableUser all []).
  { unfold offered, loadUsers. now rewrite Ht, Hm. }
  assert (Hk : map fst offered = first_seen (namedUserIds all)).
  { rewrite Ho. change (@nil (Z * string)) with (UserAcc.users UserAcc.empty).
    rewrite availableUsers_fold. apply users_keys. }
  split; [exact Hk|]. split.
  - intros u n Hin. rewrite Ho in Hin.
    destruct (availableUsers_named all u n Hin) as [m [Hin' Hn]].
    exists m. split; [assumption|]. unfold namedUser in Hn.
    destruct (Message.fromUserId m) as [uid|]; [|discriminate].
    destruct (Message.fromUserName m) as [uname|]; [|discriminate].
    destruct (truthy_num uid && truthy_str uname)%bool; [|discriminate].
    injection Hn as -> ->. now split.
  - destruct (topics_of_result host names tree all q v Hm)
      as (d & Hd & _ & Hactive & _).
    exists d. split; [assumption|].
    rewrite Hactive. unfold selected, filterMessages. rewrite Hq.
    rewrite <- first_seen_distinct, <- Hk. now rewrite length_map.
Qed.

Lemma offered_users_are_the_active_users_witness :
  map fst
    (UiState.availableUsers
       (loadUsers freshUi
          (Returned
             (Some (responseOf (treeOf tiedMessages))))))
  = [1; 2].
Proof.
  rewrite (proj1 (offered_users_are_the_active_users
                    freshUi
                    (responseOf (treeOf tiedMessages))
                    (treeOf tiedMessages) tiedMessages sampleHost []
                    channelQuery 1 eq_refl eq_refl eq_refl)).
  reflexivity.
Defined.

Lemma byVersion_key (a b : VersionInfo.t) :
  byVersion a b = versionKey b - versionKey a.
Proof. unfold byVersion, versionKey. lia. Qed.

Lemma descending_last {A : Type} (key : A -> Z) (l : list A) (d : A) :
  descending key l -> forall y, In y l -> key (last l d) <= key y.
Proof.
  unfold descending. induction 1 as [|x l Hs IH Hx]; intros y Hy; [destruct Hy|].
  destruct l as [|x' l'].
  - destruct Hy as [<-|[]]. simpl. lia.
  - change (last (x :: x' :: l') d) with (last (x' :: l') d).
    destruct Hy as [<-|Hy]; [|now apply IH].
    rewrite Forall_forall in Hx. apply Hx.
    clear. revert x'. induction l' as [|a l IH]; intros x'; [now left|].
    right. apply IH.
Qed.

Lemma last_In {A : Type} (x : A) (l : list A) (d : A) : In (last (x :: l) d) (x :: l).
Proof.
  revert x. induction l as [|a l IH]; intros x; [now left|].
  right. apply IH.
Qed.

Lemma loadVersions_spec (st : UiState.t) (listed : list VersionInfo.t)
  (users : Outcome (option ApiResponse.t)) :
  listed <> [] ->
  let st' := loadVersions st (Returned (Some listed)) users in
  UiState.selectedChannel st' = UiState.selectedChannel st
  /\ UiState.availableVersions st' = sort byVersion listed
  /\ exists latest,
       In latest listed
       /\ (forall x, In x listed -> VersionInfo.version x <= VersionInfo.version latest)
       /\ hd_error (UiState.selectedVersions st') = Some (Some (VersionInfo.version latest))
       /\ tl (UiState.selectedVersions st') = tl (UiState.selectedVersions st).
Proof.
  intros Hne st'. unfold st', loadVersions.
  destruct (loadUsers_keeps
              (UiState.mk (UiState.selectedChannel st)
                 match sort byVersion listed with
                 | [] => UiState.selectedVersions st
                 | first :: _ =>
                     setFirst (UiState.selectedVersions st)
                       (Some (VersionInfo.version (last (sort byVersion listed) first)))
                 end
                 (sort byVersion listed) (UiState.availableUsers st)
                 (UiState.resultsCache st))
              users) as (-> & -> & -> & _).
  cbn [UiState.selectedVersions UiState.availableVersions UiState.selectedChannel].
  pose proof (sort_perm byVersion listed) as Hp.
  pose proof (sort_descending versionKey byVersion byVersion_key listed) as Hs.
  split; [reflexivity|]. split; [reflexivity|].
  destruct (sort byVersion listed) as [|first rest] eqn:E.
  - apply Permutation_nil in Hp. congruence.
  - exists (last (first :: rest) first). split; [|split; [|split]].
    + eapply Permutation_in; [exact Hp|]. apply last_In.
    + intros x Hx.
      assert (Hx' : In x (first :: rest)).
      { eapply Permutation_in; [symmetry; exact Hp|exact Hx]. }
      pose proof (descending_last versionKey _ first Hs x Hx') as Hle.
      unfold versionKey in Hle. lia.
    + now destruct (UiState.selectedVersions st).
    + now destruct (UiState.selectedVersions st).
Qed.

Lemma sort_byVersion_ascending (listed : list VersionInfo.t) :
  StronglySorted (fun a b => VersionInfo.version a <= VersionInfo.version b)
                 (sort byVersion listed).
Proof.
  pose proof (sort_descending versionKey byVersion byVersion_key listed) as Hs.
  unfold descending in Hs.
  induction Hs as [|x l Hs IH Hx]; constructor; [assumption|].
  eapply Forall_impl; [|exact Hx]. unfold versionKey. simpl. intros. lia.
Qed.

(** X17: when the service lists at least one version, [loadVersions]
    keeps the listed versions in ascending order of their numbers and
    selects, as Version 1, the greatest number listed; the other two
    selections stay as they were. *)
Theorem latest_version_selected (st : UiState.t) (listed : list VersionInfo.t)
  (users : Outcome (option ApiResponse.t)) :
  listed <> [] ->
  let st' := loadVersions st (Returned (Some listed)) users in
  Permutation (UiState.availableVersions st') listed
  /\ StronglySorted (fun a b => VersionInfo.version a <= VersionInfo.version b)
                    (UiState.availableVersions st')
  /\ exists latest,
       In latest listed
       /\ (forall x, In x listed -> VersionInfo.version x <= VersionInfo.version latest)
       /\ hd_error (UiState.selectedVersions st') = Some (Some (VersionInfo.version latest))
       /\ tl (UiState.selectedVersions st') = tl (UiState.selectedVersions st).
Proof.
  intros Hne st'.
  destruct (loadVersions_spec st listed users Hne) as (_ & Hav & Hlatest).
  fold st' in Hav, Hlatest. rewrite Hav.
  split; [apply sort_perm|]. split; [apply sort_byVersion_ascending|].
  exact Hlatest.
Qed.

Lemma latest_version_selected_witness :
  exists latest,
    In latest listedVersions
    /\ hd_error
         (UiState.selectedVersions
            (loadVersions freshUi (Returned (Some listedVersions))
                          (Thrown "offline")))
       = Some (Some (VersionInfo.version latest)).
Proof.
  destruct (latest_version_selected freshUi listedVersions (Thrown "offline"))
    as (_ & _ & latest & Hin & _ & Hhd & _).
  - discriminate.
  - exists latest. split; assumption.
Defined.



(* ================================================================= *)
(** ** One query against one version *)

Lemma processTreeLocally_no_data (host : Host.t) (names : TopicNames)
  (tree : RawTree.t) (q : QueryData.t) (v : Z) :
  Result.data (fst (processTreeLocally host names (Some tree) q v)) = EmptyData
  <-> RawTree.messages tree = None.
Proof.
  unfold processTreeLocally. destruct (RawTree.messages tree) as [all|]; simpl.
  - split; discriminate.
  - tauto.
Qed.

Lemma processTreeLocally_metadata (host : Host.t) (names : TopicNames)
  (tree : option RawTree.t) (q : QueryData.t) (v : Z) :
  Result.metadata (fst (processTreeLocally host names tree q v))
  = mkMetadata host q v.
Proof.
  unfold processTreeLocally. destruct tree as [tree|]; [|reflexivity].
  now destruct (RawTree.messages tree).
Qed.

(** The cases of [executeQueryAgainstVersion] on a response with a tree. *)
Lemma executeQueryAgainstVersion_cases (host : Host.t) (rawNow : string)
  (names : TopicNames) (enabled : bool) (r : ApiResponse.t) (tree : RawTree.t)
  (ai : option string) (fq : FullQuery.t) (v : Z) :
  ApiResponse.tree r = Some tree ->
  let q := FullQuery.query fq in
  let local := processTreeLocally host names (Some tree) q v in
  let raw :=
    formatRawApiResponse rawNow r "get_topic_tree_by_channel_and_version"
      (match FullQuery.dataset fq with Some s => parseInt s | None => None end) v in
  let run :=
    executeQueryAgainstVersion host rawNow names enabled (Returned (Some r)) ai fq v in
  (run = (Returned (withRaw (fst local) None None raw v), snd local)
   /\ (enabled = false \/ QueryData.type q <> "custom_query"
       \/ QueryData.customQuestion q = None
       \/ QueryData.customQuestion q = Some EmptyString
       \/ RawTree.messages tree = None \/ ai = None))
  \/ (exists question answer d,
        enabled = true /\ QueryData.type q = "custom_query"
        /\ QueryData.customQuestion q = Some question /\ question <> EmptyString
        /\ ai = Some answer
        /\ Result.data (fst local) = FullData d
        /\ run
           = (Returned
                (withRaw
                   (Result.mk (Result.summary (fst local)) (Result.data (fst local))
                      (str ["🤖 AI-Enhanced Analysis for: "; dq; question; dq]
                       :: "📊 Local Analysis:" :: Result.insights (fst local))
                      (Metadata.mk v (Host.nowISO host) (QueryData.type q)
                                   "local" true))
                   (Some "openai-gpt4") (Some (trim answer)) raw v),
              snd local)).
Proof.
  intros Ht q local raw run.
  pose proof (processTreeLocally_metadata host names (Some tree) q v) as Hmeta.
  pose proof (processTreeLocally_no_data host names tree q v) as Hnone.
  fold local in Hmeta, Hnone.
  unfold run, executeQueryAgainstVersion. rewrite Ht. fold q. fold local.
  destruct local as [processed names'] eqn:El. fold raw.
  cbn [fst snd] in *.
  destruct enabled; [|left; split; [reflexivity|tauto]].
  destruct (String.eqb_spec (QueryData.type q) "custom_query") as [Hty|Hty];
    [|left; split; [reflexivity|tauto]].
  cbn [andb].
  destruct (QueryData.customQuestion q) as [question|];
    [|left; split; [reflexivity|tauto]].
  destruct question as [|c question'] eqn:Eq;
    [left; split; [reflexivity|tauto]|].
  rewrite <- Eq. replace (truthy_str question) with true by now rewrite Eq.
  unfold enhanceWithOpenAI.
  destruct (Result.data processed) as [|d] eqn:Ed.
  - left. split; [reflexivity|]. do 4 right. left. now apply Hnone.
  - destruct ai as [answer|]; [|left; split; [reflexivity|tauto]].
    right. exists question, answer, d. rewrite Hmeta.
    repeat split; try reflexivity; try assumption.
    rewrite Eq. discriminate.
Qed.

Lemma executeQueryAgainstVersion_returns (host : Host.t) (rawNow : string)
  (names : TopicNames) (enabled : bool) (r : ApiResponse.t) (tree : RawTree.t)
  (ai : option string) (fq : FullQuery.t) (v : Z) :
  ApiResponse.tree r = Some tree ->
  exists res names',
    executeQueryAgainstVersion host rawNow names enabled (Returned (Some r)) ai fq v
    = (Returned res, names').
Proof.
  intros Ht.
  destruct (executeQueryAgainstVersion_cases host rawNow names enabled r tree
              ai fq v Ht) as [[Hrun _]|(question & answer & d & _ & _ & _ & _ & _ & _ & Hrun)];
    rewrite Hrun; eauto.
Qed.

(** X19: when the query service answers with a tree, the query returns a
    result whatever the completion service does; its summary, data and
    name cache are those of local processing, its version is the
    requested one, and its insights are the local insights, behind two
    header lines exactly when the result is marked as enhanced. *)
Theorem enhancement_keeps_local_analysis (host : Host.t) (rawNow : string)
  (names : TopicNames) (enabled : bool) (r : ApiResponse.t) (tree : RawTree.t)
  (ai : option string) (fq : FullQuery.t) (v : Z) :
  ApiResponse.tree r = Some tree ->
  let local := processTreeLocally host names (Some tree) (FullQuery.query fq) v in
  exists res,
    executeQueryAgainstVersion host rawNow names enabled (Returned (Some r)) ai fq v
    = (Returned res, snd local)
    /\ VersionedResult.summary res = Result.summary (fst local)
    /\ VersionedResult.data res = Result.data (fst local)
    /\ VersionedResult.version res = v
    /\ Metadata.version (VersionedResult.metadata res) = v
    /\ exists header,
         VersionedResult.insights res = header ++ Result.insights (fst local)
         /\ List.length header
            = if Metadata.enhanced (VersionedResult.metadata res) then 2%nat
              else 0%nat.
Proof.
  intros Ht local.
  destruct (executeQueryAgainstVersion_cases host rawNow names enabled r tree
              ai fq v Ht) as [[Hrun _]|(question & answer & d & _ & _ & _ & _ & _ & _ & Hrun)];
    fold local in Hrun; rewrite Hrun; eexists; (split; [reflexivity|]);
    cbn [withRaw VersionedResult.summary VersionedResult.data
         VersionedResult.version VersionedResult.metadata
         VersionedResult.insights Result.summary Result.data Result.insights
         Result.metadata Metadata.version Metadata.enhanced].
  - unfold local. rewrite processTreeLocally_metadata.
    repeat split. exists []. split; reflexivity.
  - repeat split.
    exists [str ["🤖 AI-Enhanced Analysis for: "; dq; question; dq];
            "📊 Local Analysis:"].
    split; reflexivity.
Qed.

Lemma enhancement_keeps_local_analysis_witness :
  exists res,
    executeQueryAgainstVersion sampleHost "2025-09-12T10:00:01.000Z" [] true
      (Returned (Some (responseOf (treeOf tiedMessages)))) None
      (FullQuery.mk (QueryData.mk "custom_query" [] (Some "Who leads?"))
                    (Some "2_1") [1] "2025-09-12T10:00:00.000Z") 1
    = (Returned res,
       snd (processTreeLocally sampleHost [] (Some (treeOf tiedMessages))
              (QueryData.mk "custom_query" [] (Some "Who leads?")) 1))
    /\ VersionedResult.version res = 1.
Proof.
  destruct (enhancement_keeps_local_analysis sampleHost
              "2025-09-12T10:00:01.000Z" [] true
              (responseOf (treeOf tiedMessages)) (treeOf tiedMessages) None
              (FullQuery.mk (QueryData.mk "custom_query" [] (Some "Who leads?"))
                            (Some "2_1") [1] "2025-09-12T10:00:00.000Z") 1
              eq_refl)
    as (res & Hrun & _ & _ & Hv & _).
  exists res. split; assumption.
Defined.

(** X20: a result is marked as enhanced, and carries a summary of the
    completion service, exactly when enhancement is enabled, the query is
    a custom query with a non-empty question, the tree has a messages
    object and the completion service answered. *)
Theorem enhanced_exactly_when (host : Host.t) (rawNow : string)
  (names : TopicNames) (enabled : bool) (r : ApiResponse.t) (tree : RawTree.t)
  (ai : option string) (fq : FullQuery.t) (v : Z) :
  ApiResponse.tree r = Some tree ->
  exists res,
    fst (executeQueryAgainstVersion host rawNow names enabled
           (Returned (Some r)) ai fq v)
    = Returned res
    /\ (Metadata.enhanced (VersionedResult.metadata res) = true
        <-> enabled = true
            /\ QueryData.type (FullQuery.query fq) = "custom_query"
            /\ (exists question,
                  QueryData.customQuestion (FullQuery.query fq) = Some question
                  /\ question <> EmptyString)
            /\ RawTree.messages tree <> None
            /\ ai <> None)
    /\ (Metadata.enhanced (VersionedResult.metadata res) = true
        <-> VersionedResult.aiSummary res <> None)
    /\ (Metadata.enhanced (VersionedResult.metadata res) = true
        <-> VersionedResult.enhancementMethod res = Some "openai-gpt4").
Proof.
  intros Ht.
  destruct (executeQueryAgainstVersion_cases host rawNow names enabled r tree
              ai fq v Ht)
    as [[Hrun Hwhy]|(question & answer & d & He & Hty & Hq & Hne & Hai & Hd & Hrun)];
    rewrite Hrun; eexists; (split; [reflexivity|]);
    cbn [withRaw VersionedResult.metadata VersionedResult.aiSummary
         VersionedResult.enhancementMethod Result.metadata Metadata.enhanced].
  - rewrite processTreeLocally_metadata. cbn [mkMetadata Metadata.enhanced].
    split; [|split]; (split; [discriminate|]).
    + intros (He & Hty & (question & Hq & Hne) & Hm & Hai).
      destruct Hwhy as [H|[H|[H|[H|[H|H]]]]]; try congruence.
    + congruence.
    + discriminate.
  - split; [|split]; (split; [intros _|reflexivity]).
    + repeat split; try assumption.
      * exists question. now split.
      * intros Hm.
        apply (processTreeLocally_no_data host names tree (FullQuery.query fq) v)
          in Hm. congruence.
      * congruence.
    + discriminate.
    + reflexivity.
Qed.

Lemma enhanced_exactly_when_witness :
  exists res,
    fst (executeQueryAgainstVersion sampleHost "2025-09-12T10:00:01.000Z" [] true
           (Returned (Some (responseOf (treeOf tiedMessages))))
           (Some " Alice and Bob lead. ")
           (FullQuery.mk (QueryData.mk "custom_query" [] (Some "Who leads?"))
                         (Some "2_1") [1] "2025-09-12T10:00:00.000Z") 1)
    = Returned res
    /\ (Metadata.enhanced (VersionedResult.metadata res) = true
        <-> VersionedResult.aiSummary res <> None).
Proof.
  destruct (enhanced_exactly_when sampleHost "2025-09-12T10:00:01.000Z" [] true
              (responseOf (treeOf tiedMessages)) (treeOf tiedMessages)
              (Some " Alice and Bob lead. ")
              (FullQuery.mk (QueryData.mk "custom_query" [] (Some "Who leads?"))
                            (Some "2_1") [1] "2025-09-12T10:00:00.000Z") 1
              eq_refl)
    as (res & Hrun & _ & Hs & _).
  exists res. split; assumption.
Defined.

(** X21: a query against a version throws exactly when the call of the
    query service threw, with its error, or when the response or its tree
    is missing, with "Invalid API response structure"; the name cache is
    then as it was. *)
Theorem query_throws_exactly_when (host : Host.t) (rawNow : string)
  (names : TopicNames) (enabled : bool) (api : Outcome (option ApiResponse.t))
  (ai : option string) (fq : FullQuery.t) (v : Z) (e : string) :
  let run := executeQueryAgainstVersion host rawNow names enabled api ai fq v in
  (fst run = Thrown e
   <-> api = Thrown e
       \/ (e = "Invalid API response structure"
           /\ (api = Returned None
               \/ exists r, api = Returned (Some r) /\ ApiResponse.tree r = None)))
  /\ (fst run = Thrown e -> snd run = names).
Proof.
  intros run. unfold run.
  destruct api as [[r|]|e'].
  - destruct (ApiResponse.tree r) as [tree|] eqn:Ht.
    + destruct (executeQueryAgainstVersion_returns host rawNow names enabled r tree ai fq v Ht)
        as (res & names' & ->). simpl. split.
      * split; [discriminate|].
        intros [H|[_ [H|(r' & H & Hn)]]]; try discriminate.
        injection H as <-. congruence.
      * discriminate.
    + unfold executeQueryAgainstVersion. rewrite Ht. simpl. split; [|reflexivity].
      split.
      * intros [= <-]. right. split; [reflexivity|]. right. now exists r.
      * intros [H|[-> _]]; [discriminate|reflexivity].
  - simpl. split; [|reflexivity]. split.
    + intros [= <-]. right. split; [reflexivity|]. now left.
    + intros [H|[-> _]]; [discriminate|reflexivity].
  - simpl. split; [|reflexivity]. split.
    + intros [= ->]. now left.
    + intros [[= ->]|[_ [H|(r & H & _)]]]; [reflexivity|discriminate..].
Qed.

Lemma query_throws_exactly_when_witness :
  fst (executeQueryAgainstVersion sampleHost "2025-09-12T10:00:01.000Z" [] false
         (Returned None) None
         (FullQuery.mk channelQuery (Some "2_1") [1] "2025-09-12T10:00:00.000Z") 1)
  = Thrown "Invalid API response structure".
Proof.
  apply (query_throws_exactly_when sampleHost "2025-09-12T10:00:01.000Z" []
           false (Returned None) None
           (FullQuery.mk channelQuery (Some "2_1") [1] "2025-09-12T10:00:00.000Z")
           1 "Invalid API response structure").
  right. split; [reflexivity|]. now left.
Defined.

(** X22: for a tree with a messages object the message count shown with
    the raw response is the number of its messages; the message count of
    the processed data never exceeds it and, without a user filter,
    equals it.  For a tree without a messages object the raw response
    shows the count 0, while the processed data is the empty object and
    holds no message count. *)
Theorem raw_count_bounds_processed_count (host : Host.t) (rawNow : string)
  (names : TopicNames) (enabled : bool) (r : ApiResponse.t) (tree : RawTree.t)
  (ai : option string) (fq : FullQuery.t) (v : Z) :
  ApiResponse.tree r = Some tree ->
  exists res,
    fst (executeQueryAgainstVersion host rawNow names enabled
           (Returned (Some r)) ai fq v)
    = Returned res
    /\ match RawTree.messages tree with
       | Some all =>
           exists d,
             VersionedResult.data res = FullData d
             /\ RawResponse.messageCount (VersionedResult.rawResponse res)
                = Z.of_nat (List.length all)
             /\ Data.messageCount d
                <= RawResponse.messageCount (VersionedResult.rawResponse res)
             /\ (QueryData.users (FullQuery.query fq) = [] ->
                 Data.messageCount d
                 = RawResponse.messageCount (VersionedResult.rawResponse res))
       | None =>
           VersionedResult.data res = EmptyData
           /\ countOf Data.messageCount (VersionedResult.data res) = None
           /\ RawResponse.messageCount (VersionedResult.rawResponse res) = 0
       end.
Proof.
  intros Ht.
  destruct (RawTree.messages tree) as [all|] eqn:Hm.
  - destruct (topics_of_result host names tree all (FullQuery.query fq) v Hm)
      as (d & Hd & Hcount & _).
    assert (Hraw : forall now endpoint channel,
               RawResponse.messageCount
                 (formatRawApiResponse now r endpoint channel v)
               = Z.of_nat (List.length all)).
    { intros. unfold formatRawApiResponse. rewrite Ht. simpl. now rewrite Hm. }
    assert (Hle : Data.messageCount d <= Z.of_nat (List.length all)).
    { rewrite Hcount. apply inj_le. unfold selected, filterMessages.
      destruct (QueryData.users (FullQuery.query fq)); [lia|].
      apply filter_length_le. }
    assert (Heq : QueryData.users (FullQuery.query fq) = [] ->
                  Data.messageCount d = Z.of_nat (List.length all)).
    { intros Hq. rewrite Hcount. unfold selected, filterMessages.
      now rewrite Hq. }
    destruct (executeQueryAgainstVersion_cases host rawNow names enabled r tree
                ai fq v Ht)
      as [[Hrun _]|(question & answer & d' & _ & _ & _ & _ & _ & _ & Hrun)];
      rewrite Hrun; eexists; (split; [reflexivity|]); exists d;
      cbn [withRaw VersionedResult.data VersionedResult.rawResponse Result.data];
      rewrite Hraw; auto.
  - pose proof (proj2 (processTreeLocally_no_data host names tree
                         (FullQuery.query fq) v) Hm) as Hd.
    assert (Hraw : forall now endpoint channel,
               RawResponse.messageCount
                 (formatRawApiResponse now r endpoint channel v) = 0).
    { intros. unfold formatRawApiResponse. rewrite Ht. simpl. now rewrite Hm. }
    destruct (executeQueryAgainstVersion_cases host rawNow names enabled r tree
                ai fq v Ht)
      as [[Hrun _]|(question & answer & d' & _ & _ & _ & _ & _ & Hfull & _)];
      [|congruence].
    rewrite Hrun. eexists. split; [reflexivity|].
    cbn [withRaw VersionedResult.data VersionedResult.rawResponse].
    rewrite Hd, Hraw. repeat split.
Qed.

Lemma raw_count_bounds_processed_count_witness :
  exists res d,
    fst (executeQueryAgainstVersion sampleHost "2025-09-12T10:00:01.000Z" [] false
           (Returned (Some (responseOf (treeOf tiedMessages)))) None
           (FullQuery.mk (QueryData.mk "channel_query" ["2"] None)
                         (Some "2_1") [1] "2025-09-12T10:00:00.000Z") 1)
    = Returned res
    /\ VersionedResult.data res = FullData d
    /\ RawResponse.messageCount (VersionedResult.rawResponse res) = 4
    /\ Data.messageCount d
       <= RawResponse.messageCount (VersionedResult.rawResponse res).
Proof.
  destruct (raw_count_bounds_processed_count sampleHost
              "2025-09-12T10:00:01.000Z" [] false
              (responseOf (treeOf tiedMessages)) (treeOf tiedMessages) None
              (FullQuery.mk (QueryData.mk "channel_query" ["2"] None)
                            (Some "2_1") [1] "2025-09-12T10:00:00.000Z") 1
              eq_refl)
    as (res & Hrun & d & Hd & Hraw & Hle & _).
  exists res, d. repeat split; assumption.
Defined.

(* ================================================================= *)
(** ** Several versions side by side *)

Lemma byResultVersion_key (a b : VersionedResult.t) :
  byResultVersion a b = resultKey b - resultKey a.
Proof. unfold byResultVersion, resultKey. lia. Qed.

Lemma versionRows_length (count index : nat) (results : list VersionedResult.t) :
  List.length (versionRows count index results) = List.length results.
Proof.
  revert index. induction results as [|r l IH]; intros index; simpl;
    [reflexivity|]. now rewrite IH.
Qed.

Lemma key_injective {A : Type} (key : A -> Z) (l : list A) (x y : A) :
  NoDup (map key l) -> In x l -> In y l -> key x = key y -> x = y.
Proof.
  induction l as [|a l IH]; simpl; [tauto|].
  intros Hnd Hx Hy He. apply NoDup_cons_iff in Hnd. destruct Hnd as [Hna Hnd].
  destruct Hx as [<-|Hx], Hy as [<-|Hy]; auto.
  - exfalso. apply Hna. rewrite He. now apply in_map.
  - exfalso. apply Hna. rewrite <- He. now apply in_map.
Qed.

Lemma descending_unique {A : Type} (key : A -> Z) (l l' : list A) :
  descending key l -> descending key l' -> Permutation l l' ->
  NoDup (map key l) -> l = l'.
Proof.
  intros Hs. revert l'. induction Hs as [|x l Hs IH Hx]; intros l' Hs' Hp Hnd.
  - apply Permutation_nil in Hp. now subst.
  - destruct l' as [|y l'].
    + symmetry in Hp. apply Permutation_nil in Hp. discriminate.
    + assert (Hxy : x = y).
      { apply (key_injective key (x :: l)); [assumption|now left| |].
        - eapply Permutation_in; [symmetry; exact Hp|now left].
        - assert (H1 : key y <= key x).
          { apply (descending_head key x l); [now constructor|].
            eapply Permutation_in; [symmetry; exact Hp|now left]. }
          assert (H2 : key x <= key y).
          { apply (descending_head key y l'); [assumption|].
            eapply Permutation_in; [exact Hp|now left]. }
          lia. }
      subst y. f_equal. apply IH.
      * now apply StronglySorted_inv in Hs'.
      * now apply Permutation_cons_inv in Hp.
      * simpl in Hnd. now apply NoDup_cons_iff in Hnd.
Qed.

(** X23: with fewer than two results the comparison says that it needs
    two versions; with two or more it has one row per result and its
    three differences are those of the counts of the result with the
    greatest version number against the result with the least,
    in whatever order the results are given. *)
Theorem comparison_spans_versions (results : list VersionedResult.t) :
  ((List.length results < 2)%nat -> generateMultiVersionDelta results = TooFewVersions)
  /\ ((2 <= List.length results)%nat ->
      exists table lo hi,
        generateMultiVersionDelta results = Comparison table
        /\ In lo results /\ In hi results
        /\ (forall r, In r results ->
                      VersionedResult.version lo <= VersionedResult.version r
                      <= VersionedResult.version hi)
        /\ List.length (MultiDelta.rows table) = List.length results
        /\ MultiDelta.messageDiff table
           = signed (countDiff Data.messageCount (VersionedResult.data lo)
                                                 (VersionedResult.data hi))
        /\ MultiDelta.topicDiff table
           = signed (countDiff Data.topicCount (VersionedResult.data lo)
                                               (VersionedResult.data hi))
        /\ MultiDelta.userDiff table
           = signed (countDiff Data.activeUsers (VersionedResult.data lo)
                                                (VersionedResult.data hi))).
Proof.
  unfold generateMultiVersionDelta. split; intros Hlen.
  - apply Nat.ltb_lt in Hlen. now rewrite Hlen.
  - replace (Nat.ltb (List.length results) 2) with false
      by (symmetry; apply Nat.ltb_ge; lia).
    pose proof (sort_perm byResultVersion results) as Hp.
    pose proof (sort_descending resultKey byResultVersion byResultVersion_key
                  results) as Hs.
    pose proof (sort_length byResultVersion results) as Hl.
    destruct (sort byResultVersion results) as [|first rest] eqn:E.
    + simpl in Hl. lia.
    + eexists. exists first, (last (first :: rest) first).
      split; [reflexivity|].
      cbn [MultiDelta.rows MultiDelta.messageDiff MultiDelta.topicDiff
           MultiDelta.userDiff].
      split; [eapply Permutation_in; [exact Hp|now left]|].
      split; [eapply Permutation_in; [exact Hp|apply last_In]|].
      split.
      * intros r Hr.
        assert (Hr' : In r (first :: rest)).
        { eapply Permutation_in; [symmetry; exact Hp|exact Hr]. }
        pose proof (descending_head resultKey first rest Hs r Hr') as H1.
        pose proof (descending_last resultKey _ first Hs r Hr') as H2.
        unfold resultKey in H1, H2. lia.
      * rewrite versionRows_length, Hl. repeat split.
Qed.

Lemma comparison_spans_versions_witness :
  exists table,
    generateMultiVersionDelta
      [resultAt laterMessages 2; resultAt earlierMessages 1]
    = Comparison table
    /\ List.length (MultiDelta.rows table) = 2%nat.
Proof.
  destruct (proj2 (comparison_spans_versions
                     [resultAt laterMessages 2; resultAt earlierMessages 1]))
    as (table & lo & hi & Hrun & _ & _ & _ & Hrows & _).
  - simpl. lia.
  - exists table. split; assumption.
Defined.

(** X24: when the results carry pairwise different version numbers, the
    comparison does not depend on the order in which they are given. *)
Theorem comparison_independent_of_order (results results' : list VersionedResult.t) :
  Permutation results results' ->
  NoDup (map VersionedResult.version results) ->
  generateMultiVersionDelta results = generateMultiVersionDelta results'.
Proof.
  intros Hp Hnd. unfold generateMultiVersionDelta.
  rewrite <- (Permutation_length Hp).
  replace (sort byResultVersion results') with (sort byResultVersion results);
    [reflexivity|].
  apply (descending_unique resultKey).
  - apply sort_descending, byResultVersion_key.
  - apply sort_descending, byResultVersion_key.
  - rewrite !sort_perm. exact Hp.
  - assert (Hk : NoDup (map resultKey results)).
    { clear Hp. induction results as [|a l IH]; simpl in *; constructor;
        apply NoDup_cons_iff in Hnd; destruct Hnd as [Hna Hnd]; [|now apply IH].
      intros Hin. apply Hna. apply in_map_iff in Hin.
      destruct Hin as [x [Hx Hin]]. apply in_map_iff. exists x.
      split; [unfold resultKey in Hx; lia|assumption]. }
    eapply Permutation_NoDup; [|exact Hk].
    apply Permutation_map. symmetry. apply sort_perm.
Qed.

Lemma comparison_independent_of_order_witness :
  generateMultiVersionDelta [resultAt laterMessages 2; resultAt earlierMessages 1]
  = generateMultiVersionDelta [resultAt earlierMessages 1; resultAt laterMessages 2].
Proof.
  apply comparison_independent_of_order.
  - apply perm_swap.
  - repeat constructor; simpl; intuition discriminate.
Defined.

(* ================================================================= *)
(** ** The check boxes of the user filter *)

Lemma toggle_values (target : nat) (boxes : list Box.t) :
  map Box.value (toggle target boxes) = map Box.value boxes.
Proof.
  revert target. induction boxes as [|cb rest IH]; intros [|target]; simpl;
    try reflexivity. now rewrite IH.
Qed.

Lemma toggle_target (target : nat) (boxes : list Box.t) (cb : Box.t) :
  nth_error boxes target = Some cb ->
  nth_error (toggle target boxes) target
  = Some (Box.mk (Box.value cb) (negb (Box.checked cb)) (Box.disabled cb)).
Proof.
  revert target. induction boxes as [|a rest IH]; intros [|target]; simpl;
    try discriminate.
  - now intros [= ->].
  - apply IH.
Qed.

Lemma click_values (boxes : Boxes.t) (c : Click) :
  map Box.value (Boxes.users (click boxes c)) = map Box.value (Boxes.users boxes).
Proof.
  destruct c as [|target]; simpl.
  - rewrite map_map. reflexivity.
  - destruct (nth_error (Boxes.users boxes) target) as [cb|]; [|reflexivity].
    destruct (Box.disabled cb); [reflexivity|].
    unfold onUserChange. cbn [Boxes.users Boxes.allUsers].
    destruct (negb (existsb Box.checked (toggle target (Boxes.users boxes))));
      cbn [Boxes.users]; [rewrite map_map; cbn [Box.value]|];
      apply toggle_values.
Qed.

Lemma none_checked (boxes : list Box.t) (target : nat) (cb : Box.t) :
  existsb Box.checked boxes = false ->
  nth_error boxes target = Some cb -> Box.checked cb = false.
Proof.
  intros Hnone Hnth. apply nth_error_In in Hnth.
  destruct (Box.checked cb) eqn:E; [|reflexivity].
  rewrite <- Hnone. symmetry. apply existsb_exists. now exists cb.
Qed.

Lemma existsb_checked_map (f : Box.t -> Box.t) (boxes : list Box.t) :
  (forall cb, Box.checked (f cb) = Box.checked cb) ->
  existsb Box.checked (map f boxes) = existsb Box.checked boxes.
Proof.
  intros Hf. induction boxes as [|cb rest IH]; simpl; [reflexivity|].
  now rewrite Hf, IH.
Qed.

Lemma click_all_users (boxes : Boxes.t) (c : Click) :
  (Boxes.allUsers boxes = true -> existsb Box.checked (Boxes.users boxes) = false) ->
  Boxes.allUsers (click boxes c) = true ->
  existsb Box.checked (Boxes.users (click boxes c)) = false.
Proof.
  intros Hinv. destruct c as [|target]; simpl.
  - intros _. clear Hinv.
    induction (Boxes.users boxes) as [|cb rest IH]; simpl; auto.
  - destruct (nth_error (Boxes.users boxes) target) as [cb|] eqn:Hnth;
      [|exact Hinv].
    destruct (Box.disabled cb); [exact Hinv|].
    unfold onUserChange. cbn [Boxes.users Boxes.allUsers].
    rewrite (toggle_target _ _ _ Hnth). cbn [Box.checked].
    destruct (existsb Box.checked (toggle target (Boxes.users boxes))) eqn:Hany;
      cbn [negb Boxes.users Boxes.allUsers].
    + destruct (Box.checked cb) eqn:Hc; cbn [negb]; [|discriminate].
      intros Hall. rewrite (none_checked _ _ _ (Hinv Hall) Hnth) in Hc.
      discriminate.
    + intros _. rewrite existsb_checked_map; [exact Hany|reflexivity].
Qed.

Lemma clicks_invariant (users : list (Z * string)) (clicks : list Click) :
  let boxes := fold_left click clicks (renderUserBoxes users) in
  map Box.value (Boxes.users boxes) = map checkboxValue users
  /\ (Boxes.allUsers boxes = true ->
      existsb Box.checked (Boxes.users boxes) = false).
Proof.
  induction clicks as [|c clicks IH] using rev_ind; simpl.
  - split.
    + now rewrite map_map.
    + intros _. induction users as [|u l IHu]; simpl; auto.
  - rewrite fold_left_app. simpl. destruct IH as [Hv Hall]. split.
    + now rewrite click_values.
    + now apply click_all_users.
Qed.

Lemma checked_values_chosen (users : list (Z * string)) (boxes : list Box.t) :
  map Box.value boxes = map checkboxValue users ->
  exists chosen,
    incl chosen users
    /\ map Box.value (filter Box.checked boxes) = map checkboxValue chosen.
Proof.
  revert users. induction boxes as [|cb rest IH]; intros [|u users] Hv;
    try discriminate.
  - exists []. split; [apply incl_nil_l|reflexivity].
  - simpl in Hv. injection Hv as Hu Hrest.
    destruct (IH users Hrest) as [chosen [Hincl Hmap]].
    simpl. destruct (Box.checked cb).
    + exists (u :: chosen). split.
      * intros x [<-|Hx]; [now left|right; now apply Hincl].
      * simpl. now rewrite Hu, Hmap.
    + exists chosen. split; [|assumption].
      intros x Hx. right. now apply Hincl.
Qed.

(** X25: after any sequence of clicks on the check boxes [loadUsers]
    renders, "All Users" is ticked only when no user box is; the users of
    the query are then the values of the ticked user boxes, and these are
    ids of offered users. *)
Theorem ticked_boxes_make_the_filter (st : UiState.t) (users : list (Z * string))
  (clicks : list Click) (queryType : string) (customQuery : option string)
  (now : string) :
  let boxes := fold_left click clicks (renderUserBoxes users) in
  let q := FullQuery.query
             (buildQueryData st (formOf queryType customQuery boxes) now) in
  (Boxes.allUsers boxes = true ->
   Forall (fun cb => Box.checked cb = false) (Boxes.users boxes))
  /\ QueryData.users q = map Box.value (filter Box.checked (Boxes.users boxes))
  /\ exists chosen,
       incl chosen users /\ QueryData.users q = map checkboxValue chosen.
Proof.
  intros boxes q. destruct (clicks_invariant users clicks) as [Hv Hall].
  fold boxes in Hv, Hall.
  assert (Hq : QueryData.users q
               = map Box.value (filter Box.checked (Boxes.users boxes))).
  { unfold q, buildQueryData, formOf. cbn.
    destruct (Boxes.allUsers boxes) eqn:Ha; [|reflexivity].
    specialize (Hall eq_refl). clear -Hall.
    induction (Boxes.users boxes) as [|cb rest IH]; [reflexivity|].
    simpl in *. apply orb_false_iff in Hall. destruct Hall as [-> Hrest].
    now apply IH. }
  split; [|split].
  - intros Ha. specialize (Hall Ha). apply Forall_forall. intros cb Hin.
    destruct (Box.checked cb) eqn:E; [|reflexivity].
    rewrite <- Hall. symmetry. apply existsb_exists. now exists cb.
  - exact Hq.
  - rewrite Hq. now apply checked_values_chosen.
Qed.

Lemma ticked_boxes_make_the_filter_witness :
  QueryData.users
    (FullQuery.query
       (buildQueryData freshUi
          (formOf "channel_query" None
             (fold_left click [ClickUser 1; ClickUser 0; ClickUser 1]
                        (renderUserBoxes [(1, "alice"); (2, "bob")])))
          "2025-09-12T10:00:00.000Z"))
  = ["1"].
Proof.
  rewrite (proj1 (proj2 (ticked_boxes_make_the_filter freshUi
                           [(1, "alice"); (2, "bob")]
                           [ClickUser 1; ClickUser 0; ClickUser 1]
                           "channel_query" None "2025-09-12T10:00:00.000Z"))).
  reflexivity.
Defined.

(* ================================================================= *)
(** ** The selected versions and the columns of their results *)

Lemma array_set_nth {A : Type} (a : list (option A)) (i : nat) (v : option A) :
  (i < List.length a)%nat ->
  nth_error (array_set a i v) i = Some v
  /\ List.length (array_set a i v) = List.length a
  /\ forall j, j <> i -> nth_error (array_set a i v) j = nth_error a j.
Proof.
  revert i. induction a as [|x a IH]; intros i Hi; simpl in Hi; [lia|].
  destruct i as [|i]; simpl.
  - repeat split. intros [|j] Hj; [congruence|reflexivity].
  - destruct (IH i ltac:(lia)) as (H1 & H2 & H3). repeat split; auto.
    intros [|j] Hj; [reflexivity|]. simpl. apply H3. congruence.
Qed.

(** X26: choosing, in a version select, the option of version [v], whose
    value is [v] written in decimal, puts [v] into the slot of that
    select, unless [v] is 0, which leaves the slot empty as choosing the
    placeholder does; the other slots keep their selections. *)
Theorem selecting_a_version (st : UiState.t) (slot : nat) (v : Z) :
  (slot < List.length (UiState.selectedVersions st))%nat ->
  Z.abs v < 10 ^ 21 ->
  let st' := selectVersion st slot (show_Z v) in
  nth_error (UiState.selectedVersions st') slot
  = Some (if v =? 0 then None else Some v)
  /\ nth_error (UiState.selectedVersions (selectVersion st slot EmptyString)) slot
     = Some None
  /\ List.length (UiState.selectedVersions st')
     = List.length (UiState.selectedVersions st)
  /\ forall j, j <> slot ->
               nth_error (UiState.selectedVersions st') j
               = nth_error (UiState.selectedVersions st) j.
Proof.
  intros Hslot _ st'. unfold st', selectVersion.
  cbn [UiState.selectedVersions]. rewrite parseInt_show_Z.
  unfold truthy_num.
  destruct (array_set_nth (UiState.selectedVersions st) slot
              (if negb (v =? 0) then Some v else None) Hslot) as (H1 & H2 & H3).
  destruct (array_set_nth (UiState.selectedVersions st) slot None Hslot)
    as (H4 & _).
  repeat split; auto.
  rewrite H1. now destruct (v =? 0).
Qed.

Lemma selecting_a_version_witness :
  nth_error (UiState.selectedVersions (selectVersion freshUi 1 (show_Z 7))) 1
  = Some (Some 7).
Proof.
  apply (selecting_a_version freshUi 1 7); [simpl; lia|reflexivity].
Defined.

Lemma array_set_app {A : Type} (pre : list A) (tail : list (option A))
  (v : option A) :
  array_set (map Some pre ++ tail) (List.length pre) v
  = map Some pre ++ v :: tl tail.
Proof.
  induction pre as [|x pre IH]; simpl.
  - now destruct tail.
  - now rewrite IH.
Qed.

Lemma storeResults_fold (rs pre : list VersionedResult.t)
  (tail : list (option VersionedResult.t)) :
  fold_left
    (fun cache entry =>
       match snd entry with
       | Returned results => array_set cache (fst entry) (Some results)
       | Thrown _ => cache
       end)
    (combine (seq (List.length pre) (List.length rs)) (map Returned rs))
    (map Some pre ++ tail)
  = map Some (pre ++ rs) ++ skipn (List.length rs) tail.
Proof.
  revert pre tail. induction rs as [|r rs IH]; intros pre tail.
  - simpl. now rewrite app_nil_r.
  - cbn [List.length seq map combine fold_left fst snd].
    rewrite array_set_app.
    replace (map Some pre ++ Some r :: tl tail)
      with (map Some (pre ++ [r]) ++ tl tail)
      by (rewrite map_app, <- app_assoc; reflexivity).
    replace (S (List.length pre)) with (List.length (pre ++ [r]))
      by (rewrite length_app; simpl; lia).
    rewrite IH.
    replace ((pre ++ [r]) ++ rs) with (pre ++ r :: rs)
      by (rewrite <- app_assoc; reflexivity).
    f_equal. destruct tail; simpl; [now rewrite skipn_nil|reflexivity].
Qed.

Lemma storeResults_returned (rs : list VersionedResult.t) :
  storeResults (map Returned rs)
  = map Some rs ++ skipn (List.length rs) [None; None; None].
Proof.
  unfold storeResults. rewrite length_map.
  apply (storeResults_fold rs [] [None; None; None]).
Qed.

Lemma runs_returned (run : nat -> Z -> Outcome VersionedResult.t)
  (vs : list Z) (k : nat) :
  (forall i v, nth_error vs i = Some v ->
               exists r, run (k + i)%nat v = Returned r
                         /\ VersionedResult.version r = v) ->
  exists rs,
    map (fun entry => run (fst entry) (snd entry))
        (combine (seq k (List.length vs)) vs)
    = map Returned rs
    /\ List.length rs = List.length vs
    /\ forall i v, nth_error vs i = Some v ->
                   exists r, nth_error rs i = Some r
                             /\ run (k + i)%nat v = Returned r
                             /\ VersionedResult.version r = v.
Proof.
  revert k. induction vs as [|v vs IH]; intros k Hrun.
  - exists []. repeat split. intros [|i] w; discriminate.
  - destruct (Hrun 0%nat v eq_refl) as [r [Hr Hv]].
    destruct (IH (S k)) as (rs & Hmap & Hlen & Hnth).
    { intros i w Hi. destruct (Hrun (S i) w Hi) as [r' [Hr' Hv']].
      exists r'. split; [|assumption].
      now replace (S k + i)%nat with (k + S i)%nat by lia. }
    exists (r :: rs). cbn [List.length seq combine map fst snd].
    rewrite Hmap. replace (k + 0)%nat with k in Hr by lia. rewrite Hr.
    split; [reflexivity|]. split; [now rewrite Hlen|].
    intros [|i] w Hi.
    + injection Hi as <-. exists r. repeat split; try assumption.
      now replace (k + 0)%nat with k by lia.
    + destruct (Hnth i w Hi) as (r' & H1 & H2 & H3). exists r'.
      repeat split; try assumption.
      now replace (k + S i)%nat with (S k + i)%nat by lia.
Qed.

Lemma nth_error_lt {A : Type} (l : list A) (i : nat) (x : A) :
  nth_error l i = Some x -> (i < List.length l)%nat.
Proof. intros H. apply nth_error_Some. congruence. Qed.

Lemma keep_Some {A : Type} (l : list A) (k : nat) :
  keep (fun v => v) (map Some l ++ repeat None k) = l.
Proof.
  unfold keep. rewrite flat_map_app.
  replace (flat_map (fun a : option A => match a with Some b => [b] | None => [] end)
             (repeat None k)) with (@nil A)
    by (induction k; simpl; auto).
  rewrite app_nil_r. induction l as [|x l IH]; simpl; [reflexivity|].
  now rewrite IH.
Qed.

Lemma forallb_returned {A : Type} (rs : list A) :
  forallb returned (map Returned rs) = true.
Proof. induction rs; simpl; auto. Qed.

(** X27: when the query of every selected version returns, column [i] of
    the display shows the result of the [i]-th selected version, beside
    columns hidden behind the last one; its title reads slot [i] of the
    selects, which is that version when no empty select stands before a
    chosen one, and "null" when slot [i] is an empty select. *)
Theorem columns_show_selected_versions (st : UiState.t)
  (run : nat -> Z -> Outcome VersionedResult.t) :
  (forall i v, nth_error (activeVersions st) i = Some v ->
               exists r, run i v = Returned r /\ VersionedResult.version r = v) ->
  exists st' d,
    executeMultiVersionQuery st run = (st', Some d)
    /\ (forall i, (i < 3)%nat ->
          match nth_error (activeVersions st) i with
          | Some v =>
              exists r,
                run i v = Returned r
                /\ VersionedResult.version r = v
                /\ nth_error (Display.columns d) i
                   = Some (Some (str ["Version ";
                                      slotText (UiState.selectedVersions st) i], r))
          | None => nth_error (Display.columns d) i = Some None
          end)
    /\ (forall vs k i title r,
          UiState.selectedVersions st = map Some vs ++ repeat None k ->
          nth_error (Display.columns d) i = Some (Some (title, r)) ->
          title = str ["Version "; show_Z (VersionedResult.version r)])
    /\ (forall i title r,
          nth_error (UiState.selectedVersions st) i = Some None ->
          nth_error (Display.columns d) i = Some (Some (title, r)) ->
          title = "Version null").
Proof.
  intros Hrun.
  destruct (runs_returned run (activeVersions st) 0 Hrun)
    as (rs & Hmap & Hlen & Hnth).
  unfold executeMultiVersionQuery. rewrite Hmap, forallb_returned.
  eexists. eexists. split; [reflexivity|].
  cbn [UiState.resultsCache]. rewrite storeResults_returned.
  unfold displayMultiVersionResults. cbn [Display.columns].
  assert (Hcol : forall i, (i < 3)%nat ->
            nth_error
              (map (versionColumn
                      (UiState.mk (UiState.selectedChannel st)
                         (UiState.selectedVersions st)
                         (UiState.availableVersions st)
                         (UiState.availableUsers st)
                         (map Some rs ++ skipn (List.length rs) [None; None; None]))
                      (map Some rs ++ skipn (List.length rs) [None; None; None]))
                   [0; 1; 2]%nat) i
            = Some
                match nth_error rs i with
                | Some r =>
                    Some (str ["Version "; slotText (UiState.selectedVersions st) i], r)
                | None => None
                end).
  { intros i Hi.
    assert (Hi' : nth_error [0; 1; 2]%nat i = Some i)
      by (destruct i as [|[|[|i]]]; [reflexivity..|lia]).
    rewrite nth_error_map, Hi'. cbn [option_map]. f_equal.
    unfold versionColumn, activeVersions. cbn [UiState.selectedVersions].
    fold (activeVersions st). rewrite <- Hlen.
    destruct (Nat.ltb_spec i (List.length rs)) as [Hlt|Hge].
    - rewrite nth_error_app1 by now rewrite length_map.
      rewrite nth_error_map.
      destruct (nth_error rs i) as [r|] eqn:E; [reflexivity|].
      apply nth_error_None in E. lia.
    - apply nth_error_None in Hge. now rewrite Hge. }
  assert (Hshown : forall i title r,
            nth_error
              (map (versionColumn
                      (UiState.mk (UiState.selectedChannel st)
                         (UiState.selectedVersions st)
                         (UiState.availableVersions st)
                         (UiState.availableUsers st)
                         (map Some rs ++ skipn (List.length rs) [None; None; None]))
                      (map Some rs ++ skipn (List.length rs) [None; None; None]))
                   [0; 1; 2]%nat) i
            = Some (Some (title, r)) ->
            nth_error rs i = Some r
            /\ title = str ["Version "; slotText (UiState.selectedVersions st) i]).
  { intros i title r Hi.
    assert (Hlt : (i < 3)%nat).
    { apply nth_error_lt in Hi. now rewrite length_map in Hi. }
    rewrite (Hcol i Hlt) in Hi.
    destruct (nth_error rs i) as [r'|]; [|discriminate].
    injection Hi as <- <-. now split. }
  split; [|split].
  - intros i Hi. rewrite (Hcol i Hi).
    destruct (nth_error (activeVersions st) i) as [v|] eqn:Ev.
    + destruct (Hnth i v Ev) as (r & Hr & Hret & Hv). exists r.
      rewrite Hr. repeat split; assumption.
    + apply nth_error_None in Ev. rewrite <- Hlen in Ev.
      apply nth_error_None in Ev. now rewrite Ev.
  - intros vs k i title r Hsel Hi.
    destruct (Hshown i title r Hi) as [Hr ->].
    assert (Hact : activeVersions st = vs).
    { unfold activeVersions. rewrite Hsel. apply keep_Some. }
    assert (Hlt : (i < List.length vs)%nat).
    { rewrite <- Hact, <- Hlen. apply nth_error_lt in Hr. exact Hr. }
    destruct (nth_error vs i) as [v|] eqn:Ev;
      [|apply nth_error_None in Ev; lia].
    rewrite <- Hact in Ev. destruct (Hnth i v Ev) as (r' & Hr' & _ & Hv).
    rewrite Hr in Hr'. injection Hr' as <-.
    unfold slotText. rewrite Hsel, nth_error_app1 by now rewrite length_map.
    rewrite nth_error_map. rewrite Hact in Ev. rewrite Ev. cbn [option_map].
    now rewrite Hv.
  - intros i title r Hsel Hi.
    destruct (Hshown i title r Hi) as [_ ->].
    unfold slotText. now rewrite Hsel.
Qed.

Lemma columns_show_selected_versions_witness :
  exists st' d r,
    executeMultiVersionQuery gapUi (runLocally tiedMessages) = (st', Some d)
    /\ runLocally tiedMessages 1%nat 2 = Returned r
    /\ nth_error (Display.columns d) 1 = Some (Some ("Version null", r)).
Proof.
  destruct (columns_show_selected_versions gapUi (runLocally tiedMessages))
    as (st' & d & Hrun & Hcols & _).
  - intros i v _. exists (resultAt tiedMessages v). split; reflexivity.
  - pose proof (Hcols 1%nat ltac:(lia)) as H.
    change (nth_error (activeVersions gapUi) 1) with (Some 2) in H.
    destruct H as (r & Hr & _ & Hcol).
    exists st', d, r. repeat split; assumption.
Defined.

(* ================================================================= *)
(** ** Analyzers of custom questions *)

Lemma byTimestamp_key (a b : Message.t) : byTimestamp a b = timeKey b - timeKey a.
Proof. unfold byTimestamp, timeKey, timeOf. lia. Qed.

(** X28: when some message has a truthy time stamp, the time range that
    [analyzeTemporalPatterns] reports runs from a message with the least
    time stamp to one with the greatest; without such a message the
    analysis is the single line on the number of messages. *)
Theorem time_range_spans_stamped_messages (host : Host.t)
  (messages : list Message.t) (topicsData : list Topic.t) (question : string) :
  let date m := Host.toLocaleDateString host (timeOf m * 1000) in
  ((forall m, In m messages -> stamped m = false) ->
   analyzeTemporalPatterns host messages topicsData question
   = [str ["Temporal analysis: "; show_nat (List.length messages);
           " messages available for time-based analysis"]])
  /\ ((exists m, In m messages /\ stamped m = true) ->
      exists earliest latest recent,
        In earliest messages /\ stamped earliest = true
        /\ In latest messages /\ stamped latest = true
        /\ (forall m, In m messages -> stamped m = true ->
                      timeOf earliest <= timeOf m <= timeOf latest)
        /\ analyzeTemporalPatterns host messages topicsData question
           = [str ["Time range: "; date earliest; " to "; date latest]; recent]).
Proof.
  intros date. unfold analyzeTemporalPatterns. fold stamped.
  pose proof (sort_perm byTimestamp (filter stamped messages)) as Hp.
  pose proof (sort_descending timeKey byTimestamp byTimestamp_key
                (filter stamped messages)) as Hs.
  split.
  - intros Hnone.
    replace (filter stamped messages) with (@nil Message.t); [reflexivity|].
    symmetry. clear -Hnone. induction messages as [|m l IH]; [reflexivity|].
    simpl. rewrite (Hnone m (or_introl eq_refl)). apply IH.
    intros m' Hm'. apply Hnone. now right.
  - intros (m0 & Hin0 & Hst0).
    assert (Hin : forall m, In m (sort byTimestamp (filter stamped messages))
                            <-> In m messages /\ stamped m = true).
    { intros m. rewrite <- filter_In. split; apply Permutation_in;
        [exact Hp|symmetry; exact Hp]. }
    destruct (sort byTimestamp (filter stamped messages)) as [|earliest rest] eqn:E.
    + exfalso. apply (proj2 (Hin m0)). now split.
    + exists earliest, (last (earliest :: rest) earliest). eexists.
      destruct (proj1 (Hin earliest) (or_introl eq_refl)) as [He1 He2].
      destruct (proj1 (Hin _) (last_In earliest rest earliest)) as [Hl1 Hl2].
      split; [assumption|]. split; [assumption|].
      split; [assumption|]. split; [assumption|].
      split; [|reflexivity].
      intros m Hm Hst.
      pose proof (descending_head timeKey earliest rest Hs m
                    (proj2 (Hin m) (conj Hm Hst))) as Hle.
      pose proof (descending_last timeKey _ earliest Hs m
                    (proj2 (Hin m) (conj Hm Hst))) as Hge.
      unfold timeKey in Hle, Hge. lia.
Qed.

Lemma time_range_spans_stamped_messages_witness :
  exists earliest latest recent,
    timeOf earliest <= 100 /\ 300 <= timeOf latest
    /\ analyzeTemporalPatterns sampleHost stampedMessages [] "when"
       = [str ["Time range: ";
               Host.toLocaleDateString sampleHost (timeOf earliest * 1000); " to ";
               Host.toLocaleDateString sampleHost (timeOf latest * 1000)];
          recent].
Proof.
  destruct (proj2 (time_range_spans_stamped_messages sampleHost stampedMessages
                     [] "when"))
    as (earliest & latest & recent & _ & _ & _ & _ & Hall & Hrun).
  - exists (Message.mk (Some 2) (Some "bob") (Some 2) (Some 100)).
    split; [right; now left|reflexivity].
  - exists earliest, latest, recent. split; [|split; [|exact Hrun]].
    + apply (Hall (Message.mk (Some 2) (Some "bob") (Some 2) (Some 100)));
        [right; now left|reflexivity].
    + apply (Hall (Message.mk (Some 1) (Some "alice") (Some 1) (Some 300)));
        [now left|reflexivity].
Defined.

Lemma name_get_set (m : list (string * Z)) (k k' : string) (v : Z) :
  Map_get String.eqb (Map_set String.eqb m k v) k'
  = if String.eqb k k' then Some v else Map_get String.eqb m k'.
Proof.
  induction m as [|[a w] m IH]; simpl.
  - reflexivity.
  - destruct (String.eqb_spec a k) as [->|Hne]; simpl.
    + destruct (String.eqb k k'); reflexivity.
    + rewrite IH. destruct (String.eqb_spec a k'), (String.eqb_spec k k');
        try reflexivity. congruence.
Qed.

Lemma name_keys_set (m : list (string * Z)) (k : string) (v : Z) :
  NoDup (map fst m) -> NoDup (map fst (Map_set String.eqb m k v)).
Proof.
  induction m as [|[a w] m IH]; simpl; intros Hnd.
  - constructor; [intros []|constructor].
  - apply NoDup_cons_iff in Hnd. destruct Hnd as [Hna Hnd].
    destruct (String.eqb_spec a k) as [->|Hne]; simpl.
    + now constructor.
    + constructor; [|now apply IH].
      intros Hin. apply Hna. clear -Hin Hne.
      induction m as [|[b u] m IH]; simpl in *.
      * destruct Hin as [E|[]]. congruence.
      * destruct (String.eqb_spec b k) as [->|Hb]; simpl in Hin.
        -- exact Hin.
        -- destruct Hin as [E|Hin]; [now left|right; now apply IH].
Qed.

Lemma name_get_In (m : list (string * Z)) (k : string) (v : Z) :
  Map_get String.eqb m k = Some v -> In (k, v) m.
Proof.
  induction m as [|[a w] m IH]; simpl; [discriminate|].
  destruct (String.eqb_spec a k) as [->|Hne].
  - intros [= ->]. now left.
  - intros H. right. now apply IH.
Qed.

Lemma name_In_get (m : list (string * Z)) (k : string) (v : Z) :
  NoDup (map fst m) -> In (k, v) m -> Map_get String.eqb m k = Some v.
Proof.
  induction m as [|[a w] m IH]; simpl; intros Hnd Hin; [destruct Hin|].
  apply NoDup_cons_iff in Hnd. destruct Hnd as [Hna Hnd].
  destruct Hin as [[= -> ->]|Hin].
  - now rewrite String.eqb_refl.
  - destruct (String.eqb_spec a k) as [->|Hne]; [|now apply IH].
    exfalso. apply Hna. apply in_map_iff. now exists (k, v).
Qed.

(** What the [forEach] of [analyzeUserEngagement] collects. *)
Lemma collectNameCount_fold (messages : list Message.t) :
  NoDup (map fst (fold_left collectNameCount messages []))
  /\ forall name,
       Map_get String.eqb (fold_left collectNameCount messages []) name
       = if messagesAs name messages >? 0
         then Some (messagesAs name messages) else None.
Proof.
  induction messages as [|m l [IHn IHg]] using rev_ind.
  - split; [constructor|reflexivity].
  - rewrite fold_left_app. cbn [fold_left]. unfold collectNameCount at 1 3.
    assert (Hcount : forall name,
              messagesAs name (l ++ [m])
              = messagesAs name l + (if writtenAs name m then 1 else 0)).
    { intros name. unfold messagesAs. rewrite filter_app, length_app.
      simpl. destruct (writtenAs name m); simpl; lia. }
    assert (Hpos : forall name, 0 <= messagesAs name l)
      by (intros; unfold messagesAs; lia).
    destruct (namedUser m) as [[uid uname]|] eqn:En.
    + split; [now apply name_keys_set|].
      intros name. rewrite name_get_set, Hcount. unfold writtenAs. rewrite En.
      specialize (Hpos name).
      destruct (String.eqb_spec uname name) as [->|Hne].
      * rewrite IHg.
        destruct (Z.gtb_spec (messagesAs name l) 0);
          destruct (Z.gtb_spec (messagesAs name l + 1) 0); simpl;
          try lia; f_equal; lia.
      * rewrite IHg, Z.add_0_r. reflexivity.
    + split; [assumption|].
      intros name. rewrite IHg, Hcount. unfold writtenAs. rewrite En.
      now rewrite Z.add_0_r.
Qed.

Lemma byEntryCount_key (a b : string * Z) : byEntryCount a b = snd b - snd a.
Proof. reflexivity. Qed.

(** X29: the user that [analyzeUserEngagement] reports as the most
    engaged is a user name with the greatest number of messages, among the
    messages with a truthy user id and user name, and the number reported
    is the number of these messages under that name. *)
Theorem most_engaged_user_has_most_messages (messages : list Message.t)
  (topicsData : list Topic.t) (users : list (Z * string)) (question : string) :
  (exists m, In m messages /\ namedUser m <> None) ->
  exists name,
    nth_error (analyzeUserEngagement messages topicsData users question) 1
    = Some (str ["Most engaged user: @"; name; " with ";
                 show_Z (messagesAs name messages); " messages"])
    /\ 0 < messagesAs name messages
    /\ forall other, messagesAs other messages <= messagesAs name messages.
Proof.
  intros (m0 & Hin0 & Hn0).
  destruct (collectNameCount_fold messages) as [Hnd Hget].
  unfold analyzeUserEngagement.
  pose proof (sort_descending snd byEntryCount byEntryCount_key
                (fold_left collectNameCount messages [])) as Hs.
  assert (Hin : forall e, In e (sort byEntryCount (fold_left collectNameCount messages []))
                          <-> In e (fold_left collectNameCount messages [])).
  { intros e. apply sort_In. }
  assert (Hentry : forall name count,
            In (name, count) (fold_left collectNameCount messages []) ->
            count = messagesAs name messages /\ 0 < count).
  { intros name count He. apply (name_In_get _ _ _ Hnd) in He.
    rewrite Hget in He.
    destruct (Z.gtb_spec (messagesAs name messages) 0); [|discriminate].
    injection He as <-. split; [reflexivity|lia]. }
  assert (Hsome : exists e, In e (fold_left collectNameCount messages [])).
  { destruct (namedUser m0) as [[uid uname]|] eqn:En; [|congruence].
    exists (uname, messagesAs uname messages). apply name_get_In.
    rewrite Hget.
    assert (0 < messagesAs uname messages); [|
      destruct (Z.gtb_spec (messagesAs uname messages) 0); [reflexivity|lia]].
    unfold messagesAs.
    assert (In m0 (filter (writtenAs uname) messages)).
    { apply filter_In. split; [assumption|]. unfold writtenAs. rewrite En.
      apply String.eqb_refl. }
    destruct (filter (writtenAs uname) messages); [contradiction|simpl; lia]. }
  destruct (sort byEntryCount (fold_left collectNameCount messages []))
    as [|[name count] rest] eqn:E.
  - destruct Hsome as [e He]. apply Hin in He. destruct He.
  - destruct (Hentry name count (proj1 (Hin _) (or_introl eq_refl))) as [-> Hpos].
    exists name. split; [reflexivity|]. split; [assumption|].
    intros other.
    destruct (Z.gtb_spec (messagesAs other messages) 0) as [Hgt|Hle]; [|lia].
    assert (Ho : In (other, messagesAs other messages)
                    ((name, messagesAs name messages) :: rest)).
    { apply Hin. apply name_get_In. rewrite Hget.
      destruct (Z.gtb_spec (messagesAs other messages) 0); [reflexivity|lia]. }
    apply (descending_head snd _ _ Hs _ Ho).
Qed.

Lemma most_engaged_user_has_most_messages_witness :
  exists name,
    nth_error (analyzeUserEngagement unevenMessages [] [] "engaged") 1
    = Some (str ["Most engaged user: @"; name; " with ";
                 show_Z (messagesAs name unevenMessages); " messages"])
    /\ messagesAs "bob" unevenMessages <= messagesAs name unevenMessages.
Proof.
  destruct (most_engaged_user_has_most_messages unevenMessages [] [] "engaged")
    as (name & Hline & _ & Hmax).
  - eexists. split; [now left|]. discriminate.
  - exists name. split; [exact Hline|apply Hmax].
Defined.
